(** * DownloadForm: the notebook selection form of dss_custom_tools

    A shallow embedding of [src/dss_custom_tools/jupyter_form.py] and the
    properties of its schema translation, control construction and change
    propagation.

    - The form schema is JSON; its entries are records whose fields are
      optional where the code reads them with [.get].
    - Python dictionaries that are only looked up are [gmap]s; those the
      code iterates in insertion order ([form_widgets], [self.widget_defs])
      are association lists with unique keys.
    - The controller object, the two dictionaries captured by the callbacks
      of the latest [_build_form] and the number of evaluator queries form a
      record threaded through a state-and-exception monad.
    - Widgets follow traitlets: assigning a button's [value] notifies its
      observers when, and only when, the value changes, whether the
      assignment comes from the code or from a click.  Likewise a selection
      widget reacts to an assignment of [options] only when the new options
      differ from the ones it has: a [RadioButtons] then selects its first
      option (nothing when there is none), a [SelectMultiple] unselects
      everything.
    - The provider is taken to answer every call; what it answers is left
      open. *)

From stdpp Require Import gmap strings list fin_maps.

(** ** Insertion-ordered dictionaries *)

Module Dict.

Definition t (V : Type) := list (string * V).

Definition keys {V} (d : t V) : list string := d.*1.

(** [d.get(k)] *)
Fixpoint get {V} (k : string) (d : t V) : option V :=
  match d with
  | [] => None
  | (k', v) :: d' => if decide (k' = k) then Some v else get k d'
  end.

(** [d[k] = v]: an existing key keeps its position, a new one goes last. *)
Fixpoint set {V} (k : string) (v : V) (d : t V) : t V :=
  match d with
  | [] => [(k, v)]
  | (k', v') :: d' =>
      if decide (k' = k) then (k', v) :: d' else (k', v') :: set k v d'
  end.

End Dict.

(** ** The form schema handed over by the provider *)

Record Group := {
  g_labels : option (gmap string string);
  g_values : option (list string);
  g_columns : option Z
}.

Record Details := {
  d_labels : option (gmap string string);
  d_values : option (list string);
  d_columns : option Z;
  d_default : option (list string);
  d_groups : option (list Group)
}.

Record Entry := {
  e_name : option string;
  e_type : option string;
  e_label : option string;
  e_details : option Details
}.

(** [widget.get("details", {})] *)
Definition no_details : Details :=
  {| d_labels := None; d_values := None; d_columns := None;
     d_default := None; d_groups := None |}.

(** One value of the dictionary built by [_form_json_to_widgets_dict].  The
    keys "type", "labels", "values", "title" and "columns" are always set;
    "label" and "default" only when the schema entry has them. *)
Record FWidget := {
  fw_label : option string;
  fw_type : string;
  fw_labels : gmap string string;
  fw_values : list string;
  fw_title : string;
  fw_columns : Z;
  fw_default : option (list string)
}.

Definition fw_set_title (title : string) (f : FWidget) : FWidget :=
  {| fw_label := fw_label f; fw_type := fw_type f; fw_labels := fw_labels f;
     fw_values := fw_values f; fw_title := title; fw_columns := fw_columns f;
     fw_default := fw_default f |}.

(** ** Schema translation *)

Definition ignore_widget_names : list string :=
  ["download_format"; "data_format"].

Definition ignore_widget_types : list string :=
  ["ExclusiveGroupWidget"; "FreeEditionWidget"; "GeographicExtentWidget";
   "GeographicLocationWidget"; "LicenceWidget"].

Definition widget_map : gmap string string :=
  <["StringChoiceWidget" := "radio"]>
    (<["StringListArrayWidget" := "checkbox"]>
       (<["StringListWidget" := "checkbox"]> ∅)).

(** One round of the loop over [details["groups"]]:
    [labels.update(...)], [values += [v for v in ... if v not in values]]
    (the comprehension is evaluated against [values] as it is before the
    extension), [columns = max(columns, ...)]. *)
Definition merge_group (acc : gmap string string * list string * Z) (group : Group)
  : gmap string string * list string * Z :=
  let '(labels, values, columns) := acc in
  (default ∅ (g_labels group) ∪ labels,
   values ++ filter (λ v, v ∉ values) (default [] (g_values group)),
   Z.max columns (default 1%Z (g_columns group))).

Definition flatten_groups (groups : list Group)
  : gmap string string * list string * Z :=
  foldl merge_group (∅, [], 1%Z) groups.

Definition widget_details (details : Details)
  : gmap string string * list string * Z :=
  match d_groups details with
  | Some groups => flatten_groups groups
  | None =>
      (default ∅ (d_labels details), default [] (d_values details),
       default 1%Z (d_columns details))
  end.

Definition ignored (names types : list string) (widget : Entry) : Prop :=
  default "" (e_name widget) ∈ names ∨ default "" (e_type widget) ∈ types.

Definition translate_entry (widget : Entry) : FWidget :=
  let widget_type := default "" (e_type widget) in
  let details := default no_details (e_details widget) in
  let '(labels, values, columns) := widget_details details in
  {| fw_label := e_label widget;
     fw_type := default widget_type (widget_map !! widget_type);
     fw_labels := labels;
     fw_values := values;
     fw_title := default "" (e_label widget);
     fw_columns := columns;
     fw_default := d_default details |}.

(** The body of the loop of [_form_json_to_widgets_dict]. *)
Definition translate_step (names types : list string)
    (out_widgets : Dict.t FWidget) (widget : Entry) : Dict.t FWidget :=
  let widget_name := default "" (e_name widget) in
  if decide (ignored names types widget) then out_widgets
  else if decide (widget_name ∈ Dict.keys out_widgets) then out_widgets
  else out_widgets ++ [(widget_name, translate_entry widget)].

Definition _form_json_to_widgets_dict_with (names types : list string)
    (form : list Entry) : Dict.t FWidget :=
  foldl (translate_step names types) [] form.

(** The method with its default ignore lists, as [_build_form] calls it. *)
Definition _form_json_to_widgets_dict (form : list Entry) : Dict.t FWidget :=
  _form_json_to_widgets_dict_with ignore_widget_names ignore_widget_types form.

(** ** Controls *)

(** A [widgets.ToggleButton]: its [value], its [description] and
    [layout.display] (unset until [on_change] writes "none" or ""). *)
Record ToggleButton := {
  tb_value : bool;
  tb_description : string;
  tb_display : option string
}.

Definition tb_set_value (v : bool) (tb : ToggleButton) : ToggleButton :=
  {| tb_value := v; tb_description := tb_description tb;
     tb_display := tb_display tb |}.

Definition tb_set_display (d : string) (tb : ToggleButton) : ToggleButton :=
  {| tb_value := tb_value tb; tb_description := tb_description tb;
     tb_display := Some d |}.

(** Which [get_value] closure (and which observers) [_build_form] attached. *)
Inductive Kind := Checkbox | Radio.

(** An element of the [options] of a selection widget as they were assigned:
    a plain value, or a (label, value) pair. *)
Inductive OptionItem :=
| Plain (value : string)
| Labelled (label value : string).

#[global] Instance OptionItem_eq_dec : EqDecision OptionItem :=
  ltac:(solve_decision).

(** The widget classes [on_change] tells apart.  [VBox] is the box built by
    [_build_form]: the title, the grid's column count, the grid's buttons and
    the [_get_value] attribute, a closure over those same buttons and over the
    option list.  The other two classes carry no [_get_value]. *)
Inductive Widget :=
| VBox (title : string) (columns : Z) (children : list ToggleButton)
       (kind : Kind) (opts : list string)
| RadioButtons (options : list OptionItem) (value : option string)
| SelectMultiple (options : list OptionItem) (value : list string).

(** [get_value] of the checkbox kind:
    [[opt for opt, tb in zip(opts, tb_list) if tb.value]] *)
Definition get_value_checkbox (tb_list : list ToggleButton) (opts : list string)
  : list string :=
  (filter (λ p, tb_value p.2 = true) (zip opts tb_list)).*1.

(** [get_value] of the radio kind: the first pair whose button is on. *)
Fixpoint get_value_radio (tb_list : list ToggleButton) (opts : list string)
  : list string :=
  match opts, tb_list with
  | opt :: opts', tb :: tb_list' =>
      if tb_value tb then [opt] else get_value_radio tb_list' opts'
  | _, _ => []
  end.

(** [widget._get_value()], [None] when [hasattr(widget, "_get_value")] fails. *)
Definition _get_value (widget : Widget) : option (list string) :=
  match widget with
  | VBox _ _ children Checkbox opts => Some (get_value_checkbox children opts)
  | VBox _ _ children Radio opts => Some (get_value_radio children opts)
  | _ => None
  end.

(** ** The provider *)

(** A collection as the client returns it.  The evaluator is remote: its
    answer may depend on the query and on how many queries came before, so
    [apply_constraints n selection] is the answer to [selection] when it is
    the controller's [n]-th query. *)
Record Collection := {
  title : string;
  form : list Entry;
  apply_constraints : nat → gmap string (list string) → gmap string (list string)
}.

(** ** The controller and its monad *)

(** What an output surface currently shows.  The form view names its controls
    by key: they are the live objects of [widget_defs]. *)
Inductive View :=
| InitialPrompt
| LoadingMsg
| FormView (heading : string) (controls : list string)
| SelectionJson (selection : gmap string (list string)).

(** [self], followed by the two dictionaries local to the latest
    [_build_form] call that its callbacks captured, and by the number of
    queries sent to the evaluator so far. *)
Record World := {
  collection_id : option string;
  request : gmap string (list string);
  widget_defs : Dict.t Widget;
  collection_widget_value : option string;
  output : list View;
  selection_output : list View;
  form_widgets : Dict.t FWidget;
  selection : gmap string (list string);
  queries : nat
}.

Definition set_widget_defs (f : Dict.t Widget → Dict.t Widget) (w : World) :=
  {| collection_id := collection_id w; request := request w;
     widget_defs := f (widget_defs w);
     collection_widget_value := collection_widget_value w;
     output := output w; selection_output := selection_output w;
     form_widgets := form_widgets w; selection := selection w;
     queries := queries w |}.

Definition set_output (o : list View) (w : World) :=
  {| collection_id := collection_id w; request := request w;
     widget_defs := widget_defs w;
     collection_widget_value := collection_widget_value w;
     output := o; selection_output := selection_output w;
     form_widgets := form_widgets w; selection := selection w;
     queries := queries w |}.

Definition set_selection_output (o : list View) (w : World) :=
  {| collection_id := collection_id w; request := request w;
     widget_defs := widget_defs w;
     collection_widget_value := collection_widget_value w;
     output := output w; selection_output := o;
     form_widgets := form_widgets w; selection := selection w;
     queries := queries w |}.

Definition set_form_widgets (f : Dict.t FWidget → Dict.t FWidget) (w : World) :=
  {| collection_id := collection_id w; request := request w;
     widget_defs := widget_defs w;
     collection_widget_value := collection_widget_value w;
     output := output w; selection_output := selection_output w;
     form_widgets := f (form_widgets w); selection := selection w;
     queries := queries w |}.

Definition set_selection (s : gmap string (list string)) (w : World) :=
  {| collection_id := collection_id w; request := request w;
     widget_defs := widget_defs w;
     collection_widget_value := collection_widget_value w;
     output := output w; selection_output := selection_output w;
     form_widgets := form_widgets w; selection := s;
     queries := queries w |}.

Definition set_collection_widget_value (v : option string) (w : World) :=
  {| collection_id := collection_id w; request := request w;
     widget_defs := widget_defs w;
     collection_widget_value := v;
     output := output w; selection_output := selection_output w;
     form_widgets := form_widgets w; selection := selection w;
     queries := queries w |}.

Definition set_public (id : option string) (r : gmap string (list string))
    (w : World) :=
  {| collection_id := id; request := r;
     widget_defs := widget_defs w;
     collection_widget_value := collection_widget_value w;
     output := output w; selection_output := selection_output w;
     form_widgets := form_widgets w; selection := selection w;
     queries := queries w |}.

Definition set_queries (n : nat) (w : World) :=
  {| collection_id := collection_id w; request := request w;
     widget_defs := widget_defs w;
     collection_widget_value := collection_widget_value w;
     output := output w; selection_output := selection_output w;
     form_widgets := form_widgets w; selection := selection w;
     queries := n |}.

Inductive exn :=
| ValueError (msg : string)
| KeyError (key : string).

(** A call either returns or raises; both leave a controller behind. *)
Inductive Res (A : Type) :=
| Ok (a : A) (w : World)
| Raised (e : exn) (w : World).
Arguments Ok {A} a w.
Arguments Raised {A} e w.

Definition M (A : Type) : Type := World → Res A.

#[global] Instance M_ret : MRet M := λ A a w, Ok a w.
#[global] Instance M_bind : MBind M := λ A B f m w,
  match m w with
  | Ok a w' => f a w'
  | Raised e w' => Raised e w'
  end.

Definition get_world : M World := λ w, Ok w w.
Definition modify (f : World → World) : M unit := λ w, Ok tt (f w).
Definition raise {A} (e : exn) : M A := λ w, Raised e w.

(** [for x in l: f(x)] *)
Fixpoint for_each {A} (f : A → M unit) (l : list A) : M unit :=
  match l with
  | [] => mret tt
  | x :: l' => f x;; for_each f l'
  end.

(** ** Recomputing the public selection *)

(** The dictionary comprehension of [_update_selection_state]. *)
Definition selected (widget_defs : Dict.t Widget) : gmap string (list string) :=
  foldl (λ req '(key, widget),
           match _get_value widget with
           | Some v => if decide (v ≠ []) then <[key := v]> req else req
           | None => req
           end) ∅ widget_defs.

Definition _update_selection_state : M unit :=
  modify (λ w, set_public (collection_widget_value w)
                          (selected (widget_defs w)) w).

(** ** Change propagation *)

Section callbacks.

(** The collection captured by the callbacks of one [_build_form] call. *)
Variable collection : Collection.

Definition update_selection_display : M unit :=
  modify (λ w, set_selection_output [SelectionJson (selection w)] w).

(** First loop of [on_change]: [selection[key] = widget._get_value()]. *)
Definition read_controls (widget_defs : Dict.t Widget)
    (selection : gmap string (list string)) : gmap string (list string) :=
  foldl (λ sel '(key, widget),
           match _get_value widget with
           | Some v => <[key := v]> sel
           | None => sel
           end) selection widget_defs.

(** [{k: v for k, v in selection.items() if v}] *)
Definition non_empty (selection : gmap string (list string))
  : gmap string (list string) :=
  filter (λ kv, kv.2 ≠ []) selection.

(** [for tb in ...children: tb.layout.display = "none"] *)
Definition hide_all (children : list ToggleButton) : list ToggleButton :=
  tb_set_display "none" <$> children.

(** [for tb, opt in zip(children, f_widget["values"]):
       if opt in values: tb.layout.display = ""] *)
Fixpoint show_legal (children : list ToggleButton) (opts values : list string)
  : list ToggleButton :=
  match children, opts with
  | tb :: children', opt :: opts' =>
      (if decide (opt ∈ values) then tb_set_display "" tb else tb)
      :: show_legal children' opts' values
  | _, _ => children
  end.

Definition store (key : string) (widget : Widget) : M unit :=
  modify (set_widget_defs (Dict.set key widget)).

(** The body of the loop over [allowed_options.items()]. *)
Definition update_control (item : string * list string) : M unit :=
  let '(key, values) := item in
  w ← get_world;
  let f_widget := Dict.get key (form_widgets w) in
  let labels := default ∅ (fw_labels <$> f_widget) in
  match Dict.get key (widget_defs w) with
  | None => mret tt
  | Some (VBox title columns children kind opts) =>
      store key (VBox title columns (hide_all children) kind opts);;
      match f_widget with
      | None => raise (KeyError "values")
      | Some f =>
          store key (VBox title columns
                       (show_legal (hide_all children) (fw_values f) values)
                       kind opts)
      end
  | Some (RadioButtons options value) =>
      let options' := (λ v, Labelled (default v (labels !! v)) v) <$> values in
      let value' := if decide (options' = options) then value else head values in
      store key (RadioButtons options' value');;
      match value' with
      | Some v =>
          if decide (v ∈ values) then mret tt
          else store key (RadioButtons options' None)
      | None => store key (RadioButtons options' None)
      end
  | Some (SelectMultiple options value) =>
      let options' := Plain <$> values in
      let value' := if decide (options' = options) then value else [] in
      store key (SelectMultiple options' value');;
      match selection w !! key with
      | None => raise (KeyError key)
      | Some chosen =>
          store key (SelectMultiple options' (filter (λ x, x ∈ values) chosen))
      end
  end.

Definition on_change : M unit :=
  modify (λ w, set_selection (read_controls (widget_defs w) (selection w)) w);;
  w ← get_world;
  let allowed_options :=
    apply_constraints collection (queries w) (non_empty (selection w)) in
  modify (set_queries (S (queries w)));;
  for_each update_control (map_to_list allowed_options);;
  _update_selection_state;;
  update_selection_display.

(** ** Observers *)

(** The loop of [on_radio_click]: every button but the owner is set off.
    A sibling that was on notifies its own observers with a new value of
    [False], for which [on_radio_click] does nothing. *)
Definition siblings_off (owner : nat) (tb_list : list ToggleButton)
  : list ToggleButton :=
  imap (λ j tb, if decide (j = owner) then tb else tb_set_value false tb)
       tb_list.

(** What the observers of a button do to the buttons of its field once its
    value has changed to [new], and whether they end in [on_change].  The
    call of [on_change] is left to the two callers below: it reaches the
    buttons through [self.widget_defs], which holds them after construction
    but not during it. *)
Definition on_radio_click (new : bool) (owner : nat)
    (tb_list : list ToggleButton) : list ToggleButton * bool :=
  if new then (siblings_off owner tb_list, true) else (tb_list, false).

Definition observers (kind : Kind) (new : bool) (owner : nat)
    (tb_list : list ToggleButton) : list ToggleButton * bool :=
  match kind with
  | Checkbox => (tb_list, true)
  | Radio => on_radio_click new owner tb_list
  end.

(** [tb.value = v] on the [i]-th button of a field under construction.
    Observers are notified only when the value changes. *)
Definition assign (kind : Kind) (i : nat) (v : bool)
    (buttons : list ToggleButton) : M (list ToggleButton) :=
  match buttons !! i with
  | None => mret buttons
  | Some tb =>
      if decide (tb_value tb = v) then mret buttons
      else
        let '(buttons, changed) :=
          observers kind v i (<[i := tb_set_value v tb]> buttons) in
        (if changed then on_change else mret tt);;
        mret buttons
  end.

(** [for tb, opt in zip(buttons, options): tb.value = opt in default_values],
    from position [i] on. *)
Fixpoint set_defaults (kind : Kind) (default_values : list string) (i : nat)
    (options : list string) (buttons : list ToggleButton)
  : M (list ToggleButton) :=
  match options with
  | [] => mret buttons
  | opt :: options' =>
      buttons ← assign kind i (bool_decide (opt ∈ default_values)) buttons;
      set_defaults kind default_values (S i) options' buttons
  end.

(** The list of fresh buttons, one per option, all off. *)
Definition new_buttons (labels : gmap string string) (options : list string)
  : list ToggleButton :=
  (λ opt, {| tb_value := false;
             tb_description := default opt (labels !! opt);
             tb_display := None |}) <$> options.

(** The body of the loop of [_build_form] over [form_widgets.items()]. *)
Definition build_control (item : string * FWidget) : M unit :=
  let '(key, f_widget) := item in
  let widget_type := fw_type f_widget in
  let options := fw_values f_widget in
  let labels := fw_labels f_widget in
  let columns := fw_columns f_widget in
  let buttons := new_buttons labels options in
  '(kind, title) ←
    (if decide (widget_type = "checkbox") then
       mret (Checkbox, fw_title f_widget)
     else if decide (widget_type = "radio") then
       let title := fw_title f_widget +:+ " (select one)" in
       modify (set_form_widgets (Dict.set key (fw_set_title title f_widget)));;
       mret (Radio, title)
     else raise (ValueError ("Unsupported widget type: " +:+ widget_type)));
  let default_values := default [] (fw_default f_widget) in
  buttons ← set_defaults kind default_values 0 options buttons;
  store key (VBox title columns buttons kind options).

(** A click on the [i]-th button of the rendered field [key]: the front end
    flips the button's value and its observers run. *)
Definition toggle (event : string * nat) : M unit :=
  let '(key, i) := event in
  w ← get_world;
  match Dict.get key (widget_defs w) with
  | Some (VBox title columns children kind opts) =>
      match children !! i with
      | Some tb =>
          let v := negb (tb_value tb) in
          let '(children, changed) :=
            observers kind v i (<[i := tb_set_value v tb]> children) in
          store key (VBox title columns children kind opts);;
          if changed then on_change else mret tt
      | None => mret tt
      end
  | _ => mret tt
  end.

End callbacks.

(** ** Building the form *)

Section controller.

(** [self.client.get_collection] *)
Variable get_collection : string → Collection.

Definition _display_initial_prompt : M unit :=
  modify (set_output []);;
  modify (λ w, set_output (output w ++ [InitialPrompt]) w).

Definition _build_form (collection_id : string) : M unit :=
  modify (set_output []);;
  modify (set_selection_output []);;
  modify (set_widget_defs (λ _, []));;
  modify (λ w, set_output (output w ++ [LoadingMsg]) w);;
  let collection := get_collection collection_id in
  let form_widgets := _form_json_to_widgets_dict (form collection) in
  modify (set_form_widgets (λ _, form_widgets));;
  modify (set_selection ∅);;
  for_each (build_control collection) form_widgets;;
  _update_selection_state;;
  modify (set_output []);;
  modify (λ w, set_output
                 (output w ++ [FormView (title collection)
                                        (Dict.keys (widget_defs w))]) w).

(** The observer of the dataset selector, for a change of its value from
    [old] to [new]. *)
Definition _on_collection_change (old : option string) (new : string)
  : M unit :=
  if decide (Some new ≠ old) then _build_form new else mret tt.

(** The user picks [new] in the dataset selector. *)
Definition select_dataset (new : string) : M unit :=
  w ← get_world;
  let old := collection_widget_value w in
  if decide (old = Some new) then mret tt
  else modify (set_collection_widget_value (Some new));;
       _on_collection_change old new.

(** The controller before [__init__] has shown anything; the two captured
    dictionaries do not exist yet and are taken empty. *)
Definition blank : World :=
  {| collection_id := None; request := ∅; widget_defs := [];
     collection_widget_value := None; output := []; selection_output := [];
     form_widgets := []; selection := ∅; queries := 0 |}.

(** [__init__]: the selector starts without a value, so the prompt is
    shown and nothing is built. *)
Definition __init__ : Res unit :=
  (match collection_widget_value blank with
   | Some id => _build_form id
   | None => _display_initial_prompt
   end;;
   _update_selection_state) blank.

End controller.

(** A session of clicks on the buttons of the form built for [collection]. *)
Definition clicks (collection : Collection) (events : list (string * nat))
  : M unit :=
  for_each (toggle collection) events.


(** ** Notions used in the statements *)

(** A button apart from its layout: what extraction and the observers read. *)
Definition bare (tb : ToggleButton) : ToggleButton :=
  {| tb_value := tb_value tb; tb_description := tb_description tb;
     tb_display := None |}.

Definition bare_widget (widget : Widget) : Widget :=
  match widget with
  | VBox title columns children kind opts =>
      VBox title columns (bare <$> children) kind opts
  | _ => widget
  end.

Definition bare_defs (widget_defs : Dict.t Widget) : Dict.t Widget :=
  prod_map id bare_widget <$> widget_defs.

(** The number of buttons that are on. *)
Definition on_count (children : list ToggleButton) : nat :=
  length (filter (λ tb, tb_value tb = true) children).

(** The kind [_build_form] gives a translated field, if it accepts it. *)
Definition kind_of (f_widget : FWidget) : option Kind :=
  if decide (fw_type f_widget = "checkbox") then Some Checkbox
  else if decide (fw_type f_widget = "radio") then Some Radio
  else None.

(** A stored control is the box of a translated field: one button per
    option, the kind of the field's type and, for the radio kind, at most
    one button on. *)
Definition control_ok (form_widgets : Dict.t FWidget) (kw : string * Widget)
  : Prop :=
  ∃ title columns children kind opts f_widget,
    kw.2 = VBox title columns children kind opts
    ∧ length children = length opts
    ∧ Dict.get kw.1 form_widgets = Some f_widget
    ∧ fw_values f_widget = opts
    ∧ kind_of f_widget = Some kind
    ∧ (kind = Radio → on_count children ≤ 1).

Definition rendered (w : World) : Prop :=
  NoDup (Dict.keys (widget_defs w))
  ∧ Forall (control_ok (form_widgets w)) (widget_defs w).

(** What the loop over the evaluator's response does to the controls when
    every stored control is a box of a translated field. *)
Definition relayout (item : string * list string) (widget_defs : Dict.t Widget)
  : Dict.t Widget :=
  match Dict.get item.1 widget_defs with
  | Some (VBox title columns children kind opts) =>
      Dict.set item.1
        (VBox title columns (show_legal (hide_all children) opts item.2) kind opts)
        widget_defs
  | _ => widget_defs
  end.

Definition relayout_all (items : list (string * list string))
    (widget_defs : Dict.t Widget) : Dict.t Widget :=
  foldl (λ d item, relayout item d) widget_defs items.

(** The response [on_change] obtains in controller state [w]. *)
Definition response (collection : Collection) (w : World)
  : gmap string (list string) :=
  apply_constraints collection (queries w)
    (non_empty (read_controls (widget_defs w) (selection w))).

(** The controller [on_change] leaves behind in that case. *)
Definition propagate (collection : Collection) (w : World) : World :=
  let selection := read_controls (widget_defs w) (selection w) in
  let widget_defs :=
    relayout_all (map_to_list (response collection w)) (widget_defs w) in
  {| collection_id := collection_widget_value w;
     request := selected widget_defs;
     widget_defs := widget_defs;
     collection_widget_value := collection_widget_value w;
     output := output w;
     selection_output := [SelectionJson selection];
     form_widgets := form_widgets w;
     selection := selection;
     queries := S (queries w) |}.

(** The indices of the buttons that are on, in increasing order. *)
Definition on_indices (children : list ToggleButton) : list nat :=
  filter (λ i, tb_value <$> children !! i = Some true) (seq 0 (length children)).

(** Two controller states with the same translated fields, the same
    controls in the same order and the same main output. *)
Definition same_form (w w' : World) : Prop :=
  form_widgets w' = form_widgets w
  ∧ Dict.keys (widget_defs w') = Dict.keys (widget_defs w)
  ∧ output w' = output w.

(** Two controller states that differ at most in the layout of the buttons,
    the selection dictionaries and the selection preview. *)
Definition layout_only (w w' : World) : Prop :=
  form_widgets w' = form_widgets w
  ∧ output w' = output w
  ∧ bare_defs (widget_defs w') = bare_defs (widget_defs w).

(** The buttons of a field under construction are out of [on_change]'s
    reach, so the default loop acts on them as a function. *)
Definition assign_pure (kind : Kind) (i : nat) (v : bool)
    (buttons : list ToggleButton) : list ToggleButton :=
  match buttons !! i with
  | None => buttons
  | Some tb =>
      if decide (tb_value tb = v) then buttons
      else (observers kind v i (<[i := tb_set_value v tb]> buttons)).1
  end.

Fixpoint defaults_pure (kind : Kind) (default_values : list string) (i : nat)
    (options : list string) (buttons : list ToggleButton) : list ToggleButton :=
  match options with
  | [] => buttons
  | opt :: options' =>
      defaults_pure kind default_values (S i) options'
        (assign_pure kind i (bool_decide (opt ∈ default_values)) buttons)
  end.

(** The box [_build_form] stores for a translated field of the given kind,
    as it is when it is stored. *)
Definition built_control (f_widget : FWidget) (kind : Kind) : Widget :=
  VBox (match kind with
        | Checkbox => fw_title f_widget
        | Radio => fw_title f_widget +:+ " (select one)"
        end)
       (fw_columns f_widget)
       (defaults_pure kind (default [] (fw_default f_widget)) 0
          (fw_values f_widget)
          (new_buttons (fw_labels f_widget) (fw_values f_widget)))
       kind (fw_values f_widget).

(** The control [kw] is the box built for the translated field [kf], up to
    the layout of its buttons. *)
Definition built_from (kf : string * FWidget) (kw : string * Widget) : Prop :=
  kw.1 = kf.1
  ∧ ∃ kind, kind_of kf.2 = Some kind
            ∧ bare_widget kw.2 = bare_widget (built_control kf.2 kind).

(** The translated fields without their titles, which [_build_form]
    rewrites for the radio kind. *)
Definition untitled (form_widgets : Dict.t FWidget) : Dict.t FWidget :=
  prod_map id (fw_set_title "") <$> form_widgets.

(** The state of the [i]-th button once construction is over: its option is
    a default and, for the radio kind, no later option is. *)
Definition initially_on (kind : Kind) (default_values options : list string)
    (i : nat) : Prop :=
  ∃ opt, options !! i = Some opt ∧ opt ∈ default_values
         ∧ (kind = Radio → Forall (λ o, o ∉ default_values) (drop (S i) options)).

(** The invariant of the loop of [_build_form] once the translated fields
    [done_] have been handled: the controls are exactly their boxes. *)
Definition building (fws : Dict.t FWidget) (done_ : Dict.t FWidget) (w : World)
  : Prop :=
  rendered w
  ∧ untitled (form_widgets w) = untitled fws
  ∧ Forall2 built_from done_ (widget_defs w).

(** The controller when the loop of [_build_form] starts, and the one the
    statements after the loop make of the controller [w] the loop left. *)
Definition loading (fws : Dict.t FWidget) (w : World) : World :=
  {| collection_id := collection_id w; request := request w;
     widget_defs := [];
     collection_widget_value := collection_widget_value w;
     output := [LoadingMsg]; selection_output := [];
     form_widgets := fws; selection := ∅; queries := queries w |}.

Definition shown (collection : Collection) (w : World) : World :=
  {| collection_id := collection_widget_value w;
     request := selected (widget_defs w);
     widget_defs := widget_defs w;
     collection_widget_value := collection_widget_value w;
     output := [FormView (title collection) (Dict.keys (widget_defs w))];
     selection_output := selection_output w;
     form_widgets := form_widgets w; selection := selection w;
     queries := queries w |}.

(** Every translated field is of a kind [_build_form] accepts. *)
Definition supported (fws : Dict.t FWidget) : Prop :=
  Forall (λ kf, is_Some (kind_of kf.2)) fws.

(** The controller [w] holds the rendered form of the translated fields
    [fws]: one control per field, in the same order. *)
Definition form_of (fws : Dict.t FWidget) (w : World) : Prop :=
  rendered w
  ∧ untitled (form_widgets w) = untitled fws
  ∧ Dict.keys (widget_defs w) = Dict.keys fws.

(** Every entry of the public selection names a control and is not empty. *)
Definition request_ok (w : World) : Prop :=
  ∀ key v, request w !! key = Some v →
           v ≠ [] ∧ key ∈ Dict.keys (widget_defs w).

(** ** Sessions and concrete schemas *)

(** A whole session: the controller is created, the user picks the dataset
    [id] and then clicks on buttons of its form. *)
Definition session (get_collection : string → Collection) (id : string)
    (events : list (string * nat)) : Res unit :=
  match __init__ get_collection with
  | Ok _ w =>
      (select_dataset get_collection id;; clicks (get_collection id) events) w
  | Raised e w => Raised e w
  end.

Definition world_of {A} (r : Res A) : World :=
  match r with Ok _ w | Raised _ w => w end.

Definition field (name type : string) (values : list string)
    (default : option (list string)) : Entry :=
  {| e_name := Some name; e_type := Some type; e_label := Some name;
     e_details := Some {| d_labels := None; d_values := Some values;
                          d_columns := None; d_default := default;
                          d_groups := None |} |}.

Definition grouped (name type : string) (groups : list Group) : Entry :=
  {| e_name := Some name; e_type := Some type; e_label := Some name;
     e_details := Some {| d_labels := None; d_values := None;
                          d_columns := None; d_default := None;
                          d_groups := Some groups |} |}.

Definition group (values : list string) (columns : option Z) : Group :=
  {| g_labels := None; g_values := Some values; g_columns := columns |}.

(** The schema of the first scenario: one multi-select field, no defaults. *)
Definition variable_form : list Entry :=
  [ {| e_name := Some "variable"; e_type := Some "StringListWidget";
       e_label := None;
       e_details := Some {| d_labels := Some {[ "a" := "Alpha" ]};
                            d_values := Some ["a"; "b"];
                            d_columns := None; d_default := None;
                            d_groups := None |} |} ].

(** The groups of the second scenario. *)
Definition xyz_groups : list Group :=
  [ group ["x"; "y"] (Some 2%Z); group ["y"; "z"] (Some 3%Z) ].

(** A group that lists one value twice. *)
Definition xx_groups : list Group := [ group ["x"; "x"] None ].

(** A named field of an ignored type, followed by a multi-select field of the
    same name. *)
Definition area_form : list Entry :=
  [ field "area" "GeographicExtentWidget" [] None;
    field "area" "StringListWidget" ["north"; "south"] None ].

(** A single-choice field "f" with options a and b. *)
Definition choice_form (default : option (list string)) : list Entry :=
  [ field "f" "StringChoiceWidget" ["a"; "b"] default ].

(** A field of a type the translation neither ignores nor maps. *)
Definition date_form : list Entry :=
  [ field "variable" "StringListWidget" ["a"] (Some ["a"]);
    field "date" "DateRangeWidget" [] None ].

(** A collection whose evaluator answers every query with [allowed]. *)
Definition constant_collection (form : list Entry)
    (allowed : gmap string (list string)) : Collection :=
  {| title := "T"; form := form; apply_constraints := λ _ _, allowed |}.


(** ** Notions used in further statements *)

(** The first entry of the schema that is named [k] and escapes both ignore
    lists. *)
Fixpoint first_entry (names types : list string) (k : string)
    (form : list Entry) : option Entry :=
  match form with
  | [] => None
  | widget :: form' =>
      if decide (default "" (e_name widget) = k ∧ ¬ ignored names types widget)
      then Some widget
      else first_entry names types k form'
  end.

(** The computation [m] relates every controller it is started in to the one
    it leaves behind, whether it returns or raises. *)
Definition keeps {A} (R : World → World → Prop) (m : M A) : Prop :=
  ∀ w, R w (world_of (m w)).

(** The options a translated field declares as defaults, in option order. *)
Definition default_options (f_widget : FWidget) : list string :=
  filter (λ o, o ∈ default [] (fw_default f_widget)) (fw_values f_widget).

(** What a field contributes to the request when its form has just been
    built: all its default options for the checkbox kind, the last of them
    for the radio kind. *)
Definition initial_choice (f_widget : FWidget) : list string :=
  match kind_of f_widget with
  | Some Checkbox => default_options f_widget
  | Some Radio => from_option (λ o, [o]) [] (last (default_options f_widget))
  | None => []
  end.

(** The number of default options over all translated fields. *)
Definition default_count (fws : Dict.t FWidget) : nat :=
  sum_list ((λ kf, length (default_options kf.2)) <$> fws).

(** A collection whose evaluator answers every query with the query itself:
    exactly what is chosen is legal. *)
Definition echo_collection (form : list Entry) : Collection :=
  {| title := "T"; form := form; apply_constraints := λ _ query, query |}.
(** * Properties *)

(** ** Dictionaries *)

Module DictFacts.
Import Dict.

Lemma get_Some_elem {V} k (v : V) d : get k d = Some v → (k, v) ∈ d.
Proof.
  induction d as [|[k' v'] d IH]; simpl; [done|].
  case_decide; intros Hg.
  - injection Hg as <-. subst. left.
  - right. auto.
Qed.

Lemma get_None {V} k (d : t V) : get k d = None ↔ k ∉ keys d.
Proof.
  unfold keys. induction d as [|[k' v'] d IH]; simpl.
  - split; [intros _; apply not_elem_of_nil | done].
  - rewrite not_elem_of_cons. destruct (decide (k' = k)) as [->|Hne].
    + split; [done | intros [? _]; done].
    + rewrite IH. split; [intros ?; split; [congruence | done] | intros [_ ?]; done].
Qed.

Lemma get_is_Some {V} k (d : t V) : is_Some (get k d) ↔ k ∈ keys d.
Proof.
  destruct (get k d) eqn:E.
  - split; [|eauto]. intros _.
    destruct (decide (k ∈ keys d)) as [|Hn]; [done|].
    apply get_None in Hn. congruence.
  - apply get_None in E. split; [intros [? ?]; done | done].
Qed.

Lemma elem_get {V} k (v : V) d : NoDup (keys d) → (k, v) ∈ d → get k d = Some v.
Proof.
  unfold keys. induction d as [|[k' v'] d IH]; simpl.
  - intros _ H. by apply elem_of_nil in H.
  - intros Hnd H. apply NoDup_cons in Hnd as [Hk Hnd].
    apply elem_of_cons in H as [H|H].
    + injection H as -> ->. by rewrite decide_True.
    + rewrite decide_False; [auto|]. intros ->.
      apply Hk. apply list_elem_of_fmap. by exists (k, v).
Qed.

Lemma keys_set {V} k (v : V) d :
  keys (set k v d) = if decide (k ∈ keys d) then keys d else keys d ++ [k].
Proof.
  unfold keys. induction d as [|[k' v'] d IH]; [done|].
  cbn [set]. destruct (decide (k' = k)) as [->|Hne]; rewrite !fmap_cons; cbn [fst].
  - rewrite decide_True; [done | left].
  - rewrite IH. destruct (decide (k ∈ d.*1)) as [Hin|Hin].
    + rewrite decide_True; [done | by right].
    + rewrite decide_False; [done|]. rewrite not_elem_of_cons. done.
Qed.

Lemma keys_set_in {V} k (v : V) d : k ∈ keys d → keys (set k v d) = keys d.
Proof. intros. rewrite keys_set. by rewrite decide_True. Qed.

Lemma set_fresh {V} k (v : V) d : k ∉ keys d → set k v d = d ++ [(k, v)].
Proof.
  unfold keys. induction d as [|[k' v'] d IH]; simpl; [done|].
  rewrite not_elem_of_cons. intros [? ?].
  rewrite decide_False; [|done]. by rewrite IH.
Qed.

Lemma get_set_eq {V} k (v : V) d : get k (set k v d) = Some v.
Proof.
  induction d as [|[k' v'] d IH]; simpl.
  - by rewrite decide_True.
  - case_decide; simpl.
    + by rewrite decide_True.
    + by rewrite decide_False.
Qed.

Lemma get_set_ne {V} k k' (v : V) d : k ≠ k' → get k' (set k v d) = get k' d.
Proof.
  intros Hne. induction d as [|[k0 v0] d IH]; simpl.
  - by rewrite decide_False.
  - destruct (decide (k0 = k)) as [->|]; simpl.
    + by rewrite !decide_False.
    + by rewrite IH.
Qed.

Lemma set_set {V} k (v v' : V) d : set k v' (set k v d) = set k v' d.
Proof.
  induction d as [|[k0 v0] d IH]; simpl.
  - by rewrite decide_True.
  - destruct (decide (k0 = k)) as [->|]; simpl.
    + by rewrite decide_True.
    + rewrite decide_False; [|done]. by rewrite IH.
Qed.

Lemma set_get {V} k (v : V) d : get k d = Some v → set k v d = d.
Proof.
  induction d as [|[k0 v0] d IH]; simpl; [done|].
  destruct (decide (k0 = k)) as [->|].
  - by intros [= ->].
  - intros H. by rewrite IH.
Qed.

Lemma get_app {V} k (d1 d2 : t V) :
  get k (d1 ++ d2) = match get k d1 with Some v => Some v | None => get k d2 end.
Proof.
  induction d1 as [|[k0 v0] d1 IH]; simpl; [done|].
  by case_decide.
Qed.

(** Replacing a value keeps a property every value has. *)
Lemma Forall_set {V} (P : string * V → Prop) k v (d : t V) :
  P (k, v) → Forall P d → Forall P (set k v d).
Proof.
  intros Hv. induction 1 as [|[k0 v0] d HP Hd IH]; simpl.
  - by constructor.
  - case_decide; subst; constructor; auto.
Qed.

Lemma get_fmap {V W} (g : V → W) k (d : t V) :
  get k (prod_map id g <$> d) = g <$> get k d.
Proof.
  induction d as [|[k0 v0] d IH]; simpl; [done|].
  by case_decide.
Qed.

Lemma set_fmap {V W} (g : V → W) k v (d : t V) :
  prod_map id g <$> set k v d = set k (g v) (prod_map id g <$> d).
Proof.
  induction d as [|[k0 v0] d IH]; [done|].
  cbn [set]. rewrite fmap_cons. unfold prod_map at 2. cbn [fst snd id set].
  destruct (decide (k0 = k)); rewrite fmap_cons; [done|]. by rewrite IH.
Qed.

Lemma keys_fmap {V W} (g : V → W) (d : t V) :
  keys (prod_map id g <$> d) = keys d.
Proof.
  unfold keys. rewrite <- list_fmap_compose. by apply list_fmap_ext; intros ? [? ?].
Qed.

End DictFacts.

(** ** Schema translation *)

Section translation.

Variables names types : list string.

Lemma translate_step_keys out widget k :
  k ∈ Dict.keys (translate_step names types out widget) ↔
  k ∈ Dict.keys out ∨
  (default "" (e_name widget) = k ∧ ¬ ignored names types widget).
Proof.
  unfold translate_step.
  destruct (decide (ignored names types widget)) as [Hi|Hi]; [tauto|].
  destruct (decide (default "" (e_name widget) ∈ Dict.keys out)) as [Hin|Hin].
  - split; [tauto | intros [?|[<- _]]; done].
  - unfold Dict.keys. rewrite fmap_app, elem_of_app. cbn [fmap list_fmap fst].
    rewrite list_elem_of_singleton.
    split; [intros [?|Hk]; [tauto | subst k; tauto] | intros [?|[<- _]]; tauto].
Qed.

Lemma translate_keys_from form : ∀ out k,
  k ∈ Dict.keys (foldl (translate_step names types) out form) ↔
  k ∈ Dict.keys out ∨
  ∃ widget, widget ∈ form ∧ default "" (e_name widget) = k
            ∧ ¬ ignored names types widget.
Proof.
  induction form as [|e form IH]; intros out k; simpl.
  - split; [auto | intros [?|(? & H & _)]; [done | by apply elem_of_nil in H]].
  - rewrite IH, translate_step_keys. split.
    + intros [[?|[? ?]]|(e' & ? & ? & ?)]; [by left | right; exists e | right; exists e'];
        split_and?; auto; by constructor.
    + intros [?|(e' & [->|?]%elem_of_cons & ? & ?)]; [auto | auto | right; eauto].
Qed.

Lemma translate_step_NoDup out widget :
  NoDup (Dict.keys out) → NoDup (Dict.keys (translate_step names types out widget)).
Proof.
  intros Hnd. unfold translate_step.
  destruct (decide (ignored names types widget)); [done|].
  destruct (decide (default "" (e_name widget) ∈ Dict.keys out)) as [Hin|Hin]; [done|].
  unfold Dict.keys in *. rewrite fmap_app. apply NoDup_app. split_and?; [done| |].
  - intros x Hx [->| H]%elem_of_cons; [done | by apply elem_of_nil in H].
  - apply NoDup_singleton.
Qed.

Lemma translate_NoDup_from form : ∀ out,
  NoDup (Dict.keys out) →
  NoDup (Dict.keys (foldl (translate_step names types) out form)).
Proof.
  induction form as [|e form IH]; intros out Hnd; simpl; [done|].
  by apply IH, translate_step_NoDup.
Qed.

End translation.

(** A name is a key of the translated mapping exactly when some entry of
    that name escapes both ignore lists. *)
Lemma translated_keys form k :
  k ∈ Dict.keys (_form_json_to_widgets_dict form) ↔
  ∃ widget, widget ∈ form ∧ default "" (e_name widget) = k
            ∧ ¬ ignored ignore_widget_names ignore_widget_types widget.
Proof.
  unfold _form_json_to_widgets_dict, _form_json_to_widgets_dict_with.
  rewrite translate_keys_from. split; [|auto].
  intros [H|?]; [by apply elem_of_nil in H | done].
Qed.

Lemma translated_NoDup form : NoDup (Dict.keys (_form_json_to_widgets_dict form)).
Proof. apply translate_NoDup_from. constructor. Qed.

(** *** Grouped details *)

Lemma merge_group_columns labels values columns group :
  (merge_group (labels, values, columns) group).2
  = Z.max columns (default 1%Z (g_columns group)).
Proof. done. Qed.

(** The column count of flattened groups is the largest declared count, and
    at least 1. *)
Lemma flatten_groups_columns groups :
  (flatten_groups groups).2
  = foldr Z.max 1%Z ((λ g, default 1%Z (g_columns g)) <$> groups).
Proof.
  unfold flatten_groups.
  assert (∀ acc, (1 ≤ acc.2)%Z → (foldl merge_group acc groups).2
    = Z.max acc.2 (foldr Z.max 1%Z ((λ g, default 1%Z (g_columns g)) <$> groups)))
    as Hgen.
  { induction groups as [|g groups IH]; intros [[labels values] columns]; simpl.
    - lia.
    - intros Hc. rewrite IH; simpl; [|lia]. symmetry. apply Z.max_assoc. }
  rewrite Hgen; simpl; [|lia]. apply Z.max_r.
  clear Hgen. induction groups as [|g groups IH]; [simpl; lia|].
  rewrite fmap_cons. cbn [foldr]. lia.
Qed.

(** Values already merged from earlier groups are not added again, and when
    no single group repeats a value the merged list has no duplicates. *)
Lemma flatten_groups_NoDup groups :
  Forall (λ g, NoDup (default [] (g_values g))) groups →
  NoDup (flatten_groups groups).1.2.
Proof.
  unfold flatten_groups.
  assert (∀ acc, NoDup acc.1.2 →
    Forall (λ g, NoDup (default [] (g_values g))) groups →
    NoDup (foldl merge_group acc groups).1.2) as Hgen.
  { induction groups as [|g groups IH]; intros [[labels values] columns]; simpl;
      [done|].
    intros Hnd Hall. apply Forall_cons in Hall as [Hg Hall].
    apply IH; [|done]. simpl. apply NoDup_app. split_and?; [done| |].
    - intros x Hx Hf. by apply list_elem_of_filter in Hf as [? _].
    - by apply NoDup_filter. }
  intros. apply Hgen; [constructor | done].
Qed.

Lemma flatten_groups_values_elem groups v :
  v ∈ (flatten_groups groups).1.2 ↔
  ∃ g, g ∈ groups ∧ v ∈ default [] (g_values g).
Proof.
  unfold flatten_groups.
  assert (∀ acc, v ∈ (foldl merge_group acc groups).1.2 ↔
    v ∈ acc.1.2 ∨ ∃ g, g ∈ groups ∧ v ∈ default [] (g_values g)) as Hgen.
  { induction groups as [|g groups IH]; intros [[labels values] columns]; simpl.
    - split; [auto | intros [?|(? & H & _)]; [done | by apply elem_of_nil in H]].
    - rewrite IH. simpl. rewrite elem_of_app, list_elem_of_filter. split.
      + intros [[?|[? ?]]|(g' & ? & ?)]; [by left | right; exists g | right; exists g'];
          split; auto; by constructor.
      + intros [?|(g' & [->|?]%elem_of_cons & ?)]; [auto | | right; eauto].
        destruct (decide (v ∈ values)); auto. }
  rewrite Hgen. simpl. split; [|auto].
  intros [H|?]; [by apply elem_of_nil in H | done].
Qed.

(** ** Buttons *)

Lemma bare_idemp tb : bare (bare tb) = bare tb.
Proof. done. Qed.

Lemma bare_set_display d tb : bare (tb_set_display d tb) = bare tb.
Proof. done. Qed.

Lemma hide_all_bare children : bare <$> hide_all children = bare <$> children.
Proof.
  unfold hide_all. rewrite <- list_fmap_compose. by apply list_fmap_ext.
Qed.

Lemma show_legal_bare children : ∀ opts values,
  bare <$> show_legal children opts values = bare <$> children.
Proof.
  induction children as [|tb children IH]; intros [|opt opts] values; try done.
  cbn [show_legal]. rewrite !fmap_cons, IH. by destruct (decide (opt ∈ values)).
Qed.

Lemma on_count_bare children : on_count (bare <$> children) = on_count children.
Proof.
  unfold on_count. induction children as [|tb children IH]; [done|].
  rewrite fmap_cons, !filter_cons. cbn [bare tb_value].
  destruct (decide (tb_value tb = true)); cbn [length]; by rewrite IH.
Qed.

Lemma get_value_checkbox_bare children opts :
  get_value_checkbox (bare <$> children) opts = get_value_checkbox children opts.
Proof.
  unfold get_value_checkbox. revert opts.
  induction children as [|tb children IH]; intros [|opt opts]; try done.
  cbn [zip zip_with fmap list_fmap]. rewrite !filter_cons. cbn [snd bare tb_value].
  destruct (decide (tb_value tb = true)); [|apply IH].
  rewrite !fmap_cons. cbn [fst]. f_equal. apply IH.
Qed.

Lemma get_value_radio_bare children : ∀ opts,
  get_value_radio (bare <$> children) opts = get_value_radio children opts.
Proof.
  induction children as [|tb children IH]; intros [|opt opts]; try done.
  rewrite fmap_cons. cbn [get_value_radio bare tb_value].
  destruct (tb_value tb); [done | apply IH].
Qed.

Lemma _get_value_bare widget : _get_value (bare_widget widget) = _get_value widget.
Proof.
  destruct widget as [? ? children [] opts| |]; cbn [bare_widget _get_value];
    by rewrite ?get_value_checkbox_bare, ?get_value_radio_bare.
Qed.

Lemma selected_bare widget_defs : selected (bare_defs widget_defs) = selected widget_defs.
Proof.
  unfold selected, bare_defs. generalize (∅ : gmap string (list string)).
  induction widget_defs as [|[key widget] d IH]; intros req; [done|].
  rewrite fmap_cons. cbn [foldl prod_map fst snd id].
  rewrite _get_value_bare. apply IH.
Qed.

Lemma read_controls_bare widget_defs selection :
  read_controls (bare_defs widget_defs) selection = read_controls widget_defs selection.
Proof.
  unfold read_controls, bare_defs. revert selection.
  induction widget_defs as [|[key widget] d IH]; intros sel; [done|].
  rewrite fmap_cons. cbn [foldl prod_map fst snd id].
  rewrite _get_value_bare. apply IH.
Qed.

Lemma length_show_legal children : ∀ opts values,
  length (show_legal children opts values) = length children.
Proof.
  induction children as [|tb children IH]; intros [|opt opts] values; try done.
  cbn [show_legal length]. by rewrite IH.
Qed.

Lemma length_hide_all children : length (hide_all children) = length children.
Proof. unfold hide_all. apply length_fmap. Qed.

(** After the two loops of the update a button is shown exactly when its
    option is legal; its value and description are as before. *)
Lemma show_hide_lookup children : ∀ opts values i tb opt,
  children !! i = Some tb → opts !! i = Some opt →
  show_legal (hide_all children) opts values !! i
  = Some (tb_set_display (if decide (opt ∈ values) then "" else "none") tb).
Proof.
  induction children as [|tb0 children IH]; intros [|opt0 opts] values [|i] tb opt;
    try done.
  - intros [= ->] [= ->]. unfold hide_all. rewrite fmap_cons. cbn [show_legal lookup list_lookup].
    by destruct (decide (opt ∈ values)).
  - intros Hc Ho. unfold hide_all. rewrite fmap_cons. cbn [show_legal].
    rewrite lookup_cons. by apply IH.
Qed.

Lemma on_count_show_hide children opts values :
  on_count (show_legal (hide_all children) opts values) = on_count children.
Proof.
  rewrite <- on_count_bare, show_legal_bare, hide_all_bare. apply on_count_bare.
Qed.

(** ** The monad *)

Lemma bind_run {A B} (m : M A) (f : A → M B) w :
  (m ≫= f) w = match m w with Ok a w' => f a w' | Raised e w' => Raised e w' end.
Proof. done. Qed.

Lemma bind_Ok {A B} (m : M A) (f : A → M B) w a w' :
  m w = Ok a w' → (m ≫= f) w = f a w'.
Proof. intros H. by rewrite bind_run, H. Qed.

Lemma bind_Raised {A B} (m : M A) (f : A → M B) w e w' :
  m w = Raised e w' → (m ≫= f) w = Raised e w'.
Proof. intros H. by rewrite bind_run, H. Qed.

Lemma for_each_app {A} (f : A → M unit) l1 l2 w :
  for_each f (l1 ++ l2) w = (for_each f l1;; for_each f l2) w.
Proof.
  revert w. induction l1 as [|x l1 IH]; intros w; [done|].
  cbn [app for_each]. rewrite !bind_run. destruct (f x w) as [[] w'|e w']; [|done].
  rewrite IH. by rewrite bind_run.
Qed.

Lemma set_widget_defs_ext f g w :
  f (widget_defs w) = g (widget_defs w) → set_widget_defs f w = set_widget_defs g w.
Proof. unfold set_widget_defs. by intros ->. Qed.

Lemma set_widget_defs_id f w : f (widget_defs w) = widget_defs w → set_widget_defs f w = w.
Proof. destruct w. unfold set_widget_defs. simpl. by intros ->. Qed.

(** ** The update of one control *)

Lemma rendered_lookup w key widget :
  rendered w → Dict.get key (widget_defs w) = Some widget →
  control_ok (form_widgets w) (key, widget).
Proof.
  intros [_ Hall] Hget. rewrite Forall_forall in Hall.
  by apply Hall, DictFacts.get_Some_elem.
Qed.

Lemma control_ok_relayout fws key title columns children kind opts values :
  control_ok fws (key, VBox title columns children kind opts) →
  control_ok fws
    (key, VBox title columns (show_legal (hide_all children) opts values) kind opts).
Proof.
  intros (t & c & ch & k & o & f & Heq & Hlen & Hget & Hval & Hkind & Hrad).
  simpl in Heq. injection Heq as <- <- <- <- <-.
  exists title, columns, (show_legal (hide_all children) opts values), kind, opts, f.
  split_and?; try done.
  - by rewrite length_show_legal, length_hide_all.
  - by rewrite on_count_show_hide.
Qed.

Lemma rendered_store w key widget :
  rendered w → control_ok (form_widgets w) (key, widget) →
  rendered (set_widget_defs (Dict.set key widget) w).
Proof.
  intros [Hnd Hall] Hok. split; cbn [widget_defs form_widgets set_widget_defs].
  - rewrite DictFacts.keys_set. destruct (decide (key ∈ Dict.keys (widget_defs w))); [done|].
    apply NoDup_app. split_and?; [done | | apply NoDup_singleton].
    intros x Hx [->|H]%elem_of_cons; [done | by apply elem_of_nil in H].
  - by apply DictFacts.Forall_set.
Qed.

Lemma rendered_relayout item w :
  rendered w → rendered (set_widget_defs (relayout item) w).
Proof.
  intros Hr. unfold relayout.
  destruct (Dict.get item.1 (widget_defs w)) as [[title columns children kind opts| |]|] eqn:Hget.
  - rewrite (set_widget_defs_ext _ (Dict.set item.1
      (VBox title columns (show_legal (hide_all children) opts item.2) kind opts)))
      by by rewrite Hget.
    apply rendered_store; [done|].
    by apply control_ok_relayout, rendered_lookup.
  - rewrite set_widget_defs_id; [done | by rewrite Hget].
  - rewrite set_widget_defs_id; [done | by rewrite Hget].
  - rewrite set_widget_defs_id; [done | by rewrite Hget].
Qed.

Lemma update_control_rendered item w :
  rendered w → update_control item w = Ok tt (set_widget_defs (relayout item) w).
Proof.
  intros Hr. destruct item as [key values]. unfold update_control, relayout.
  rewrite bind_run. cbn [get_world fst snd].
  destruct (Dict.get key (widget_defs w)) as [widget|] eqn:Hget.
  - destruct (rendered_lookup _ _ _ Hr Hget)
      as (t & c & ch & k & o & f & Heq & Hlen & Hf & Hval & Hkind & Hrad).
    simpl in Heq, Hf. subst widget. rewrite Hf.
    unfold store, modify. rewrite bind_run. subst o.
    f_equal. unfold set_widget_defs. cbn -[Dict.set show_legal hide_all]. f_equal.
    rewrite Hget. apply DictFacts.set_set.
  - cbn [mret M_ret]. f_equal. symmetry. apply set_widget_defs_id. by rewrite Hget.
Qed.

Lemma for_each_update_control items : ∀ w,
  rendered w →
  for_each update_control items w = Ok tt (set_widget_defs (relayout_all items) w).
Proof.
  induction items as [|item items IH]; intros w Hr.
  - cbn [for_each mret M_ret]. f_equal. symmetry. by apply set_widget_defs_id.
  - cbn [for_each]. rewrite bind_run, update_control_rendered by done.
    rewrite IH by by apply rendered_relayout. done.
Qed.

Lemma rendered_relayout_all items : ∀ w,
  rendered w → rendered (set_widget_defs (relayout_all items) w).
Proof.
  induction items as [|item items IH]; intros w Hr.
  - rewrite set_widget_defs_id; done.
  - apply (IH _ (rendered_relayout item w Hr)).
Qed.

Lemma relayout_bare item widget_defs :
  bare_defs (relayout item widget_defs) = bare_defs widget_defs.
Proof.
  unfold relayout, bare_defs.
  destruct (Dict.get item.1 widget_defs) as [[title columns children kind opts| |]|] eqn:Hget;
    try done.
  rewrite DictFacts.set_fmap. apply DictFacts.set_get.
  rewrite DictFacts.get_fmap, Hget. cbn [fmap option_fmap option_map bare_widget].
  by rewrite show_legal_bare, hide_all_bare.
Qed.

Lemma relayout_all_bare items : ∀ widget_defs,
  bare_defs (relayout_all items widget_defs) = bare_defs widget_defs.
Proof.
  unfold relayout_all.
  induction items as [|item items IH]; intros d; [done|].
  cbn [foldl]. by rewrite IH, relayout_bare.
Qed.

(** ** [on_change] on a rendered form *)

Lemma on_change_rendered collection w :
  rendered w → on_change collection w = Ok tt (propagate collection w).
Proof.
  intros Hr. unfold on_change.
  rewrite bind_run. cbn [modify]. rewrite bind_run. cbn [get_world].
  rewrite bind_run. cbn [modify]. rewrite bind_run, for_each_update_control by done.
  by destruct w.
Qed.

Lemma propagate_bare collection w :
  bare_defs (widget_defs (propagate collection w)) = bare_defs (widget_defs w).
Proof. apply relayout_all_bare. Qed.

Lemma propagate_request collection w :
  request (propagate collection w) = selected (widget_defs w).
Proof.
  cbn [propagate request]. by rewrite <- selected_bare, relayout_all_bare, selected_bare.
Qed.

Lemma rendered_propagate collection w :
  rendered w → rendered (propagate collection w).
Proof.
  intros Hr.
  destruct (rendered_relayout_all (map_to_list (response collection w)) w Hr) as [? ?].
  by split.
Qed.

(** ** Counting the buttons that are on *)

Lemma on_count_cons tb children :
  on_count (tb :: children) = (if tb_value tb then 1 else 0) + on_count children.
Proof.
  unfold on_count. rewrite filter_cons.
  destruct (decide (tb_value tb = true)) as [->|Hoff]; [done|].
  by destruct (tb_value tb).
Qed.

Lemma on_count_none children :
  (∀ i tb, children !! i = Some tb → tb_value tb = false) → on_count children = 0.
Proof.
  induction children as [|tb children IH]; intros Hoff; [done|].
  rewrite on_count_cons, (Hoff 0 tb eq_refl), IH; [done|].
  intros i tb' Hi. by apply (Hoff (S i)).
Qed.

Lemma on_count_unique children :
  (∀ i j tb tb', children !! i = Some tb → children !! j = Some tb' →
                 tb_value tb = true → tb_value tb' = true → i = j) →
  on_count children ≤ 1.
Proof.
  induction children as [|tb children IH]; intros Huniq; [unfold on_count; simpl; lia|].
  rewrite on_count_cons. destruct (tb_value tb) eqn:Hv.
  - rewrite on_count_none; [lia|].
    intros i tb' Hi. destruct (tb_value tb') eqn:Hv'; [|done].
    by specialize (Huniq 0 (S i) tb tb' eq_refl Hi Hv Hv').
  - simpl. apply IH. intros i j tb1 tb2 Hi Hj H1 H2.
    specialize (Huniq (S i) (S j) tb1 tb2 Hi Hj H1 H2). lia.
Qed.

Lemma on_count_zero children : ∀ i tb,
  on_count children = 0 → children !! i = Some tb → tb_value tb = false.
Proof.
  induction children as [|tb0 children IH]; intros i tb; [done|].
  rewrite on_count_cons. intros H0 Hi.
  destruct i as [|i]; simpl in Hi; simplify_eq.
  - destruct (tb_value tb); [cbv iota in H0; lia | done].
  - apply (IH i); [|done]. destruct (tb_value tb0); cbv iota in H0; lia.
Qed.

Lemma on_count_le_1 children : ∀ i j tb tb',
  on_count children ≤ 1 →
  children !! i = Some tb → children !! j = Some tb' →
  tb_value tb = true → tb_value tb' = true → i = j.
Proof.
  induction children as [|tb0 children IH]; intros i j tb tb'; [done|].
  rewrite on_count_cons. intros Hle Hi Hj Hv Hv'.
  destruct i as [|i], j as [|j]; simpl in Hi, Hj; simplify_eq.
  - done.
  - rewrite Hv in Hle.
    rewrite (on_count_zero children j tb') in Hv'; [done | lia | done].
  - rewrite Hv' in Hle.
    rewrite (on_count_zero children i tb) in Hv; [done | lia | done].
  - f_equal. apply (IH i j tb tb'); try done. destruct (tb_value tb0); cbv iota in Hle; lia.
Qed.

Lemma on_count_insert_off children : ∀ i tb,
  on_count (<[i := tb_set_value false tb]> children) ≤ on_count children.
Proof.
  induction children as [|tb0 children IH]; intros [|i] tb; cbn [insert list_insert];
    rewrite ?on_count_cons; [done|done| |].
  - cbn [tb_set_value tb_value]. destruct (tb_value tb0); cbv iota; lia.
  - apply Nat.add_le_mono_l, IH.
Qed.

Lemma length_siblings_off owner tb_list :
  length (siblings_off owner tb_list) = length tb_list.
Proof. apply length_imap. Qed.

Lemma siblings_off_lookup owner tb_list j :
  siblings_off owner tb_list !! j
  = (λ tb, if decide (j = owner) then tb else tb_set_value false tb) <$> tb_list !! j.
Proof. unfold siblings_off. apply list_lookup_imap. Qed.

(** After the loop of [on_radio_click] no button but the owner is on. *)
Lemma on_count_siblings_off owner tb_list :
  on_count (siblings_off owner tb_list) ≤ 1.
Proof.
  apply on_count_unique. intros i j tb tb'.
  rewrite !siblings_off_lookup. intros Hi Hj Hv Hv'.
  destruct (tb_list !! i) as [t1|]; [|done].
  destruct (tb_list !! j) as [t2|]; [|done].
  simpl in Hi, Hj. simplify_eq.
  destruct (decide (i = owner)), (decide (j = owner)); simpl in *; congruence.
Qed.

Lemma observers_length kind new owner tb_list :
  length (observers kind new owner tb_list).1 = length tb_list.
Proof.
  destruct kind, new; cbn [observers on_radio_click fst]; try done.
  apply length_siblings_off.
Qed.

(** ** Clicks *)

Lemma keys_bare_defs widget_defs : Dict.keys (bare_defs widget_defs) = Dict.keys widget_defs.
Proof. apply DictFacts.keys_fmap. Qed.

Lemma keys_of_bare d d' : bare_defs d' = bare_defs d → Dict.keys d' = Dict.keys d.
Proof. intros H. by rewrite <- (keys_bare_defs d'), H, keys_bare_defs. Qed.

Lemma same_form_refl w : same_form w w.
Proof. by split_and!. Qed.

Lemma same_form_trans w1 w2 w3 : same_form w1 w2 → same_form w2 w3 → same_form w1 w3.
Proof. intros (?&?&?) (?&?&?). split_and!; congruence. Qed.

Lemma same_form_propagate collection w : same_form w (propagate collection w).
Proof.
  split_and!; [done | | done]. apply keys_of_bare, propagate_bare.
Qed.

Lemma control_ok_observers fws key title columns children kind opts i tb :
  control_ok fws (key, VBox title columns children kind opts) →
  children !! i = Some tb →
  control_ok fws
    (key, VBox title columns
            (observers kind (negb (tb_value tb)) i
               (<[i := tb_set_value (negb (tb_value tb)) tb]> children)).1
            kind opts).
Proof.
  intros (t & c & ch & k & o & f & Heq & Hlen & Hget & Hval & Hkind & Hrad) Hi.
  simpl in Heq. injection Heq as <- <- <- <- <-.
  eexists _, _, _, _, _, f. split_and!; try done.
  - by rewrite observers_length, length_insert.
  - intros ->. cbn [observers on_radio_click].
    destruct (tb_value tb); cbn [negb fst].
    + etrans; [apply on_count_insert_off | by apply Hrad].
    + apply on_count_siblings_off.
Qed.

Lemma toggle_rendered collection key i w title columns children kind opts tb :
  rendered w →
  Dict.get key (widget_defs w) = Some (VBox title columns children kind opts) →
  children !! i = Some tb →
  let v := negb (tb_value tb) in
  let r := observers kind v i (<[i := tb_set_value v tb]> children) in
  let w1 := set_widget_defs (Dict.set key (VBox title columns r.1 kind opts)) w in
  toggle collection (key, i) w = Ok tt (if r.2 then propagate collection w1 else w1)
  ∧ rendered w1.
Proof.
  intros Hr Hget Hi v r w1.
  assert (rendered w1) as Hr1.
  { apply rendered_store; [done|].
    eapply control_ok_observers; [|done]. by apply rendered_lookup. }
  split; [|done].
  unfold toggle. rewrite bind_run. cbn [get_world]. rewrite Hget, Hi.
  fold v. fold r. destruct r as [children' changed] eqn:Er.
  rewrite bind_run. unfold store. cbn [modify fst snd]. fold w1.
  destruct changed; [|done]. by apply on_change_rendered.
Qed.

Lemma toggle_absent collection key i w :
  rendered w →
  (∀ title columns children kind opts,
     Dict.get key (widget_defs w) = Some (VBox title columns children kind opts) →
     children !! i = None) →
  toggle collection (key, i) w = Ok tt w.
Proof.
  intros Hr Hno. unfold toggle. rewrite bind_run. cbn [get_world].
  destruct (Dict.get key (widget_defs w)) as [[t c ch k o| |]|] eqn:Hget; try done.
  by rewrite (Hno _ _ _ _ _ eq_refl).
Qed.

Lemma toggle_preserves collection event w :
  rendered w →
  ∃ w', toggle collection event w = Ok tt w' ∧ rendered w' ∧ same_form w w'.
Proof.
  intros Hr. destruct event as [key i].
  destruct (Dict.get key (widget_defs w)) as [widget|] eqn:Hget.
  - destruct (rendered_lookup _ _ _ Hr Hget) as (t & c & ch & k & o & f & Heq & _).
    simpl in Heq. subst widget.
    destruct (ch !! i) as [tb|] eqn:Hi.
    + destruct (toggle_rendered collection key i w t c ch k o tb Hr Hget Hi) as [Ht Hr1].
      cbv zeta in Ht, Hr1.
      set (w1 := set_widget_defs _ w) in *.
      assert (same_form w w1) as Hs1.
      { split_and!; [done | | done]. subst w1. cbn [widget_defs set_widget_defs].
        apply DictFacts.keys_set_in, DictFacts.get_is_Some. by rewrite Hget. }
      eexists. split; [apply Ht|].
      destruct (observers _ _ _ _).2.
      * split; [by apply rendered_propagate|].
        eapply same_form_trans; [done | apply same_form_propagate].
      * done.
    + exists w. split_and!; [|done|apply same_form_refl].
      apply toggle_absent; [done|]. intros ????? Hget'. congruence.
  - exists w. split_and!; [|done|apply same_form_refl].
    apply toggle_absent; [done|]. intros ????? Hget'. congruence.
Qed.

Lemma clicks_preserves collection events : ∀ w,
  rendered w →
  ∃ w', clicks collection events w = Ok tt w' ∧ rendered w' ∧ same_form w w'.
Proof.
  unfold clicks. induction events as [|event events IH]; intros w Hr.
  - exists w. split_and!; [done | done | apply same_form_refl].
  - destruct (toggle_preserves collection event w Hr) as (w1 & Ht & Hr1 & Hs1).
    destruct (IH w1 Hr1) as (w2 & Hc & Hr2 & Hs2).
    exists w2. split_and!; [|done|by eapply same_form_trans].
    cbn [for_each]. by rewrite (bind_Ok _ _ _ _ _ Ht).
Qed.

(** ** The default loop *)

Lemma layout_only_refl w : layout_only w w.
Proof. by split_and!. Qed.

Lemma layout_only_trans w1 w2 w3 :
  layout_only w1 w2 → layout_only w2 w3 → layout_only w1 w3.
Proof. intros (?&?&?) (?&?&?). split_and!; congruence. Qed.

Lemma layout_only_propagate collection w : layout_only w (propagate collection w).
Proof. split_and!; [done | done | apply propagate_bare]. Qed.

Lemma assign_rendered collection kind i v buttons w :
  rendered w →
  ∃ w', assign collection kind i v buttons w = Ok (assign_pure kind i v buttons) w'
        ∧ rendered w' ∧ layout_only w w'.
Proof.
  intros Hr. unfold assign, assign_pure.
  destruct (buttons !! i) as [tb|];
    [|exists w; split_and!; [done | done | apply layout_only_refl]].
  destruct (decide (tb_value tb = v));
    [exists w; split_and!; [done | done | apply layout_only_refl]|].
  destruct (observers kind v i (<[i:=tb_set_value v tb]> buttons)) as [bs changed].
  destruct changed.
  - exists (propagate collection w). split_and!.
    + rewrite bind_run, on_change_rendered by done. done.
    + by apply rendered_propagate.
    + apply layout_only_propagate.
  - exists w. split_and!; [done | done | apply layout_only_refl].
Qed.

Lemma set_defaults_rendered collection kind default_values options :
  ∀ i buttons w,
  rendered w →
  ∃ w', set_defaults collection kind default_values i options buttons w
        = Ok (defaults_pure kind default_values i options buttons) w'
        ∧ rendered w' ∧ layout_only w w'.
Proof.
  induction options as [|opt options IH]; intros i buttons w Hr.
  - exists w. split_and!; [done | done | apply layout_only_refl].
  - cbn [set_defaults defaults_pure].
    destruct (assign_rendered collection kind i (bool_decide (opt ∈ default_values))
                buttons w Hr) as (w1 & Ha & Hr1 & Hl1).
    destruct (IH (S i) (assign_pure kind i (bool_decide (opt ∈ default_values)) buttons)
                w1 Hr1) as (w2 & Hs & Hr2 & Hl2).
    exists w2. split_and!; [|done|by eapply layout_only_trans].
    by rewrite (bind_Ok _ _ _ _ _ Ha).
Qed.

Lemma length_assign_pure kind i v buttons :
  length (assign_pure kind i v buttons) = length buttons.
Proof.
  unfold assign_pure. destruct (buttons !! i) as [tb|]; [|done].
  destruct (decide (tb_value tb = v)); [done|].
  by rewrite observers_length, length_insert.
Qed.

Lemma length_defaults_pure kind default_values options : ∀ i buttons,
  length (defaults_pure kind default_values i options buttons) = length buttons.
Proof.
  induction options as [|opt options IH]; intros i buttons; [done|].
  cbn [defaults_pure]. by rewrite IH, length_assign_pure.
Qed.

Lemma defaults_pure_app kind default_values pre rest : ∀ i buttons,
  defaults_pure kind default_values i (pre ++ rest) buttons
  = defaults_pure kind default_values (i + length pre) rest
      (defaults_pure kind default_values i pre buttons).
Proof.
  induction pre as [|opt pre IH]; intros i buttons.
  - cbn [app defaults_pure length]. by rewrite Nat.add_0_r.
  - cbn [app defaults_pure length]. rewrite IH. f_equal. lia.
Qed.

Lemma initially_on_lt kind default_values options p :
  initially_on kind default_values options p → p < length options.
Proof. intros (opt & Hp & _). by apply lookup_lt_Some in Hp. Qed.

Lemma initially_on_snoc kind default_values pre opt p :
  initially_on kind default_values (pre ++ [opt]) p ↔
  (initially_on kind default_values pre p ∧ (kind = Radio → opt ∉ default_values))
  ∨ (p = length pre ∧ opt ∈ default_values).
Proof.
  unfold initially_on. split.
  - intros (o & Hp & Ho & Hlater).
    destruct (decide (p < length pre)) as [Hlt|Hge].
    + left. rewrite lookup_app_l in Hp by done.
      rewrite drop_app_le in Hlater by lia.
      split; [exists o; split_and!; [done | done |]|].
      * intros Hk. by apply Hlater, Forall_app in Hk as [? _].
      * intros Hk. apply Hlater, Forall_app in Hk as [_ Hopt].
        by rewrite Forall_singleton in Hopt.
    + right. rewrite lookup_app_r in Hp by lia.
      destruct (p - length pre) as [|n] eqn:En; [|done].
      simpl in Hp. injection Hp as ->. split; [lia | done].
  - intros [[(o & Hp & Ho & Hlater) Hopt]|[-> Hopt]].
    + exists o. split_and!; [|done|].
      * by apply lookup_app_l_Some.
      * intros Hk. rewrite drop_app_le by (apply lookup_lt_Some in Hp; lia).
        apply Forall_app. split; [by apply Hlater|].
        apply Forall_singleton. by apply Hopt.
    + exists opt. split_and!; [|done|].
      * by rewrite list_lookup_middle.
      * intros _. rewrite drop_ge; [constructor|]. rewrite length_app. simpl. lia.
Qed.

(** The default loop, run on fresh buttons, leaves a button on exactly when
    [initially_on] says so. *)
Lemma defaults_pure_spec kind default_values buttons :
  (∀ p tb, buttons !! p = Some tb → tb_value tb = false) →
  ∀ options, length options ≤ length buttons →
  ∀ p tb, defaults_pure kind default_values 0 options buttons !! p = Some tb →
          (tb_value tb = true ↔ initially_on kind default_values options p).
Proof.
  intros Hoff options. induction options as [|opt pre IH] using rev_ind;
    intros Hlen p tb.
  - cbn [defaults_pure]. intros Hp. rewrite (Hoff p tb Hp).
    split; [done | intros (o & Ho & _); done].
  - rewrite length_app in Hlen. cbn [length] in Hlen.
    rewrite defaults_pure_app. cbn [defaults_pure Nat.add].
    set (bs := defaults_pure kind default_values 0 pre buttons) in *.
    specialize (IH ltac:(lia)).
    assert (length bs = length buttons) as Hbs by apply length_defaults_pure.
    destruct (lookup_lt_is_Some_2 bs (length pre) ltac:(lia)) as [tb0 Htb0].
    assert (tb_value tb0 = false) as Hv0.
    { destruct (tb_value tb0) eqn:E; [|done].
      apply (IH _ _ Htb0), initially_on_lt in E. lia. }
    rewrite initially_on_snoc.
    unfold assign_pure. rewrite Htb0, Hv0.
    destruct (decide (false = bool_decide (opt ∈ default_values))) as [Hv|Hv].
    + symmetry in Hv. apply bool_decide_eq_false in Hv.
      intros Hp. rewrite (IH _ _ Hp). split; [intros ?; by left|].
      intros [[? _]|[_ ?]]; done.
    + assert (opt ∈ default_values) as Hopt.
      { destruct (decide (opt ∈ default_values)) as [|Hn]; [done|].
        by rewrite (bool_decide_eq_false_2 _ Hn) in Hv. }
      rewrite (bool_decide_eq_true_2 _ Hopt).
      destruct kind; cbn [observers on_radio_click fst].
      * destruct (decide (p = length pre)) as [->|Hne].
        -- rewrite list_lookup_insert_eq by lia. intros [= <-].
           split; [intros _; by right | done].
        -- rewrite list_lookup_insert_ne by done. intros Hp.
           rewrite (IH _ _ Hp). split; [intros ?; by left|].
           intros [[? _]|[? _]]; done.
      * rewrite siblings_off_lookup.
        destruct (decide (p = length pre)) as [->|Hne].
        -- rewrite list_lookup_insert_eq by lia. cbn [fmap option_fmap option_map].
           intros [= <-]. split; [intros _; by right | done].
        -- rewrite list_lookup_insert_ne by done.
           destruct (bs !! p) as [tb'|]; [|done]. cbn [fmap option_fmap option_map].
           intros [= <-]. cbn [tb_set_value tb_value].
           split; [done|]. intros [[_ Hn]|[? _]]; [|done]. by destruct Hn.
Qed.

Lemma new_buttons_off labels options p tb :
  new_buttons labels options !! p = Some tb → tb_value tb = false.
Proof.
  unfold new_buttons. rewrite list_lookup_fmap.
  destruct (options !! p); [|done]. by intros [= <-].
Qed.

Lemma length_new_buttons labels options :
  length (new_buttons labels options) = length options.
Proof. apply length_fmap. Qed.

(** In a radio box that has just been built at most one button is on. *)
Lemma on_count_defaults_radio default_values labels options :
  on_count (defaults_pure Radio default_values 0 options (new_buttons labels options)) ≤ 1.
Proof.
  apply on_count_unique. intros i j tb tb' Hi Hj Hv Hv'.
  pose proof (defaults_pure_spec Radio default_values (new_buttons labels options)
                (new_buttons_off labels options) options
                ltac:(by rewrite length_new_buttons)) as Hspec.
  apply (Hspec _ _ Hi) in Hv as (oi & Hoi & Hdi & Hli).
  apply (Hspec _ _ Hj) in Hv' as (oj & Hoj & Hdj & Hlj).
  specialize (Hli eq_refl). specialize (Hlj eq_refl).
  rewrite Forall_forall in Hli, Hlj.
  destruct (Nat.lt_trichotomy i j) as [Hlt|[->|Hlt]]; [|done|].
  - exfalso. apply (Hli oj); [|done].
    apply list_elem_of_lookup. exists (j - S i). rewrite lookup_drop.
    by replace (S i + (j - S i)) with j by lia.
  - exfalso. apply (Hlj oi); [|done].
    apply list_elem_of_lookup. exists (i - S j). rewrite lookup_drop.
    by replace (S j + (i - S j)) with i by lia.
Qed.

(** ** Building one control *)

Lemma untitled_get fws fws0 key f :
  untitled fws = untitled fws0 → Dict.get key fws0 = Some f →
  ∃ f', Dict.get key fws = Some f' ∧ fw_set_title "" f' = fw_set_title "" f.
Proof.
  intros Hu Hget.
  assert (fw_set_title "" <$> Dict.get key fws = Some (fw_set_title "" f)) as H.
  { rewrite <- DictFacts.get_fmap. fold (untitled fws).
    rewrite Hu. unfold untitled. by rewrite DictFacts.get_fmap, Hget. }
  destruct (Dict.get key fws) as [f'|]; [|done].
  exists f'. split; [done|]. simpl in H. congruence.
Qed.

Lemma untitled_same_values f f' :
  fw_set_title "" f' = fw_set_title "" f →
  fw_values f' = fw_values f ∧ kind_of f' = kind_of f.
Proof.
  intros H. split.
  - by apply (f_equal fw_values) in H.
  - apply (f_equal fw_type) in H. unfold kind_of. simpl in H. by rewrite H.
Qed.

Lemma untitled_set fws key f f' title :
  Dict.get key fws = Some f' → fw_set_title "" f' = fw_set_title "" f →
  untitled (Dict.set key (fw_set_title title f) fws) = untitled fws.
Proof.
  intros Hget Heq. unfold untitled. rewrite DictFacts.set_fmap.
  apply DictFacts.set_get. rewrite DictFacts.get_fmap, Hget.
  cbn [fmap option_fmap option_map]. f_equal. rewrite Heq. reflexivity.
Qed.

Lemma control_ok_agree fws fws' kw :
  Dict.get kw.1 fws' = Dict.get kw.1 fws → control_ok fws kw → control_ok fws' kw.
Proof.
  intros Hsame (t & c & ch & k & o & f & ? & ? & Hget & ? & ? & ?).
  exists t, c, ch, k, o, f. rewrite Hsame. by split_and!.
Qed.

Lemma rendered_set_form_widgets w key f :
  key ∉ Dict.keys (widget_defs w) → rendered w →
  rendered (set_form_widgets (Dict.set key f) w).
Proof.
  intros Hkey [Hnd Hall]. split; [done|].
  cbn [widget_defs form_widgets set_form_widgets].
  rewrite Forall_forall in Hall. apply Forall_forall. intros [k wd] Hin.
  apply (control_ok_agree (form_widgets w)); [|by apply Hall].
  cbn [fst]. apply DictFacts.get_set_ne. intros ->. apply Hkey.
  unfold Dict.keys. apply list_elem_of_fmap. by exists (k, wd).
Qed.

Lemma kind_of_Some f kind :
  kind_of f = Some kind →
  (kind = Checkbox ∧ fw_type f = "checkbox")
  ∨ (kind = Radio ∧ fw_type f = "radio" ∧ fw_type f ≠ "checkbox").
Proof.
  unfold kind_of.
  destruct (decide (fw_type f = "checkbox")); [intros [= <-]; by left|].
  destruct (decide (fw_type f = "radio")); [intros [= <-]; by right|done].
Qed.

Lemma kind_of_None f :
  kind_of f = None ↔ fw_type f ≠ "checkbox" ∧ fw_type f ≠ "radio".
Proof.
  unfold kind_of.
  destruct (decide (fw_type f = "checkbox")); [split; [done | intros [? _]; done]|].
  destruct (decide (fw_type f = "radio")); [split; [done | intros [_ ?]; done]|done].
Qed.

Lemma build_control_rendered collection key f kind f' w :
  rendered w → kind_of f = Some kind →
  Dict.get key (form_widgets w) = Some f' →
  fw_set_title "" f' = fw_set_title "" f →
  key ∉ Dict.keys (widget_defs w) →
  ∃ w', build_control collection (key, f) w = Ok tt w'
        ∧ rendered w' ∧ output w' = output w
        ∧ untitled (form_widgets w') = untitled (form_widgets w)
        ∧ bare_defs (widget_defs w')
          = bare_defs (widget_defs w) ++ [(key, bare_widget (built_control f kind))].
Proof.
  intros Hr Hkind Hget Heq Hkey.
  destruct (untitled_same_values _ _ Heq) as [Hval Hk'].
  set (title := match kind with
                | Checkbox => fw_title f
                | Radio => fw_title f +:+ " (select one)"
                end).
  set (w1 := match kind with
             | Checkbox => w
             | Radio => set_form_widgets (Dict.set key (fw_set_title title f)) w
             end).
  assert (rendered w1) as Hr1.
  { subst w1. destruct kind; [done|]. by apply rendered_set_form_widgets. }
  assert (widget_defs w1 = widget_defs w ∧ output w1 = output w) as [Hd1 Ho1].
  { subst w1. by destruct kind. }
  assert (untitled (form_widgets w1) = untitled (form_widgets w)) as Hu1.
  { subst w1. destruct kind; [done|]. cbn [form_widgets set_form_widgets].
    by eapply untitled_set. }
  assert (∃ f1, Dict.get key (form_widgets w1) = Some f1
                ∧ fw_values f1 = fw_values f ∧ kind_of f1 = Some kind)
    as (f1 & Hget1 & Hval1 & Hkind1).
  { subst w1. destruct kind.
    - exists f'. by rewrite Hk'.
    - exists (fw_set_title title f). cbn [form_widgets set_form_widgets].
      by rewrite DictFacts.get_set_eq. }
  set (dv := default [] (fw_default f)).
  set (buttons := new_buttons (fw_labels f) (fw_values f)).
  destruct (set_defaults_rendered collection kind dv (fw_values f) 0 buttons w1 Hr1)
    as (w2 & Hs & Hr2 & Hfw2 & Hout2 & Hbare2).
  set (widget := VBox title (fw_columns f)
                   (defaults_pure kind dv 0 (fw_values f) buttons) kind (fw_values f)).
  assert (key ∉ Dict.keys (widget_defs w2)) as Hkey2.
  { rewrite (keys_of_bare _ _ Hbare2), Hd1. done. }
  exists (set_widget_defs (Dict.set key widget) w2). split_and!.
  - unfold build_control. rewrite bind_run.
    destruct (kind_of_Some _ _ Hkind) as [[-> Ht]|(-> & Ht & Hnt)].
    + rewrite decide_True by done. cbn [mret M_ret].
      etrans; [apply (bind_Ok _ _ _ _ _ Hs)|]. done.
    + rewrite decide_False, decide_True by done.
      rewrite bind_run. unfold modify at 1. cbn [mret M_ret].
      etrans; [apply (bind_Ok _ _ _ _ _ Hs)|]. done.
  - apply rendered_store; [done|].
    exists title, (fw_columns f), (defaults_pure kind dv 0 (fw_values f) buttons),
      kind, (fw_values f), f1.
    cbn [fst snd]. rewrite Hfw2. split_and!; try done.
    + rewrite length_defaults_pure. apply length_new_buttons.
    + intros ->. apply on_count_defaults_radio.
  - cbn [output set_widget_defs]. congruence.
  - cbn [form_widgets set_widget_defs]. congruence.
  - cbn [widget_defs set_widget_defs]. rewrite DictFacts.set_fresh by done.
    unfold bare_defs in *. rewrite fmap_app, Hbare2, Hd1. done.
Qed.

Lemma build_control_unsupported collection key f w :
  kind_of f = None →
  build_control collection (key, f) w
  = Raised (ValueError ("Unsupported widget type: " +:+ fw_type f)) w.
Proof.
  intros [? ?]%kind_of_None. unfold build_control.
  rewrite bind_run. by rewrite !decide_False by done.
Qed.

(** ** The loop of [_build_form] *)

Lemma bare_widget_idemp widget : bare_widget (bare_widget widget) = bare_widget widget.
Proof.
  destruct widget as [t c ch k o| |]; cbn [bare_widget]; [|done|done].
  f_equal. rewrite <- list_fmap_compose. by apply list_fmap_ext.
Qed.

Lemma built_from_bare kf kw :
  built_from kf (prod_map id bare_widget kw) ↔ built_from kf kw.
Proof.
  destruct kw as [k wd]. unfold built_from. cbn [prod_map fst snd id].
  by rewrite bare_widget_idemp.
Qed.

Lemma Forall2_built_bare fws d :
  Forall2 built_from fws (bare_defs d) ↔ Forall2 built_from fws d.
Proof.
  unfold bare_defs. rewrite Forall2_fmap_r.
  split; intros H; eapply Forall2_impl; try apply H; intros ? ?; apply built_from_bare.
Qed.

Lemma Forall2_built_keys fws d :
  Forall2 built_from fws d → Dict.keys d = Dict.keys fws.
Proof.
  unfold Dict.keys. induction 1 as [|kf kw fws d [Hk _] _ IH]; [done|].
  rewrite !fmap_cons. by rewrite Hk, IH.
Qed.

Lemma build_loop collection fws (Hnd : NoDup (Dict.keys fws)) :
  ∀ todo done_ later w,
  fws = done_ ++ todo ++ later →
  Forall (λ kf, is_Some (kind_of kf.2)) todo →
  building fws done_ w →
  ∃ w', for_each (build_control collection) todo w = Ok tt w'
        ∧ building fws (done_ ++ todo) w' ∧ output w' = output w.
Proof.
  induction todo as [|[key f] todo IH]; intros done_ later w Hfws Hgood Hb.
  - exists w. rewrite app_nil_r. by split_and!.
  - apply Forall_cons in Hgood as [[kind Hkind] Hgood]. simpl in Hkind.
    destruct Hb as (Hr & Hu & Hbuilt).
    assert (Dict.get key fws = Some f) as Hget.
    { apply DictFacts.elem_get; [done|]. rewrite Hfws.
      apply elem_of_app. right. left. }
    destruct (untitled_get _ _ _ _ Hu Hget) as (f' & Hget' & Heq).
    assert (key ∉ Dict.keys (widget_defs w)) as Hkey.
    { rewrite (Forall2_built_keys _ _ Hbuilt). rewrite Hfws in Hnd.
      unfold Dict.keys in Hnd. rewrite fmap_app in Hnd.
      apply NoDup_app in Hnd as (_ & Hdisj & _). intros Hin.
      apply (Hdisj key Hin). rewrite fmap_app, fmap_cons. left. }
    destruct (build_control_rendered collection key f kind f' w Hr Hkind Hget' Heq Hkey)
      as (w1 & Hrun & Hr1 & Ho1 & Hu1 & Hbare1).
    destruct (IH (done_ ++ [(key, f)]) later w1) as (w2 & Hrun2 & Hb2 & Ho2).
    + by rewrite <- app_assoc.
    + done.
    + split_and!; [done | congruence |].
      apply Forall2_built_bare. rewrite Hbare1. apply Forall2_app.
      * by apply Forall2_built_bare.
      * constructor; [|constructor]. split; [done|]. exists kind.
        cbn [fst snd]. by rewrite bare_widget_idemp.
    + exists w2. split_and!.
      * cbn [for_each]. by rewrite (bind_Ok _ _ _ _ _ Hrun).
      * by rewrite <- app_assoc in Hb2.
      * congruence.
Qed.

(** A list with an element satisfying a decidable property splits at the
    first such element. *)
Lemma first_such {A} (P : A → Prop) `{∀ x, Decision (P x)} l :
  Exists P l → ∃ l1 x l2, l = l1 ++ x :: l2 ∧ Forall (λ y, ¬ P y) l1 ∧ P x.
Proof.
  induction l as [|y l IH]; intros Hex; [by apply Exists_nil in Hex|].
  destruct (decide (P y)) as [Hy|Hy].
  - exists [], y, l. by split_and!.
  - apply Exists_cons in Hex as [?|Hex]; [done|].
    destruct (IH Hex) as (l1 & x & l2 & -> & Hl1 & Hx).
    exists (y :: l1), x, l2. split_and!; [done | by constructor | done].
Qed.

(** ** [_build_form] *)

Section build_form.

Variable get_collection : string → Collection.
Variable id : string.

Let collection := get_collection id.
Let fws := _form_json_to_widgets_dict (form collection).

Lemma build_form_unfold w :
  _build_form get_collection id w
  = match for_each (build_control collection) fws (loading fws w) with
    | Ok _ w1 => Ok tt (shown collection w1)
    | Raised e w1 => Raised e w1
    end.
Proof.
  unfold _build_form. repeat (rewrite bind_run; unfold modify at 1).
  cbn [output set_output set_selection_output set_widget_defs set_form_widgets
       set_selection app widget_defs form_widgets selection selection_output
       collection_id request collection_widget_value].
  change (for_each (build_control collection) fws (loading fws w)) with
    (for_each (build_control (get_collection id))
       (_form_json_to_widgets_dict (form (get_collection id))) (loading fws w)).
  unfold loading.
  destruct (for_each _ _ _) as [[] w1|e w1]; [|done].
  by destruct w1.
Qed.

Lemma building_loading w : building fws [] (loading fws w).
Proof.
  split_and!; [|done|constructor].
  split; constructor.
Qed.

Lemma building_shown done_ w : building fws done_ w → building fws done_ (shown collection w).
Proof. intros ([? ?] & ? & ?). by split_and!. Qed.

(** A form whose fields are all of a supported kind is built and shown. *)
Lemma build_form_supported w :
  supported fws →
  ∃ w1, _build_form get_collection id w = Ok tt (shown collection w1)
        ∧ building fws fws w1.
Proof.
  intros Hs.
  destruct (build_loop collection fws (translated_NoDup _) fws [] [] (loading fws w))
    as (w1 & Hrun & Hb & Ho); [by rewrite app_nil_r | done | apply building_loading |].
  exists w1. split; [|done]. by rewrite build_form_unfold, Hrun.
Qed.

(** Otherwise the build raises at the first unsupported field, with the
    loading message still on display. *)
Lemma build_form_unsupported w :
  ¬ supported fws →
  ∃ good key f later w1,
    fws = good ++ (key, f) :: later ∧ supported good ∧ kind_of f = None
    ∧ _build_form get_collection id w
      = Raised (ValueError ("Unsupported widget type: " +:+ fw_type f)) w1
    ∧ building fws good w1 ∧ output w1 = [LoadingMsg].
Proof.
  intros Hs. apply not_Forall_Exists in Hs; [|apply _].
  apply (first_such (λ kf, ¬ is_Some (kind_of kf.2))) in Hs
    as (good & [key f] & later & Hfws & Hgood & Hbad).
  assert (supported good) as Hgood'.
  { eapply Forall_impl; [apply Hgood|]. intros kf Hkf. simpl in Hkf.
    by destruct (decide (is_Some (kind_of kf.2))). }
  assert (kind_of f = None) as Hnone.
  { simpl in Hbad. destruct (kind_of f); [|done]. destruct Hbad. eauto. }
  destruct (build_loop collection fws (translated_NoDup _) good [] ((key, f) :: later)
              (loading fws w)) as (w1 & Hrun & Hb & Ho);
    [done | done | apply building_loading |].
  exists good, key, f, later, w1. split_and!; try done.
  pose proof (for_each_app (build_control collection) good ((key, f) :: later)
                (loading fws w)) as Happ.
  rewrite <- Hfws in Happ.
  rewrite build_form_unfold, Happ, (bind_Ok _ _ _ _ _ Hrun).
  cbn [for_each]. by rewrite bind_run, build_control_unsupported.
Qed.

Lemma build_form_Ok w w' :
  _build_form get_collection id w = Ok tt w' →
  supported fws ∧ ∃ w1, w' = shown collection w1 ∧ building fws fws w1.
Proof.
  intros Hrun. destruct (decide (supported fws)) as [Hs|Hs].
  - split; [done|]. destruct (build_form_supported w Hs) as (w1 & Hrun1 & Hb).
    exists w1. split; [congruence | done].
  - destruct (build_form_unsupported w Hs) as (?&?&?&?&?&?&?&?& Hrun1 &?). congruence.
Qed.

End build_form.

(** ** The public selection *)

Lemma selected_lookup_from widget_defs key : ∀ req : gmap string (list string),
  NoDup (Dict.keys widget_defs) →
  foldl (λ req '(key, widget),
           match _get_value widget with
           | Some v => if decide (v ≠ []) then <[key := v]> req else req
           | None => req
           end) req widget_defs !! key
  = match Dict.get key widget_defs with
    | Some widget =>
        match _get_value widget with
        | Some v => if decide (v ≠ []) then Some v else req !! key
        | None => req !! key
        end
    | None => req !! key
    end.
Proof.
  unfold Dict.keys.
  induction widget_defs as [|[k wd] d IH]; intros req Hnd; [done|].
  rewrite fmap_cons in Hnd. apply NoDup_cons in Hnd as [Hk Hnd].
  cbn [foldl Dict.get]. rewrite IH by done.
  destruct (decide (k = key)) as [->|Hne].
  - assert (Dict.get key d = None) as -> by by apply DictFacts.get_None.
    destruct (_get_value wd) as [v|]; [|done].
    destruct (decide (v ≠ [])); [|done]. by rewrite lookup_insert_eq.
  - assert (∀ v, (if decide (v ≠ []) then <[k:=v]> req else req) !! key = req !! key)
      as Hsame.
    { intros v. destruct (decide (v ≠ [])); [|done]. by rewrite lookup_insert_ne. }
    destruct (_get_value wd) as [v|]; [rewrite Hsame|]; done.
Qed.

(** The dictionary comprehension of [_update_selection_state]: a key is
    bound exactly when its control extracts a non-empty list. *)
Lemma selected_lookup widget_defs key :
  NoDup (Dict.keys widget_defs) →
  selected widget_defs !! key
  = match Dict.get key widget_defs with
    | Some widget =>
        match _get_value widget with
        | Some v => if decide (v ≠ []) then Some v else None
        | None => None
        end
    | None => None
    end.
Proof.
  intros Hnd. unfold selected. rewrite selected_lookup_from by done.
  rewrite lookup_empty. done.
Qed.

Lemma selected_ok widget_defs key v :
  NoDup (Dict.keys widget_defs) → selected widget_defs !! key = Some v →
  v ≠ [] ∧ ∃ widget, Dict.get key widget_defs = Some widget ∧ _get_value widget = Some v.
Proof.
  intros Hnd. rewrite selected_lookup by done.
  destruct (Dict.get key widget_defs) as [wd|]; [|done].
  destruct (_get_value wd) as [v'|] eqn:Hv; [|done].
  destruct (decide (v' ≠ [])); [|done]. intros [= <-]. split; [done|]. eauto.
Qed.

(** ** Forms that have been built *)

Lemma building_form_of fws w : building fws fws w → form_of fws w.
Proof. intros (? & ? & ?). split_and!; [done | done | by apply Forall2_built_keys]. Qed.

Lemma form_of_shown collection fws w : form_of fws w → form_of fws (shown collection w).
Proof. intros ([? ?] & ? & ?). by split_and!. Qed.

Lemma form_of_same fws w w' : form_of fws w → rendered w' → same_form w w' → form_of fws w'.
Proof. intros (? & ? & ?) ? (? & ? & ?). split_and!; congruence. Qed.

Lemma form_of_control fws w key f :
  form_of fws w → Dict.get key fws = Some f →
  ∃ title columns children kind,
    kind_of f = Some kind
    ∧ Dict.get key (widget_defs w) = Some (VBox title columns children kind (fw_values f))
    ∧ length children = length (fw_values f)
    ∧ (kind = Radio → on_count children ≤ 1).
Proof.
  intros (Hr & Hu & Hkeys) Hget.
  destruct (untitled_get _ _ _ _ Hu Hget) as (f' & Hget' & Heq).
  destruct (untitled_same_values _ _ Heq) as [Hval Hkind].
  assert (is_Some (Dict.get key (widget_defs w))) as [wd Hwd].
  { apply DictFacts.get_is_Some. rewrite Hkeys. apply DictFacts.get_is_Some. eauto. }
  destruct (rendered_lookup _ _ _ Hr Hwd)
    as (t & c & ch & k & o & f1 & Hw & Hlen & Hf1 & Hv1 & Hk1 & Hrad).
  cbn [fst snd] in *. subst wd. rewrite Hget' in Hf1. injection Hf1 as <-.
  exists t, c, ch, k. subst o. rewrite <- Hval, <- Hkind. by split_and!.
Qed.

(** A built form stays a form of the same fields under any clicks, and the
    clicks never raise. *)
Lemma session_form_of get_collection id w w1 events :
  _build_form get_collection id w = Ok tt w1 →
  form_of (_form_json_to_widgets_dict (form (get_collection id))) w1
  ∧ ∃ w2, clicks (get_collection id) events w1 = Ok tt w2
          ∧ form_of (_form_json_to_widgets_dict (form (get_collection id))) w2.
Proof.
  intros Hb. apply build_form_Ok in Hb as (_ & w0 & -> & Hb).
  apply building_form_of, (form_of_shown (get_collection id)) in Hb.
  split; [done|].
  destruct (clicks_preserves (get_collection id) events _ (proj1 Hb))
    as (w2 & Hc & Hr2 & Hs).
  exists w2. split; [done|]. by eapply form_of_same.
Qed.

(** ** Extraction *)

Lemma get_value_radio_length children : ∀ opts,
  length (get_value_radio children opts) ≤ 1.
Proof.
  induction children as [|tb children IH]; intros [|opt opts]; cbn; try lia.
  destruct (tb_value tb); [simpl; lia | apply IH].
Qed.

(** [get_value] of the radio kind returns the option of the first button
    that is on, and nothing when none is. *)
Lemma get_value_radio_spec children : ∀ opts,
  length children = length opts →
  (get_value_radio children opts = []
   ∧ ∀ i tb, children !! i = Some tb → tb_value tb = false)
  ∨ ∃ i opt tb,
      get_value_radio children opts = [opt]
      ∧ opts !! i = Some opt ∧ children !! i = Some tb ∧ tb_value tb = true
      ∧ ∀ j tb', j < i → children !! j = Some tb' → tb_value tb' = false.
Proof.
  induction children as [|tb children IH]; intros [|opt opts] Hlen; try done.
  - left. split; [done|]. intros i tb Hi. by apply elem_of_nil_inv in Hi || done.
  - cbn [get_value_radio]. destruct (tb_value tb) eqn:Hv.
    + right. exists 0, opt, tb. split_and!; try done. intros j ? Hj. lia.
    + cbn [length] in Hlen. destruct (IH opts ltac:(lia)) as [[Hnil Hoff]|Hon].
      * left. split; [done|]. intros [|i] tb' Hi; simpl in Hi; simplify_eq; eauto.
      * right. destruct Hon as (i & o & tb' & Hg & Ho & Hc & Hv' & Hfirst).
        exists (S i), o, tb'. split_and!; try done.
        intros [|j] tb'' Hj Hc'; simpl in Hc'; simplify_eq; [done|].
        apply (Hfirst j); [lia | done].
Qed.

Lemma on_indices_cons tb children :
  on_indices (tb :: children)
  = (if tb_value tb then [0] else []) ++ (S <$> on_indices children).
Proof.
  unfold on_indices. cbn [length seq]. rewrite filter_cons.
  cbn [lookup list_lookup fmap option_fmap option_map].
  rewrite <- fmap_S_seq.
  assert (filter (λ i, tb_value <$> (tb :: children) !! i = Some true)
            (S <$> seq 0 (length children))
          = S <$> filter (λ i, tb_value <$> children !! i = Some true)
                    (seq 0 (length children))) as ->.
  { generalize (seq 0 (length children)). intros l.
    induction l as [|i l IH]; [done|].
    rewrite !fmap_cons, !filter_cons. cbn [lookup list_lookup].
    destruct (decide (tb_value <$> children !! i = Some true));
      rewrite ?fmap_cons; by rewrite IH. }
  destruct (tb_value tb); [by rewrite decide_True | by rewrite decide_False].
Qed.

(** [get_value] of the checkbox kind lists the options of the buttons that
    are on, by increasing position. *)
Lemma get_value_checkbox_spec children : ∀ opts,
  get_value_checkbox children opts = omap (λ i, opts !! i) (on_indices children).
Proof.
  unfold get_value_checkbox.
  induction children as [|tb children IH]; intros [|opt opts].
  - done.
  - done.
  - symmetry. generalize (on_indices (tb :: children)).
    intros l. induction l as [|i l IHl]; [done|]. by cbn [omap list_omap lookup list_lookup].
  - rewrite on_indices_cons. cbn [zip zip_with]. rewrite filter_cons. cbn [snd].
    rewrite omap_app.
    assert (omap (λ i, (opt :: opts) !! i) (S <$> on_indices children)
            = omap (λ i, opts !! i) (on_indices children)) as ->.
    { generalize (on_indices children). intros l.
      induction l as [|i l IHl]; [done|]. rewrite fmap_cons.
      cbn [omap list_omap lookup list_lookup]. by rewrite IHl. }
    rewrite <- IH.
    destruct (tb_value tb); [by rewrite decide_True | by rewrite decide_False].
Qed.

(** * Main results *)

(** ** Schema translation *)

(** C9, as stated, fails: an entry of an ignored type does not keep its name
    out of the translated mapping when another entry carries the same name. *)
Lemma ignored_type_name_translated :
  ∃ widget,
    widget ∈ area_form
    ∧ default "" (e_type widget) ∈ ignore_widget_types
    ∧ default "" (e_name widget) ∈ Dict.keys (_form_json_to_widgets_dict area_form).
Proof.
  exists (field "area" "GeographicExtentWidget" [] None).
  split_and!; [left | set_solver | vm_compute; left].
Qed.

(** C9, amended: the name of an entry on the name ignore list is never a key
    of the translated mapping, and the name of any entry matched by an ignore
    list is a key only if another entry of the same name escapes both
    lists. *)
Theorem ignored_entries_not_translated form widget :
  widget ∈ form →
  ignored ignore_widget_names ignore_widget_types widget →
  (default "" (e_name widget) ∈ ignore_widget_names →
   default "" (e_name widget) ∉ Dict.keys (_form_json_to_widgets_dict form))
  ∧ (default "" (e_name widget) ∈ Dict.keys (_form_json_to_widgets_dict form) ↔
     ∃ other, other ∈ form ∧ other ≠ widget
              ∧ default "" (e_name other) = default "" (e_name widget)
              ∧ ¬ ignored ignore_widget_names ignore_widget_types other).
Proof.
  intros Hin Hign. split.
  - intros Hname [other (Ho & Heq & Hno)]%translated_keys.
    apply Hno. left. by rewrite Heq.
  - rewrite translated_keys. split.
    + intros (other & Ho & Heq & Hno). exists other. split_and!; try done.
      by intros ->.
    + intros (other & Ho & _ & Heq & Hno). by exists other.
Qed.

Lemma ignored_entries_not_translated_witness :
  default "" (e_name (field "download_format" "StringChoiceWidget" ["zip"] None))
  ∉ Dict.keys (_form_json_to_widgets_dict
                 (field "download_format" "StringChoiceWidget" ["zip"] None :: variable_form)).
Proof.
  refine (proj1 (ignored_entries_not_translated _ _ _ _) _).
  - left.
  - left. vm_compute. left.
  - vm_compute. left.
Defined.

(** C6: the merged value list keeps a value that one group lists twice, so
    it is not free of duplicates; only values contributed by earlier groups
    are filtered out. *)
Theorem repeated_value_in_one_group_kept :
  ∃ f_widget,
    Dict.get "variable"
      (_form_json_to_widgets_dict [grouped "variable" "StringListWidget" xx_groups])
    = Some f_widget
    ∧ fw_values f_widget = ["x"; "x"]
    ∧ ¬ NoDup (fw_values f_widget).
Proof.
  eexists. split_and!; [reflexivity | reflexivity |].
  intros Hnd. change (NoDup ["x"; "x"]) in Hnd.
  apply NoDup_cons in Hnd as [Hx _]. apply Hx. left.
Qed.

(** The part of C6 the code meets: labels are merged, the column count is the
    largest declared one and at least 1, and the scenario of the
    specification comes out as stated. *)
Lemma flatten_groups_scenario :
  (flatten_groups xyz_groups).1.2 = ["x"; "y"; "z"]
  ∧ (flatten_groups xyz_groups).2 = 3%Z.
Proof. split; reflexivity. Qed.

Lemma flatten_groups_labels groups v :
  (flatten_groups groups).1.1 !! v
  = foldl (λ found g, match default ∅ (g_labels g) !! v with
                      | Some label => Some label
                      | None => found
                      end) None groups.
Proof.
  unfold flatten_groups.
  assert (∀ acc found, acc.1.1 !! v = found →
    (foldl merge_group acc groups).1.1 !! v
    = foldl (λ found g, match default ∅ (g_labels g) !! v with
                        | Some label => Some label
                        | None => found
                        end) found groups) as Hgen.
  { induction groups as [|g groups IH]; intros [[labels values] columns] found Hacc;
      [done|].
    cbn [foldl]. apply IH. cbn [merge_group fst]. rewrite lookup_union.
    destruct (default ∅ (g_labels g) !! v) as [label|] eqn:E.
    - by destruct (labels !! v).
    - simpl in Hacc. rewrite Hacc. by destruct found. }
  by apply Hgen.
Qed.

(** ** Change propagation *)

Lemma update_control_keys item w :
  Dict.keys (widget_defs (world_of (update_control item w))) = Dict.keys (widget_defs w).
Proof.
  destruct item as [key values]. unfold update_control.
  rewrite bind_run. cbn [get_world].
  destruct (Dict.get key (widget_defs w)) as [widget|] eqn:Hget; [|done].
  assert (key ∈ Dict.keys (widget_defs w)) as Hin.
  { apply DictFacts.get_is_Some. eauto. }
  assert (∀ wd wd', Dict.keys (Dict.set key wd' (Dict.set key wd (widget_defs w)))
                    = Dict.keys (widget_defs w)) as Htwice.
  { intros. rewrite DictFacts.set_set. by apply DictFacts.keys_set_in. }
  destruct widget as [t c ch k o|options value|options value];
    unfold store, modify; rewrite bind_run.
  - destruct (Dict.get key (form_widgets w)); cbn.
    + apply Htwice.
    + by apply DictFacts.keys_set_in.
  - destruct (if decide (_ = options) then value else head values) as [v|];
      [destruct (decide (v ∈ values))|]; cbn.
    + by apply DictFacts.keys_set_in.
    + apply Htwice.
    + apply Htwice.
  - cbn [set_widget_defs selection]. destruct (selection w !! key); cbn.
    + apply Htwice.
    + by apply DictFacts.keys_set_in.
Qed.

Lemma update_control_absent key values w :
  key ∉ Dict.keys (widget_defs w) → update_control (key, values) w = Ok tt w.
Proof.
  intros Hkey%DictFacts.get_None. unfold update_control.
  rewrite bind_run. cbn [get_world]. by rewrite Hkey.
Qed.

Lemma for_each_update_control_keys items : ∀ w,
  Dict.keys (widget_defs (world_of (for_each update_control items w)))
  = Dict.keys (widget_defs w).
Proof.
  induction items as [|item items IH]; intros w; [done|].
  cbn [for_each]. rewrite bind_run.
  pose proof (update_control_keys item w) as Hk.
  destruct (update_control item w) as [[] w1|e w1]; cbn [world_of] in Hk.
  - by rewrite IH.
  - done.
Qed.

(** C10: a field name of the evaluator's response that names no rendered
    control is passed over: its round of the loop returns normally and changes
    nothing, and the whole loop ends as it would without that name. *)
Theorem unknown_response_key_skipped w key values :
  key ∉ Dict.keys (widget_defs w) →
  update_control (key, values) w = Ok tt w
  ∧ ∀ before after,
      for_each update_control (before ++ (key, values) :: after) w
      = for_each update_control (before ++ after) w.
Proof.
  intros Hkey. split; [by apply update_control_absent|].
  intros before after. rewrite !for_each_app, !bind_run.
  pose proof (for_each_update_control_keys before w) as Hk.
  destruct (for_each update_control before w) as [[] w1|e w1]; [|done].
  cbn [world_of] in Hk. cbn [for_each]. rewrite bind_run.
  rewrite update_control_absent; [done|]. by rewrite Hk.
Qed.

Lemma unknown_response_key_skipped_witness :
  update_control ("year", ["2020"])
    (world_of (session (λ _, constant_collection variable_form ∅) "c" []))
  = Ok tt (world_of (session (λ _, constant_collection variable_form ∅) "c" [])).
Proof.
  refine (proj1 (unknown_response_key_skipped _ "year" ["2020"] _)).
  vm_compute. intros H. inversion H as [|? ? ? H']. inversion H'.
Defined.

Lemma relayout_get_ne item key d :
  item.1 ≠ key → Dict.get key (relayout item d) = Dict.get key d.
Proof.
  intros Hne. unfold relayout.
  destruct (Dict.get item.1 d) as [[t c ch k o| |]|]; try done.
  by apply DictFacts.get_set_ne.
Qed.

Lemma relayout_get_eq key values d title columns children kind opts :
  Dict.get key d = Some (VBox title columns children kind opts) →
  Dict.get key (relayout (key, values) d)
  = Some (VBox title columns (show_legal (hide_all children) opts values) kind opts).
Proof.
  intros Hget. unfold relayout. cbn [fst snd]. rewrite Hget.
  apply DictFacts.get_set_eq.
Qed.

Lemma relayout_all_get_notin items key : ∀ d,
  key ∉ items.*1 → Dict.get key (relayout_all items d) = Dict.get key d.
Proof.
  unfold relayout_all.
  induction items as [|item items IH]; intros d Hkey; [done|].
  rewrite fmap_cons in Hkey. apply not_elem_of_cons in Hkey as [Hne Hkey].
  cbn [foldl]. rewrite IH by done. by apply relayout_get_ne.
Qed.

Lemma relayout_all_get items key values title columns children kind opts : ∀ d,
  NoDup items.*1 → (key, values) ∈ items →
  Dict.get key d = Some (VBox title columns children kind opts) →
  Dict.get key (relayout_all items d)
  = Some (VBox title columns (show_legal (hide_all children) opts values) kind opts).
Proof.
  induction items as [|item items IH]; intros d Hnd Hin Hget.
  - by apply elem_of_nil in Hin.
  - rewrite fmap_cons in Hnd. apply NoDup_cons in Hnd as [Hfresh Hnd].
    apply elem_of_cons in Hin as [<-|Hin].
    + change (relayout_all ((key, values) :: items) d)
        with (relayout_all items (relayout (key, values) d)).
      rewrite relayout_all_get_notin by done. by apply relayout_get_eq.
    + change (relayout_all (item :: items) d)
        with (relayout_all items (relayout item d)).
      apply IH; [done | done |]. rewrite relayout_get_ne; [done|].
      intros Heq. apply Hfresh. rewrite Heq.
      apply list_elem_of_fmap. by exists (key, values).
Qed.

(** A constraint update on stored controls -- every update a click causes,
    and during construction the fields stored so far: a control named in the
    response keeps its buttons, each with its value and description; a
    button is shown when its option is legal and hidden when it is not.
    (It holds for the boxes of both kinds, the checkbox kind among them.) *)
Theorem constraint_update_hides_illegal collection w key values
    title columns children kind opts :
  rendered w →
  response collection w !! key = Some values →
  Dict.get key (widget_defs w) = Some (VBox title columns children kind opts) →
  ∃ w' children',
    on_change collection w = Ok tt w'
    ∧ Dict.get key (widget_defs w') = Some (VBox title columns children' kind opts)
    ∧ length children' = length children
    ∧ ∀ i tb, children !! i = Some tb →
        ∃ opt tb', opts !! i = Some opt ∧ children' !! i = Some tb'
          ∧ tb_value tb' = tb_value tb
          ∧ tb_description tb' = tb_description tb
          ∧ (opt ∈ values → tb_display tb' = Some "")
          ∧ (opt ∉ values → tb_display tb' = Some "none").
Proof.
  intros Hr Hresp Hget.
  exists (propagate collection w),
    (show_legal (hide_all children) opts values).
  split_and!.
  - by apply on_change_rendered.
  - cbn [propagate widget_defs]. apply relayout_all_get; [| |done].
    + apply NoDup_fst_map_to_list.
    + by apply elem_of_map_to_list.
  - by rewrite length_show_legal, length_hide_all.
  - intros i tb Hi.
    destruct (rendered_lookup _ _ _ Hr Hget)
      as (t & c & ch & k & o & f & Heq & Hlen & _).
    simpl in Heq. injection Heq as <- <- <- <- <-.
    destruct (lookup_lt_is_Some_2 opts i) as [opt Hopt].
    { rewrite <- Hlen. by eapply lookup_lt_Some. }
    exists opt, (tb_set_display (if decide (opt ∈ values) then "" else "none") tb).
    split_and!; try done.
    + by apply show_hide_lookup.
    + intros Hin. cbn [tb_display tb_set_display]. by rewrite decide_True.
    + intros Hin. cbn [tb_display tb_set_display]. by rewrite decide_False.
Qed.

Lemma constraint_update_hides_illegal_witness :
  let collection := constant_collection variable_form {[ "variable" := ["b"] ]} in
  let w := world_of (session (λ _, collection) "c" []) in
  ∃ w' children',
    on_change collection w = Ok tt w'
    ∧ Dict.get "variable" (widget_defs w')
      = Some (VBox "" 1 children' Checkbox ["a"; "b"])
    ∧ length children' = 2
    ∧ ∀ i tb,
        [ {| tb_value := false; tb_description := "Alpha"; tb_display := None |};
          {| tb_value := false; tb_description := "b"; tb_display := None |} ] !! i
        = Some tb →
        ∃ opt tb', ["a"; "b"] !! i = Some opt ∧ children' !! i = Some tb'
          ∧ tb_value tb' = tb_value tb
          ∧ tb_description tb' = tb_description tb
          ∧ (opt ∈ ["b"] → tb_display tb' = Some "")
          ∧ (opt ∉ ["b"] → tb_display tb' = Some "none").
Proof.
  intros collection w.
  apply (constraint_update_hides_illegal collection w "variable" ["b"] "" 1%Z
           [ {| tb_value := false; tb_description := "Alpha"; tb_display := None |};
             {| tb_value := false; tb_description := "b"; tb_display := None |} ]
           Checkbox ["a"; "b"]).
  - apply (session_form_of (λ _, collection) "c"
             (set_collection_widget_value (Some "c")
                (world_of (__init__ (λ _, collection)))) w []).
    vm_compute. reflexivity.
  - vm_compute. reflexivity.
  - vm_compute. reflexivity.
Defined.

(** C4: a checkbox field "v" with options a and b and default a, and an
    evaluator that allows a alone.  Assigning the default runs the one
    constraint update of the build; its response names "v", but the box of
    "v" is stored only after the defaults, so the update finds no control
    under that name and the built form shows the button of b, neither hidden
    nor shown anew.  Nor does that update read the field: the preview it
    draws is empty although the request published at the end of the build
    binds "v" to its default.  The same update run once more on the built
    form hides the button. *)
Theorem default_update_skips_own_field :
  let collection :=
    constant_collection [field "v" "StringListWidget" ["a"; "b"] (Some ["a"])]
                        {[ "v" := ["a"] ]} in
  ∃ w w',
    session (λ _, collection) "c" [] = Ok tt w
    ∧ queries w = 1
    ∧ (∀ n selection, apply_constraints collection n selection = {[ "v" := ["a"] ]})
    ∧ Dict.get "v" (widget_defs w)
      = Some (VBox "v" 1
                [ {| tb_value := true; tb_description := "a"; tb_display := None |};
                  {| tb_value := false; tb_description := "b"; tb_display := None |} ]
                Checkbox ["a"; "b"])
    ∧ selection_output w = [SelectionJson ∅]
    ∧ request w = {[ "v" := ["a"] ]}
    ∧ on_change collection w = Ok tt w'
    ∧ Dict.get "v" (widget_defs w')
      = Some (VBox "v" 1
                [ {| tb_value := true; tb_description := "a"; tb_display := Some "" |};
                  {| tb_value := false; tb_description := "b";
                     tb_display := Some "none" |} ]
                Checkbox ["a"; "b"]).
Proof.
  intros collection.
  exists (world_of (session (λ _, collection) "c" [])).
  exists (world_of (on_change collection
                      (world_of (session (λ _, collection) "c" [])))).
  split_and!; [vm_compute; reflexivity | vm_compute; reflexivity | done
              | vm_compute; reflexivity..].
Qed.

(** ** Construction *)

(** C5: when some translated field has a kind other than "checkbox" and
    "radio" -- the kind is the raw type itself when the lookup does not know
    it -- [_build_form] raises a [ValueError] to its caller.  It does so at
    the first such field: only the fields before it have controls, and the
    output shows the loading message and no form. *)
Theorem unsupported_kind_aborts_build get_collection id w key f :
  Dict.get key (_form_json_to_widgets_dict (form (get_collection id))) = Some f →
  fw_type f ≠ "checkbox" → fw_type f ≠ "radio" →
  (∀ widget, widget_map !! default "" (e_type widget) = None →
             fw_type (translate_entry widget) = default "" (e_type widget))
  ∧ ∃ before key' f' after w',
      _form_json_to_widgets_dict (form (get_collection id))
      = before ++ (key', f') :: after
      ∧ supported before
      ∧ fw_type f' ≠ "checkbox" ∧ fw_type f' ≠ "radio"
      ∧ _build_form get_collection id w
        = Raised (ValueError ("Unsupported widget type: " +:+ fw_type f')) w'
      ∧ Dict.keys (widget_defs w') = Dict.keys before
      ∧ output w' = [LoadingMsg].
Proof.
  intros Hget Hc Hr. split.
  - intros widget Hmap. unfold translate_entry.
    destruct (widget_details _) as [[labels values] columns]. cbn [fw_type].
    by rewrite Hmap.
  - destruct (build_form_unsupported get_collection id w)
      as (good & k & f' & later & w1 & Hfws & Hgood & Hnone & Hrun & Hb & Hout).
    + intros Hs. unfold supported in Hs. rewrite Forall_forall in Hs.
      destruct (Hs (key, f) (DictFacts.get_Some_elem _ _ _ Hget)) as [kind Hkind].
      cbn [snd] in Hkind. apply kind_of_Some in Hkind as [[_ ?]|(_ & ? & _)]; done.
    + exists good, k, f', later, w1. apply kind_of_None in Hnone as [? ?].
      split_and!; try done. apply Forall2_built_keys, Hb.
Qed.

Lemma unsupported_kind_aborts_build_witness :
  ∃ before key' f' after w',
    _form_json_to_widgets_dict (form (constant_collection date_form ∅))
    = before ++ (key', f') :: after
    ∧ supported before
    ∧ fw_type f' ≠ "checkbox" ∧ fw_type f' ≠ "radio"
    ∧ _build_form (λ _, constant_collection date_form ∅) "c" blank
      = Raised (ValueError ("Unsupported widget type: " +:+ fw_type f')) w'
    ∧ Dict.keys (widget_defs w') = Dict.keys before
    ∧ output w' = [LoadingMsg].
Proof.
  refine (proj2 (unsupported_kind_aborts_build
                   (λ _, constant_collection date_form ∅) "c" blank "date"
                   (translate_entry (field "date" "DateRangeWidget" [] None)) _ _ _)).
  - vm_compute. reflexivity.
  - vm_compute. intros H. discriminate H.
  - vm_compute. intros H. discriminate H.
Defined.

(** C2, as stated, fails: a radio field with two default options is built
    with the button of the first one off. *)
Lemma radio_two_defaults_first_off :
  ∃ w title columns tb rest,
    _build_form (λ _, constant_collection (choice_form (Some ["a"; "b"])) ∅) "c" blank
    = Ok tt w
    ∧ Dict.get "f" (widget_defs w) = Some (VBox title columns (tb :: rest) Radio ["a"; "b"])
    ∧ "a" ∈ ["a"; "b"]
    ∧ tb_value tb = false.
Proof.
  exists (world_of (_build_form
                      (λ _, constant_collection (choice_form (Some ["a"; "b"])) ∅)
                      "c" blank)).
  eexists _, _, _, _. split_and!.
  - vm_compute. reflexivity.
  - vm_compute. reflexivity.
  - left.
  - reflexivity.
Qed.

(** C2, amended: a form that is built has, for every translated field, one
    button per option value; the button of an option is on exactly when the
    option is in the field's default list and, for the radio kind, no later
    option of the field is in it. *)
Theorem built_buttons_follow_defaults get_collection id w w' key f :
  _build_form get_collection id w = Ok tt w' →
  Dict.get key (_form_json_to_widgets_dict (form (get_collection id))) = Some f →
  ∃ title columns children kind,
    kind_of f = Some kind
    ∧ Dict.get key (widget_defs w')
      = Some (VBox title columns children kind (fw_values f))
    ∧ length children = length (fw_values f)
    ∧ ∀ i tb opt,
        children !! i = Some tb → fw_values f !! i = Some opt →
        (tb_value tb = true ↔
         opt ∈ default [] (fw_default f)
         ∧ (kind = Radio →
            Forall (λ o, o ∉ default [] (fw_default f)) (drop (S i) (fw_values f)))).
Proof.
  intros Hrun Hget.
  pose proof Hrun as Hb. apply build_form_Ok in Hb as (_ & w1 & -> & Hb).
  destruct (form_of_control _ _ key f
              (form_of_shown (get_collection id) _ _ (building_form_of _ _ Hb)) Hget)
    as (title & columns & children & kind & Hkind & Hwd & Hlen & _).
  exists title, columns, children, kind. split_and!; try done.
  intros i tb opt Hi Hopt.
  destruct Hb as (Hr & _ & Hbuilt).
  apply DictFacts.get_Some_elem, list_elem_of_lookup in Hget as [n Hn].
  destruct (Forall2_lookup_l _ _ _ _ _ Hbuilt Hn) as ([k wd] & Hkw & Hk & kind' & Hkind' & Hbare).
  cbn [fst snd] in *. subst k. rewrite Hkind in Hkind'. injection Hkind' as <-.
  assert (Dict.get key (widget_defs w1) = Some wd) as Hwd'.
  { apply DictFacts.elem_get; [apply Hr|]. apply list_elem_of_lookup. eauto. }
  cbn [widget_defs shown] in Hwd. rewrite Hwd in Hwd'. injection Hwd' as <-.
  cbn [bare_widget built_control] in Hbare. injection Hbare as _ _ Hbare.
  set (built := defaults_pure kind (default [] (fw_default f)) 0 (fw_values f)
                  (new_buttons (fw_labels f) (fw_values f))) in *.
  assert (∃ tb0, built !! i = Some tb0 ∧ tb_value tb0 = tb_value tb) as (tb0 & Htb0 & <-).
  { apply (f_equal (λ l, l !! i)) in Hbare. rewrite !list_lookup_fmap, Hi in Hbare.
    destruct (built !! i) as [tb0|]; [|done]. exists tb0. split; [done|].
    cbn in Hbare. by injection Hbare. }
  rewrite (defaults_pure_spec kind _ _ (new_buttons_off _ _) (fw_values f)
             ltac:(by rewrite length_new_buttons) i tb0 Htb0).
  unfold initially_on. split.
  - intros (o & Ho & ? & ?). rewrite Hopt in Ho. by injection Ho as <-.
  - intros [? ?]. by exists opt.
Qed.

Lemma built_buttons_follow_defaults_witness :
  ∃ title columns children kind,
    kind_of (translate_entry (field "f" "StringChoiceWidget" ["a"; "b"] (Some ["a"; "b"])))
    = Some kind
    ∧ Dict.get "f"
        (widget_defs
           (world_of (_build_form
                        (λ _, constant_collection (choice_form (Some ["a"; "b"])) ∅)
                        "c" blank)))
      = Some (VBox title columns children kind ["a"; "b"])
    ∧ length children = 2
    ∧ ∀ i tb opt,
        children !! i = Some tb → ["a"; "b"] !! i = Some opt →
        (tb_value tb = true ↔
         opt ∈ ["a"; "b"]
         ∧ (kind = Radio → Forall (λ o, o ∉ ["a"; "b"]) (drop (S i) ["a"; "b"]))).
Proof.
  apply (built_buttons_follow_defaults
           (λ _, constant_collection (choice_form (Some ["a"; "b"])) ∅) "c" blank _ "f"
           (translate_entry (field "f" "StringChoiceWidget" ["a"; "b"] (Some ["a"; "b"])))).
  - vm_compute. reflexivity.
  - vm_compute. reflexivity.
Defined.

(** ** Extraction and clicks *)

(** C3: in a form that has been built, whatever buttons are then clicked,
    every radio field has at most one button on, and its extraction function
    returns the option of the first button that is on, or the empty list when
    none is: never more than one value. *)
Theorem radio_at_most_one get_collection id w w1 events key f :
  _build_form get_collection id w = Ok tt w1 →
  Dict.get key (_form_json_to_widgets_dict (form (get_collection id))) = Some f →
  fw_type f = "radio" →
  ∃ w2 title columns children v,
    clicks (get_collection id) events w1 = Ok tt w2
    ∧ Dict.get key (widget_defs w2)
      = Some (VBox title columns children Radio (fw_values f))
    ∧ on_count children ≤ 1
    ∧ _get_value (VBox title columns children Radio (fw_values f)) = Some v
    ∧ length v ≤ 1
    ∧ ((v = [] ∧ ∀ i tb, children !! i = Some tb → tb_value tb = false)
       ∨ ∃ i opt tb,
           v = [opt] ∧ fw_values f !! i = Some opt
           ∧ children !! i = Some tb ∧ tb_value tb = true
           ∧ ∀ j tb', j < i → children !! j = Some tb' → tb_value tb' = false).
Proof.
  intros Hrun Hget Htype.
  destruct (session_form_of get_collection id w w1 events Hrun)
    as (_ & w2 & Hclicks & Hform).
  destruct (form_of_control _ _ key f Hform Hget)
    as (title & columns & children & kind & Hkind & Hwd & Hlen & Hrad).
  assert (kind = Radio) as ->.
  { unfold kind_of in Hkind. rewrite Htype in Hkind.
    rewrite decide_False, decide_True in Hkind by done. by injection Hkind. }
  exists w2, title, columns, children, (get_value_radio children (fw_values f)).
  split_and!; try done.
  - by apply Hrad.
  - apply get_value_radio_length.
  - by apply get_value_radio_spec.
Qed.

Lemma radio_at_most_one_witness :
  ∃ w2 title columns children v,
    clicks (constant_collection (choice_form (Some ["a"; "b"])) ∅)
      [("f", 0); ("f", 1); ("f", 1)]
      (world_of (_build_form
                   (λ _, constant_collection (choice_form (Some ["a"; "b"])) ∅)
                   "c" blank))
    = Ok tt w2
    ∧ Dict.get "f" (widget_defs w2) = Some (VBox title columns children Radio ["a"; "b"])
    ∧ on_count children ≤ 1
    ∧ _get_value (VBox title columns children Radio ["a"; "b"]) = Some v
    ∧ length v ≤ 1
    ∧ ((v = [] ∧ ∀ i tb, children !! i = Some tb → tb_value tb = false)
       ∨ ∃ i opt tb,
           v = [opt] ∧ ["a"; "b"] !! i = Some opt
           ∧ children !! i = Some tb ∧ tb_value tb = true
           ∧ ∀ j tb', j < i → children !! j = Some tb' → tb_value tb' = false).
Proof.
  apply (radio_at_most_one
           (λ _, constant_collection (choice_form (Some ["a"; "b"])) ∅) "c" blank _
           [("f", 0); ("f", 1); ("f", 1)] "f"
           (translate_entry (field "f" "StringChoiceWidget" ["a"; "b"] (Some ["a"; "b"])))).
  - vm_compute. reflexivity.
  - vm_compute. reflexivity.
  - vm_compute. reflexivity.
Defined.

(** C8: in a form that has been built, whatever buttons are then clicked,
    the extraction function of every checkbox field returns the options of
    the buttons that are on, in the order the options were declared; and for
    the one-field schema of the scenario the selection is empty once the form
    is built and binds "variable" to ["a"] once the button of "a" has been
    clicked, whatever the evaluator answers. *)
Theorem checkbox_extraction :
  (∀ get_collection id w w1 events key f,
     _build_form get_collection id w = Ok tt w1 →
     Dict.get key (_form_json_to_widgets_dict (form (get_collection id))) = Some f →
     fw_type f = "checkbox" →
     ∃ w2 title columns children,
       clicks (get_collection id) events w1 = Ok tt w2
       ∧ Dict.get key (widget_defs w2)
         = Some (VBox title columns children Checkbox (fw_values f))
       ∧ length children = length (fw_values f)
       ∧ _get_value (VBox title columns children Checkbox (fw_values f))
         = Some (omap (λ i, fw_values f !! i) (on_indices children)))
  ∧ (∀ get_collection id w,
       form (get_collection id) = variable_form →
       ∃ w1 w2,
         _build_form get_collection id w = Ok tt w1
         ∧ request w1 = ∅
         ∧ clicks (get_collection id) [("variable", 0)] w1 = Ok tt w2
         ∧ request w2 = {[ "variable" := ["a"] ]}).
Proof.
  split.
  - intros get_collection id w w1 events key f Hrun Hget Htype.
    destruct (session_form_of get_collection id w w1 events Hrun)
      as (_ & w2 & Hclicks & Hform).
    destruct (form_of_control _ _ key f Hform Hget)
      as (title & columns & children & kind & Hkind & Hwd & Hlen & _).
    assert (kind = Checkbox) as ->.
    { unfold kind_of in Hkind. rewrite Htype in Hkind.
      rewrite decide_True in Hkind by done. by injection Hkind. }
    exists w2, title, columns, children. split_and!; try done.
    cbn [_get_value]. by rewrite get_value_checkbox_spec.
  - intros get_collection id w Hform.
    set (collection := get_collection id) in *.
    set (buttons := [ {| tb_value := false; tb_description := "Alpha"; tb_display := None |};
                      {| tb_value := false; tb_description := "b"; tb_display := None |} ]).
    set (box := λ children, VBox "" 1%Z children Checkbox ["a"; "b"]).
    set (w0 := set_widget_defs (λ _, [("variable", box buttons)])
                 (loading (_form_json_to_widgets_dict variable_form) w)).
    assert (_build_form get_collection id w = Ok tt (shown collection w0)) as Hbuild.
    { rewrite build_form_unfold. fold collection. rewrite Hform. reflexivity. }
    destruct (session_form_of get_collection id w _ [] Hbuild) as [(Hr & _) _].
    destruct (toggle_rendered collection "variable" 0 (shown collection w0) ""
                1%Z buttons Checkbox ["a"; "b"]
                {| tb_value := false; tb_description := "Alpha"; tb_display := None |}
                Hr eq_refl eq_refl) as [Ht _].
    cbv zeta in Ht. cbn [observers snd fst negb tb_value] in Ht.
    eexists _, _. split_and!.
    + exact Hbuild.
    + reflexivity.
    + unfold clicks. cbn [for_each]. rewrite (bind_Ok _ _ _ _ _ Ht). reflexivity.
    + rewrite propagate_request. vm_compute. reflexivity.
Qed.

Lemma checkbox_extraction_witness :
  (∃ w2 title columns children,
     clicks (constant_collection variable_form {[ "variable" := ["b"] ]})
       [("variable", 1); ("variable", 0)]
       (world_of (_build_form
                    (λ _, constant_collection variable_form {[ "variable" := ["b"] ]})
                    "c" blank))
     = Ok tt w2
     ∧ Dict.get "variable" (widget_defs w2)
       = Some (VBox title columns children Checkbox ["a"; "b"])
     ∧ length children = 2
     ∧ _get_value (VBox title columns children Checkbox ["a"; "b"])
       = Some (omap (λ i, ["a"; "b"] !! i) (on_indices children)))
  ∧ ∃ w1 w2,
      _build_form (λ _, constant_collection variable_form {[ "variable" := ["b"] ]})
        "c" blank = Ok tt w1
      ∧ request w1 = ∅
      ∧ clicks (constant_collection variable_form {[ "variable" := ["b"] ]})
          [("variable", 0)] w1 = Ok tt w2
      ∧ request w2 = {[ "variable" := ["a"] ]}.
Proof.
  split.
  - apply (proj1 checkbox_extraction
             (λ _, constant_collection variable_form {[ "variable" := ["b"] ]})
             "c" blank _ [("variable", 1); ("variable", 0)] "variable"
             (translate_entry
                {| e_name := Some "variable"; e_type := Some "StringListWidget";
                   e_label := None;
                   e_details := Some {| d_labels := Some {[ "a" := "Alpha" ]};
                                        d_values := Some ["a"; "b"];
                                        d_columns := None; d_default := None;
                                        d_groups := None |} |})).
    + vm_compute. reflexivity.
    + vm_compute. reflexivity.
    + vm_compute. reflexivity.
  - apply (proj2 checkbox_extraction
             (λ _, constant_collection variable_form {[ "variable" := ["b"] ]})
             "c" blank).
    reflexivity.
Defined.

(** C1: at a radio field "f" with options a and b, an evaluator that only
    allows b, and a click on a, the control keeps its two buttons, the one of
    a on but hidden, and the recomputed selection still binds "f" to ["a"]:
    the choice is not cleared.  The only branch of [on_change] that assigns
    a value is written for a [RadioButtons] widget, and a radio field is a
    box of toggle buttons. *)
Theorem radio_illegal_choice_not_cleared :
  let collection := constant_collection (choice_form None) {[ "f" := ["b"] ]} in
  ∃ w,
    session (λ _, collection) "c" [("f", 0)] = Ok tt w
    ∧ (∀ n selection, apply_constraints collection n selection = {[ "f" := ["b"] ]})
    ∧ Dict.get "f" (widget_defs w)
      = Some (VBox "f (select one)" 1
                [ {| tb_value := true; tb_description := "a"; tb_display := Some "none" |};
                  {| tb_value := false; tb_description := "b"; tb_display := Some "" |} ]
                Radio ["a"; "b"])
    ∧ request w = {[ "f" := ["a"] ]}.
Proof.
  intros collection.
  exists (world_of (session (λ _, collection) "c" [("f", 0)])).
  split_and!; [vm_compute; reflexivity | done | vm_compute; reflexivity..].
Qed.

(** C7: a radio field "f" whose button a is clicked on and then clicked off
    again extracts the empty list, yet the public selection still binds "f"
    to ["a"]: switching a radio button off does not run [on_change], so the
    selection is not recomputed. *)
Theorem radio_switched_off_stays_selected :
  let collection := constant_collection (choice_form None) ∅ in
  ∃ w widget,
    session (λ _, collection) "c" [("f", 0); ("f", 0)] = Ok tt w
    ∧ Dict.get "f" (widget_defs w) = Some widget
    ∧ _get_value widget = Some []
    ∧ request w = {[ "f" := ["a"] ]}.
Proof.
  intros collection.
  exists (world_of (session (λ _, collection) "c" [("f", 0); ("f", 0)])).
  eexists. split_and!; vm_compute; reflexivity.
Qed.

(** What C7 asks and the code does keep: every key of the public selection
    names a rendered control of a translated field and is bound to a
    non-empty list, after the build and after every click. *)
Lemma request_ok_selected w :
  NoDup (Dict.keys (widget_defs w)) → request w = selected (widget_defs w) →
  request_ok w.
Proof.
  intros Hnd Hreq key v. rewrite Hreq. intros Hv.
  destruct (selected_ok _ _ _ Hnd Hv) as (Hne & wd & Hwd & _).
  split; [done|]. apply DictFacts.get_is_Some. eauto.
Qed.

Lemma request_ok_same w w' :
  request_ok w → request w' = request w →
  Dict.keys (widget_defs w') = Dict.keys (widget_defs w) → request_ok w'.
Proof. intros Hok Hreq Hkeys key v. rewrite Hreq, Hkeys. apply Hok. Qed.

Lemma toggle_request_ok collection event w w' :
  rendered w → request_ok w → toggle collection event w = Ok tt w' → request_ok w'.
Proof.
  intros Hr Hok. destruct event as [key i].
  destruct (Dict.get key (widget_defs w)) as [widget|] eqn:Hget.
  - destruct (rendered_lookup _ _ _ Hr Hget) as (t & c & ch & k & o & f & Heq & _).
    simpl in Heq. subst widget.
    destruct (ch !! i) as [tb|] eqn:Hi.
    + destruct (toggle_rendered collection key i w t c ch k o tb Hr Hget Hi) as [Ht Hr1].
      cbv zeta in Ht, Hr1. rewrite Ht.
      set (w1 := set_widget_defs _ w) in *.
      assert (request_ok w1) as Hok1.
      { apply (request_ok_same w); [done | done |]. subst w1.
        cbn [widget_defs set_widget_defs].
        apply DictFacts.keys_set_in, DictFacts.get_is_Some. by rewrite Hget. }
      destruct (observers _ _ _ _).2; intros [= <-]; [|done].
      apply request_ok_selected; [apply rendered_propagate, Hr1|].
      cbn [request propagate widget_defs]. done.
    + rewrite toggle_absent; [by intros [= <-] | done |].
      intros ????? Hget'. congruence.
  - rewrite toggle_absent; [by intros [= <-] | done |].
    intros ????? Hget'. congruence.
Qed.

Lemma init_request_empty get_collection :
  ∃ w, __init__ get_collection = Ok tt w
       ∧ request w = ∅ ∧ widget_defs w = [] ∧ output w = [InitialPrompt].
Proof. eexists. by split_and!. Qed.

Lemma session_request_ok get_collection id w w1 events :
  _build_form get_collection id w = Ok tt w1 →
  ∃ w2, clicks (get_collection id) events w1 = Ok tt w2
        ∧ request_ok w2
        ∧ Dict.keys (widget_defs w2)
          = Dict.keys (_form_json_to_widgets_dict (form (get_collection id))).
Proof.
  intros Hrun.
  destruct (session_form_of get_collection id w w1 events Hrun)
    as ((Hr1 & _ & _) & w2 & Hclicks & (_ & _ & Hkeys)).
  exists w2. split_and!; [done | | done].
  assert (request_ok w1) as Hok1.
  { apply build_form_Ok in Hrun as (_ & w0 & -> & (Hr0 & _)).
    apply request_ok_selected; [apply Hr0 | done]. }
  clear Hrun Hkeys. revert w1 w2 Hr1 Hok1 Hclicks. unfold clicks.
  induction events as [|event events IH]; intros w1 w2 Hr1 Hok1 Hclicks.
  - by injection Hclicks as <-.
  - cbn [for_each] in Hclicks. rewrite bind_run in Hclicks.
    destruct (toggle_preserves (get_collection id) event w1 Hr1) as (w' & Ht & Hr' & _).
    rewrite Ht in Hclicks.
    apply (IH w' w2); [done | | done].
    by apply (toggle_request_ok (get_collection id) event w1 w').
Qed.

(** What C1 describes never happens to a rendered control: [on_change]
    leaves every button's value as it is, so the selection it recomputes is
    the one extracted before the response was applied. *)
Lemma on_change_keeps_values collection w :
  rendered w →
  ∃ w', on_change collection w = Ok tt w'
        ∧ bare_defs (widget_defs w') = bare_defs (widget_defs w)
        ∧ request w' = selected (widget_defs w).
Proof.
  intros Hr. exists (propagate collection w). split_and!.
  - by apply on_change_rendered.
  - apply propagate_bare.
  - apply propagate_request.
Qed.


(** * Further properties *)

(** ** Schema translation *)

Lemma translate_get_from names types form : ∀ out k,
  Dict.get k (foldl (translate_step names types) out form)
  = match Dict.get k out with
    | Some f_widget => Some f_widget
    | None => translate_entry <$> first_entry names types k form
    end.
Proof.
  induction form as [|e form IH]; intros out k; cbn [foldl first_entry].
  - by destruct (Dict.get k out).
  - rewrite IH. unfold translate_step.
    destruct (decide (ignored names types e)) as [Hi|Hi].
    { by rewrite decide_False by tauto. }
    destruct (decide (default "" (e_name e) ∈ Dict.keys out)) as [Hin|Hin].
    + destruct (Dict.get k out) as [f|] eqn:Hk; [done|].
      rewrite decide_False; [done|].
      intros [<- _]. by apply DictFacts.get_None in Hk.
    + rewrite DictFacts.get_app. cbn [Dict.get].
      destruct (Dict.get k out) as [f|] eqn:Hk; [done|].
      destruct (decide (default "" (e_name e) = k)) as [Heq|Hne].
      * by rewrite decide_True.
      * by rewrite decide_False by tauto.
Qed.

(** X1: the translated mapping binds a name to the translation of the first
    schema entry of that name that escapes both ignore lists, and to nothing
    when there is no such entry: later entries of the same name are dropped,
    and an ignored entry does not use up the name. *)
Theorem translated_lookup_first form k :
  Dict.get k (_form_json_to_widgets_dict form)
  = translate_entry <$> first_entry ignore_widget_names ignore_widget_types k form.
Proof.
  unfold _form_json_to_widgets_dict, _form_json_to_widgets_dict_with.
  by rewrite translate_get_from.
Qed.

Lemma translate_step_prefix names types out widget :
  out `prefix_of` translate_step names types out widget.
Proof.
  unfold translate_step.
  destruct (decide (ignored names types widget)); [done|].
  destruct (decide (default "" (e_name widget) ∈ Dict.keys out)); [done|].
  by apply prefix_app_r.
Qed.

Lemma translate_prefix_from names types form : ∀ out,
  out `prefix_of` foldl (translate_step names types) out form.
Proof.
  induction form as [|e form IH]; intros out; [done|].
  cbn [foldl]. etrans; [apply translate_step_prefix | apply IH].
Qed.

(** X2: no name is translated twice, and the translated fields come in
    schema order: translating a longer schema yields the fields of the
    shorter one, unchanged and in the same order, followed by new ones. *)
Theorem translated_in_schema_order form more :
  NoDup (Dict.keys (_form_json_to_widgets_dict form))
  ∧ _form_json_to_widgets_dict form
    `prefix_of` _form_json_to_widgets_dict (form ++ more).
Proof.
  split; [apply translated_NoDup|].
  unfold _form_json_to_widgets_dict, _form_json_to_widgets_dict_with.
  rewrite foldl_app. apply translate_prefix_from.
Qed.

Ltac list_mem :=
  rewrite ?elem_of_cons, ?elem_of_nil in *; intuition congruence.

Lemma widget_map_lookup t :
  widget_map !! t
  = if decide (t = "StringChoiceWidget") then Some "radio"
    else if decide (t = "StringListArrayWidget") then Some "checkbox"
    else if decide (t = "StringListWidget") then Some "checkbox"
    else None.
Proof.
  unfold widget_map.
  destruct (decide (t = "StringChoiceWidget")) as [->|?]; [by rewrite lookup_insert_eq|].
  rewrite lookup_insert_ne by done.
  destruct (decide (t = "StringListArrayWidget")) as [->|?]; [by rewrite lookup_insert_eq|].
  rewrite lookup_insert_ne by done.
  destruct (decide (t = "StringListWidget")) as [->|?]; [by rewrite lookup_insert_eq|].
  by rewrite lookup_insert_ne.
Qed.

Lemma translate_entry_type widget :
  fw_type (translate_entry widget)
  = default (default "" (e_type widget)) (widget_map !! default "" (e_type widget)).
Proof.
  unfold translate_entry. by destruct (widget_details _) as [[? ?] ?].
Qed.

(** X3: the raw type alone decides the kind of control.  A field becomes a
    checkbox group exactly when its raw type is StringListWidget,
    StringListArrayWidget or already "checkbox", a radio group exactly when
    it is StringChoiceWidget or already "radio"; every other raw type, a
    missing one included, is a kind [_build_form] rejects. *)
Theorem kind_follows_raw_type widget :
  (kind_of (translate_entry widget) = Some Checkbox ↔
   default "" (e_type widget)
   ∈ ["StringListWidget"; "StringListArrayWidget"; "checkbox"])
  ∧ (kind_of (translate_entry widget) = Some Radio ↔
     default "" (e_type widget) ∈ ["StringChoiceWidget"; "radio"])
  ∧ (e_type widget = None → kind_of (translate_entry widget) = None).
Proof.
  unfold kind_of. rewrite translate_entry_type, widget_map_lookup.
  split_and!.
  - destruct (decide (default "" (e_type widget) = "StringChoiceWidget")) as [->|?].
    { cbn. split; [done|]. list_mem. }
    destruct (decide (default "" (e_type widget) = "StringListArrayWidget")) as [->|?].
    { cbn. split; [list_mem | done]. }
    destruct (decide (default "" (e_type widget) = "StringListWidget")) as [->|?].
    { cbn. split; [list_mem | done]. }
    cbn [default from_option].
    destruct (decide (default "" (e_type widget) = "checkbox")) as [->|?].
    { split; [list_mem | done]. }
    destruct (decide (default "" (e_type widget) = "radio")); split; try done; list_mem.
  - destruct (decide (default "" (e_type widget) = "StringChoiceWidget")) as [->|?].
    { cbn. split; [list_mem | done]. }
    destruct (decide (default "" (e_type widget) = "StringListArrayWidget")) as [->|?].
    { cbn. split; [done | list_mem]. }
    destruct (decide (default "" (e_type widget) = "StringListWidget")) as [->|?].
    { cbn. split; [done | list_mem]. }
    cbn [default from_option].
    destruct (decide (default "" (e_type widget) = "checkbox")) as [->|?].
    { split; [done | list_mem]. }
    destruct (decide (default "" (e_type widget) = "radio")) as [->|?];
      split; try done; list_mem.
  - intros ->. done.
Qed.

Lemma kind_follows_raw_type_witness :
  kind_of (translate_entry
             {| e_name := Some "f"; e_type := None; e_label := None;
                e_details := None |}) = None
  ∧ kind_of (translate_entry (field "f" "StringChoiceWidget" ["a"] None))
    = Some Radio.
Proof.
  split.
  - apply (proj2 (proj2 (kind_follows_raw_type _))). reflexivity.
  - apply (proj2 (proj1 (proj2 (kind_follows_raw_type _)))).
    apply (bool_decide_unpack _). vm_compute. exact I.
Defined.

(** *** Grouped details *)

Lemma translate_entry_grouped widget details groups :
  e_details widget = Some details → d_groups details = Some groups →
  fw_labels (translate_entry widget) = (flatten_groups groups).1.1
  ∧ fw_values (translate_entry widget) = (flatten_groups groups).1.2
  ∧ fw_columns (translate_entry widget) = (flatten_groups groups).2.
Proof.
  intros Hd Hg. unfold translate_entry. rewrite Hd. cbn [from_option id].
  unfold widget_details. rewrite Hg. by destruct (flatten_groups groups) as [[? ?] ?].
Qed.

(** X4: for an entry with grouped details the value list is drawn from the
    groups alone -- the entry's own "values" are not read: a value is in it
    exactly when some group lists it, whatever the groups hold.  When no
    single group repeats a value the list has no duplicates, however many
    groups share a value. *)
Theorem grouped_values_merged widget details groups :
  e_details widget = Some details → d_groups details = Some groups →
  (∀ v, v ∈ fw_values (translate_entry widget) ↔
        ∃ g, g ∈ groups ∧ v ∈ default [] (g_values g))
  ∧ (Forall (λ g, NoDup (default [] (g_values g))) groups →
     NoDup (fw_values (translate_entry widget))).
Proof.
  intros Hd Hg.
  destruct (translate_entry_grouped widget details groups Hd Hg) as (_ & -> & _).
  split; [apply flatten_groups_values_elem | apply flatten_groups_NoDup].
Qed.

Lemma grouped_values_merged_witness :
  (∀ v, v ∈ fw_values (translate_entry (grouped "variable" "StringListWidget" xyz_groups)) ↔
        ∃ g, g ∈ xyz_groups ∧ v ∈ default [] (g_values g))
  ∧ NoDup (fw_values (translate_entry (grouped "variable" "StringListWidget" xyz_groups))).
Proof.
  destruct (grouped_values_merged (grouped "variable" "StringListWidget" xyz_groups)
              {| d_labels := None; d_values := None; d_columns := None;
                 d_default := None; d_groups := Some xyz_groups |} xyz_groups
              eq_refl eq_refl) as [Hmem Hnd].
  split; [exact Hmem|].
  apply Hnd. apply (bool_decide_unpack _). vm_compute. exact I.
Defined.

Lemma foldr_max_spec (l : list Z) :
  (1 ≤ foldr Z.max 1 l)%Z
  ∧ Forall (λ c, (c ≤ foldr Z.max 1 l)%Z) l
  ∧ (foldr Z.max 1%Z l = 1%Z ∨ foldr Z.max 1%Z l ∈ l).
Proof.
  induction l as [|c l (IH1 & IH2 & IH3)]; cbn [foldr].
  - split_and!; [lia | constructor | by left].
  - split_and!.
    + lia.
    + constructor; [lia|]. eapply Forall_impl; [apply IH2|]. intros. simpl in *. lia.
    + destruct (Z.max_spec c (foldr Z.max 1%Z l)) as [[_ ->]|[_ ->]].
      * destruct IH3 as [?|?]; [by left | right; by right].
      * right. left.
Qed.

(** X5: for an entry with grouped details the column count is at least 1,
    at least every count a group declares, and is 1 or one of the declared
    counts; a value's label is the one given by the last group that labels
    it, and values no group labels have none. *)
Theorem grouped_columns_and_labels widget details groups :
  e_details widget = Some details → d_groups details = Some groups →
  (1 ≤ fw_columns (translate_entry widget))%Z
  ∧ (∀ g c, g ∈ groups → g_columns g = Some c →
            (c ≤ fw_columns (translate_entry widget))%Z)
  ∧ (fw_columns (translate_entry widget) = 1%Z
     ∨ ∃ g, g ∈ groups ∧ g_columns g = Some (fw_columns (translate_entry widget)))
  ∧ (∀ v before g after label,
       groups = before ++ g :: after →
       default ∅ (g_labels g) !! v = Some label →
       Forall (λ g', default ∅ (g_labels g') !! v = None) after →
       fw_labels (translate_entry widget) !! v = Some label)
  ∧ (∀ v, Forall (λ g, default ∅ (g_labels g) !! v = None) groups →
          fw_labels (translate_entry widget) !! v = None).
Proof.
  intros Hd Hg.
  destruct (translate_entry_grouped widget details groups Hd Hg) as (-> & _ & ->).
  rewrite flatten_groups_columns.
  destruct (foldr_max_spec ((λ g, default 1%Z (g_columns g)) <$> groups))
    as (H1 & H2 & H3).
  assert (∀ v after found,
    Forall (λ g', default ∅ (g_labels g') !! v = None) after →
    foldl (λ found g, match default ∅ (g_labels g) !! v with
                      | Some label => Some label
                      | None => found
                      end) found after = found) as Hnone.
  { intros v after. induction after as [|g after IH]; intros found Hall; [done|].
    apply Forall_cons in Hall as [Hg' Hall]. cbn [foldl]. rewrite Hg'. by apply IH. }
  split_and!.
  - done.
  - intros g c Hin Hc. rewrite Forall_fmap, Forall_forall in H2.
    specialize (H2 g Hin). simpl in H2. by rewrite Hc in H2.
  - destruct H3 as [?|Hin]; [by left|].
    apply list_elem_of_fmap in Hin as (g & Hc & Hin).
    destruct (g_columns g) as [c|] eqn:Hgc; simpl in Hc.
    + right. exists g. split; [done|]. by rewrite Hc.
    + by left.
  - intros v before g after label -> Hl Hafter.
    rewrite flatten_groups_labels, foldl_app. cbn [foldl]. rewrite Hl.
    by apply Hnone.
  - intros v Hall. rewrite flatten_groups_labels. by apply Hnone.
Qed.

Lemma grouped_columns_and_labels_witness :
  (1 ≤ fw_columns (translate_entry (grouped "variable" "StringListWidget" xyz_groups)))%Z
  ∧ fw_labels (translate_entry (grouped "variable" "StringListWidget" xyz_groups)) !! "x"
    = None.
Proof.
  pose proof (grouped_columns_and_labels
                (grouped "variable" "StringListWidget" xyz_groups)
                {| d_labels := None; d_values := None; d_columns := None;
                   d_default := None; d_groups := Some xyz_groups |} xyz_groups
                eq_refl eq_refl) as (H1 & _ & _ & _ & H5).
  split; [exact H1|]. apply H5. repeat constructor.
Defined.

(** ** Extraction *)

(** X6: the extraction function of the radio kind returns the first element
    of what the checkbox kind's would return for the same buttons and
    options, or nothing when that is empty. *)
Theorem radio_extracts_head_of_checkbox tb_list opts :
  get_value_radio tb_list opts = take 1 (get_value_checkbox tb_list opts).
Proof.
  unfold get_value_checkbox. revert opts.
  induction tb_list as [|tb tb_list IH]; intros [|opt opts]; try done.
  cbn [get_value_radio zip zip_with]. rewrite filter_cons. cbn [snd].
  destruct (tb_value tb).
  - by rewrite decide_True.
  - rewrite decide_False by done. apply IH.
Qed.

(** ** What the callbacks leave alone *)

Section frame.

(** A relation between controllers that no write of the callbacks breaks. *)
Variable R : World → World → Prop.
Hypothesis R_refl : ∀ w, R w w.
Hypothesis R_trans : ∀ w1 w2 w3, R w1 w2 → R w2 w3 → R w1 w3.
Hypothesis R_widget_defs : ∀ f w, R w (set_widget_defs f w).
Hypothesis R_form_widgets : ∀ f w, R w (set_form_widgets f w).
Hypothesis R_selection : ∀ s w, R w (set_selection s w).
Hypothesis R_selection_output : ∀ o w, R w (set_selection_output o w).
Hypothesis R_queries : ∀ n w, R w (set_queries n w).
Hypothesis R_public : ∀ id r w, R w (set_public id r w).

Lemma keeps_ret {A} (a : A) : keeps R (mret a).
Proof. intros w. apply R_refl. Qed.

Lemma keeps_raise {A} e : keeps R (raise e : M A).
Proof. intros w. apply R_refl. Qed.

Lemma keeps_get_world : keeps R get_world.
Proof. intros w. apply R_refl. Qed.

Lemma keeps_bind {A B} (m : M A) (f : A → M B) :
  keeps R m → (∀ a, keeps R (f a)) → keeps R (m ≫= f).
Proof.
  intros Hm Hf w. rewrite bind_run. specialize (Hm w).
  destruct (m w) as [a w'|e w']; cbn [world_of] in *; [|done].
  eapply R_trans; [done | apply Hf].
Qed.

Lemma keeps_for_each {A} (f : A → M unit) l :
  (∀ x, keeps R (f x)) → keeps R (for_each f l).
Proof.
  intros Hf. induction l as [|x l IH]; [apply keeps_ret|].
  cbn [for_each]. apply keeps_bind; [apply Hf | by intros _].
Qed.

Lemma keeps_store key widget : keeps R (store key widget).
Proof. intros w. apply R_widget_defs. Qed.

Lemma keeps_update_control item : keeps R (update_control item).
Proof.
  destruct item as [key values]. unfold update_control.
  apply keeps_bind; [apply keeps_get_world|]. intros w.
  destruct (Dict.get key (widget_defs w)) as [[t c ch k o|options value|options value]|];
    [| | |apply keeps_ret]; (apply keeps_bind; [apply keeps_store|]); intros _.
  - destruct (Dict.get key (form_widgets w)); [apply keeps_store | apply keeps_raise].
  - destruct (if decide (_ = options) then value else head values) as [v|];
      [|apply keeps_store].
    destruct (decide (v ∈ values)); [apply keeps_ret | apply keeps_store].
  - destruct (selection w !! key); [apply keeps_store | apply keeps_raise].
Qed.

Lemma keeps_on_change collection : keeps R (on_change collection).
Proof.
  unfold on_change.
  apply keeps_bind; [intros w; apply R_selection|]. intros _.
  apply keeps_bind; [apply keeps_get_world|]. intros w.
  apply keeps_bind; [intros w'; apply R_queries|]. intros _.
  apply keeps_bind; [apply keeps_for_each, keeps_update_control|]. intros _.
  apply keeps_bind; [intros w'; apply R_public|]. intros _.
  intros w'. apply R_selection_output.
Qed.

Lemma keeps_assign collection kind i v buttons :
  keeps R (assign collection kind i v buttons).
Proof.
  unfold assign. destruct (buttons !! i) as [tb|]; [|apply keeps_ret].
  destruct (decide (tb_value tb = v)); [apply keeps_ret|].
  destruct (observers kind v i _) as [bs changed].
  apply keeps_bind; [|intros _; apply keeps_ret].
  destruct changed; [apply keeps_on_change | apply keeps_ret].
Qed.

Lemma keeps_set_defaults collection kind default_values options : ∀ i buttons,
  keeps R (set_defaults collection kind default_values i options buttons).
Proof.
  induction options as [|opt options IH]; intros i buttons; [apply keeps_ret|].
  cbn [set_defaults]. apply keeps_bind; [apply keeps_assign | intros bs; apply IH].
Qed.

Lemma keeps_build_control collection item : keeps R (build_control collection item).
Proof.
  destruct item as [key f]. unfold build_control.
  apply keeps_bind.
  - destruct (decide (fw_type f = "checkbox")); [apply keeps_ret|].
    destruct (decide (fw_type f = "radio")); [|apply keeps_raise].
    apply keeps_bind; [intros w; apply R_form_widgets | intros _; apply keeps_ret].
  - intros [kind title].
    apply keeps_bind; [apply keeps_set_defaults | intros bs; apply keeps_store].
Qed.

Lemma keeps_toggle collection event : keeps R (toggle collection event).
Proof.
  destruct event as [key i]. unfold toggle.
  apply keeps_bind; [apply keeps_get_world|]. intros w.
  destruct (Dict.get key (widget_defs w)) as [[t c ch k o| |]|]; try apply keeps_ret.
  destruct (ch !! i) as [tb|]; [|apply keeps_ret].
  destruct (observers k _ i _) as [bs changed].
  apply keeps_bind; [apply keeps_store|]. intros _.
  destruct changed; [apply keeps_on_change | apply keeps_ret].
Qed.

Lemma keeps_clicks collection events : keeps R (clicks collection events).
Proof. apply keeps_for_each. intros event. apply keeps_toggle. Qed.

End frame.

Lemma on_change_keys collection w :
  Dict.keys (widget_defs (world_of (on_change collection w)))
  = Dict.keys (widget_defs w).
Proof.
  unfold on_change.
  rewrite bind_run. cbn [modify]. rewrite bind_run. cbn [get_world].
  rewrite bind_run. cbn [modify]. rewrite bind_run.
  match goal with
  | |- context [for_each update_control ?items ?w0] =>
      pose proof (for_each_update_control_keys items w0) as Hkeys;
      destruct (for_each update_control items w0) as [[] w1|e w1]
  end; cbn [world_of widget_defs set_queries set_selection] in Hkeys.
  - by rewrite bind_run.
  - done.
Qed.

Lemma toggle_keys collection event w :
  Dict.keys (widget_defs (world_of (toggle collection event w)))
  = Dict.keys (widget_defs w).
Proof.
  destruct event as [key i]. unfold toggle. rewrite bind_run. cbn [get_world].
  destruct (Dict.get key (widget_defs w)) as [[t c ch k o| |]|] eqn:Hget; try done.
  destruct (ch !! i) as [tb|]; [|done].
  destruct (observers k _ i _) as [bs changed].
  rewrite bind_run. unfold store. cbn [modify].
  assert (Dict.keys (Dict.set key (VBox t c bs k o) (widget_defs w))
          = Dict.keys (widget_defs w)) as Hset.
  { apply DictFacts.keys_set_in, DictFacts.get_is_Some. by rewrite Hget. }
  destruct changed; [|done]. by rewrite on_change_keys.
Qed.

Lemma clicks_keys collection events : ∀ w,
  Dict.keys (widget_defs (world_of (clicks collection events w)))
  = Dict.keys (widget_defs w).
Proof.
  unfold clicks. induction events as [|event events IH]; intros w; [done|].
  cbn [for_each]. rewrite bind_run.
  pose proof (toggle_keys collection event w) as Hkeys.
  destruct (toggle collection event w) as [[] w1|e w1]; cbn [world_of] in Hkeys.
  - by rewrite IH.
  - done.
Qed.

(** X7: the callbacks that clicks run never clear or redisplay the main
    output surface, never assign the dataset selector and never add, remove
    or reorder a control, whether they return or raise: the main output
    holds the display it held, the controller the same control names in the
    same order, the selector its value.  How the displayed controls look is
    another matter -- they are the live objects behind those names, whose
    buttons the clicks switch, hide and show; of the two output surfaces
    only the selection preview is redrawn. *)
Theorem clicks_never_redraw_form collection events w :
  output (world_of (clicks collection events w)) = output w
  ∧ collection_widget_value (world_of (clicks collection events w))
    = collection_widget_value w
  ∧ Dict.keys (widget_defs (world_of (clicks collection events w)))
    = Dict.keys (widget_defs w).
Proof.
  split_and!.
  - apply (keeps_clicks (λ w w', output w' = output w)); try done.
    intros w1 w2 w3 ? ?. congruence.
  - apply (keeps_clicks
             (λ w w', collection_widget_value w' = collection_widget_value w));
      try done.
    intros w1 w2 w3 ? ?. congruence.
  - apply clicks_keys.
Qed.

(** ** Building the form *)

Lemma build_loop_selector collection fws w :
  collection_widget_value (world_of (for_each (build_control collection) fws w))
  = collection_widget_value w.
Proof.
  apply (keeps_for_each
           (λ w w', collection_widget_value w' = collection_widget_value w));
    try done.
  - intros w1 w2 w3 ? ?. congruence.
  - intros item.
    apply (keeps_build_control
             (λ w w', collection_widget_value w' = collection_widget_value w));
      try done.
    intros w1 w2 w3 ? ?. congruence.
Qed.

(** X8: [_build_form] returns exactly when every translated field is of a
    supported kind.  Whatever the controller held before, it then holds one
    control per translated field, in the order of the translation and under
    the same names, shows them under the collection's title, publishes the
    selector's value as the current dataset and a request that agrees with
    the controls. *)
Theorem build_form_returns_iff_supported get_collection id w :
  ((∃ w', _build_form get_collection id w = Ok tt w')
   ↔ supported (_form_json_to_widgets_dict (form (get_collection id))))
  ∧ ∀ w', _build_form get_collection id w = Ok tt w' →
      Dict.keys (widget_defs w')
      = Dict.keys (_form_json_to_widgets_dict (form (get_collection id)))
      ∧ output w'
        = [FormView (title (get_collection id))
             (Dict.keys (_form_json_to_widgets_dict (form (get_collection id))))]
      ∧ collection_id w' = collection_widget_value w
      ∧ collection_widget_value w' = collection_widget_value w
      ∧ request w' = selected (widget_defs w').
Proof.
  split.
  - split.
    + intros [w' Hrun]. by apply build_form_Ok in Hrun as [? _].
    + intros Hs. destruct (build_form_supported get_collection id w Hs) as (w1 & ? & _).
      eauto.
  - intros w' Hrun. pose proof Hrun as Hb.
    apply build_form_Ok in Hb as (_ & w1 & -> & Hb).
    pose proof (Forall2_built_keys _ _ (proj2 (proj2 Hb))) as Hkeys.
    rewrite build_form_unfold in Hrun.
    pose proof (build_loop_selector (get_collection id)
                  (_form_json_to_widgets_dict (form (get_collection id)))
                  (loading (_form_json_to_widgets_dict (form (get_collection id))) w))
      as Hsel.
    destruct (for_each _ _ _) as [[] w2|e w2]; [|done].
    apply (f_equal world_of) in Hrun. cbn [world_of] in Hrun, Hsel.
    assert (collection_widget_value w1 = collection_widget_value w) as Hcwv.
    { apply (f_equal collection_widget_value) in Hrun.
      cbn [shown loading collection_widget_value] in Hrun, Hsel. congruence. }
    cbn [shown widget_defs output collection_id collection_widget_value request].
    rewrite Hkeys. by split_and!.
Qed.

Lemma build_form_returns_iff_supported_witness :
  let get_collection :=
    λ id, if decide (id = "old") then constant_collection (choice_form None) ∅
          else constant_collection variable_form ∅ in
  let w := world_of (session get_collection "old" [("f", 0)]) in
  let w' := world_of (_build_form get_collection "new" w) in
  Dict.keys (widget_defs w') = ["variable"]
  ∧ output w' = [FormView "T" ["variable"]]
  ∧ collection_id w' = Some "old"
  ∧ collection_widget_value w' = Some "old"
  ∧ request w' = selected (widget_defs w').
Proof.
  intros get_collection w w'.
  apply (proj2 (build_form_returns_iff_supported get_collection "new" w) w').
  vm_compute. reflexivity.
Defined.

(** X9: when the very first translated field is of an unsupported kind,
    [_build_form] raises with every control of the previous form discarded
    but the public request and dataset id of the previous form still in
    place. *)
Theorem failed_build_keeps_old_request get_collection id w key f later :
  _form_json_to_widgets_dict (form (get_collection id)) = (key, f) :: later →
  kind_of f = None →
  ∃ w', _build_form get_collection id w
        = Raised (ValueError ("Unsupported widget type: " +:+ fw_type f)) w'
        ∧ widget_defs w' = []
        ∧ request w' = request w
        ∧ collection_id w' = collection_id w
        ∧ output w' = [LoadingMsg].
Proof.
  intros Hfws Hkind. eexists. split.
  - rewrite build_form_unfold, Hfws. cbn [for_each].
    rewrite bind_run, build_control_unsupported by done. reflexivity.
  - by split_and!.
Qed.

Lemma failed_build_keeps_old_request_witness :
  ∃ w', _build_form (λ _, constant_collection [field "date" "DateRangeWidget" [] None] ∅)
          "c"
          (world_of (session (λ _, constant_collection (choice_form (Some ["a"])) ∅)
                       "old" []))
        = Raised (ValueError ("Unsupported widget type: " +:+ "DateRangeWidget")) w'
        ∧ widget_defs w' = []
        ∧ request w'
          = request (world_of (session
                                 (λ _, constant_collection (choice_form (Some ["a"])) ∅)
                                 "old" []))
        ∧ collection_id w'
          = collection_id (world_of (session
                                       (λ _, constant_collection (choice_form (Some ["a"])) ∅)
                                       "old" []))
        ∧ output w' = [LoadingMsg].
Proof.
  apply (failed_build_keeps_old_request
           (λ _, constant_collection [field "date" "DateRangeWidget" [] None] ∅) "c"
           _ "date" (translate_entry (field "date" "DateRangeWidget" [] None)) []).
  - vm_compute. reflexivity.
  - vm_compute. reflexivity.
Defined.

Lemma build_form_Ok_request get_collection id w w' :
  _build_form get_collection id w = Ok tt w' →
  Dict.keys (widget_defs w')
  = Dict.keys (_form_json_to_widgets_dict (form (get_collection id)))
  ∧ request w' = selected (widget_defs w')
  ∧ NoDup (Dict.keys (widget_defs w')).
Proof.
  intros Hrun.
  apply build_form_Ok in Hrun as (_ & w1 & -> & (Hr & _ & Hbuilt)).
  split_and!; [by apply Forall2_built_keys | done | apply Hr].
Qed.

Lemma built_control_lookup get_collection id w w' key f :
  _build_form get_collection id w = Ok tt w' →
  Dict.get key (_form_json_to_widgets_dict (form (get_collection id))) = Some f →
  ∃ kind widget,
    kind_of f = Some kind
    ∧ Dict.get key (widget_defs w') = Some widget
    ∧ bare_widget widget = bare_widget (built_control f kind).
Proof.
  intros Hrun Hget. apply build_form_Ok in Hrun as (_ & w1 & -> & (Hr & _ & Hbuilt)).
  apply DictFacts.get_Some_elem, list_elem_of_lookup in Hget as [n Hn].
  destruct (Forall2_lookup_l _ _ _ _ _ Hbuilt Hn)
    as ([k wd] & Hkw & Hk & kind & Hkind & Hbare).
  cbn [fst snd] in *. subst k. exists kind, wd. split_and!; [done | | done].
  cbn [widget_defs shown]. apply DictFacts.elem_get; [apply Hr|].
  apply list_elem_of_lookup. eauto.
Qed.

Lemma get_value_checkbox_pointwise (P : string → Prop) `{∀ o, Decision (P o)}
    children : ∀ opts,
  length children = length opts →
  (∀ i tb opt, children !! i = Some tb → opts !! i = Some opt →
               (tb_value tb = true ↔ P opt)) →
  get_value_checkbox children opts = filter P opts.
Proof.
  unfold get_value_checkbox.
  induction children as [|tb children IH]; intros [|opt opts] Hlen Hpt; try done.
  cbn [zip zip_with]. rewrite !filter_cons. cbn [snd].
  specialize (IH opts ltac:(by injection Hlen)
                 (λ i tb' opt', Hpt (S i) tb' opt')).
  pose proof (Hpt 0 tb opt eq_refl eq_refl) as H0.
  destruct (decide (tb_value tb = true)) as [Hv|Hv].
  - rewrite decide_True by by apply H0. rewrite fmap_cons. cbn [fst]. by rewrite IH.
  - rewrite decide_False by (by rewrite <- H0). apply IH.
Qed.

Lemma get_value_radio_last (default_values : list string) children : ∀ opts,
  length children = length opts →
  (∀ i tb opt, children !! i = Some tb → opts !! i = Some opt →
               (tb_value tb = true ↔
                opt ∈ default_values
                ∧ Forall (λ o, o ∉ default_values) (drop (S i) opts))) →
  get_value_radio children opts
  = from_option (λ o, [o]) [] (last (filter (λ o, o ∈ default_values) opts)).
Proof.
  induction children as [|tb children IH]; intros [|opt opts] Hlen Hpt; try done.
  cbn [get_value_radio]. rewrite filter_cons.
  specialize (IH opts ltac:(by injection Hlen)
                 (λ i tb' opt', Hpt (S i) tb' opt')).
  pose proof (Hpt 0 tb opt eq_refl eq_refl) as H0.
  change (drop 1 (opt :: opts)) with opts in H0.
  destruct (tb_value tb) eqn:Hv.
  - destruct (proj1 H0 eq_refl) as [Hin Hnone].
    rewrite decide_True by done.
    assert (filter (λ o, o ∈ default_values) opts = []) as ->; [|done].
    clear -Hnone. induction Hnone as [|o rest Ho _ IH]; [done|].
    rewrite filter_cons, decide_False by done. done.
  - rewrite IH. destruct (decide (opt ∈ default_values)) as [Hin|Hin]; [|done].
    destruct (filter (λ o, o ∈ default_values) opts) as [|o chosen] eqn:Hf; [|done].
    exfalso. assert (false = true) as Hon; [|done].
    apply H0. split; [done|]. apply Forall_forall. intros o Ho Hd.
    assert (o ∈ filter (λ o, o ∈ default_values) opts) as Hof
      by by apply list_elem_of_filter.
    rewrite Hf in Hof. by apply elem_of_nil in Hof.
Qed.

Lemma built_control_extracts f kind :
  kind_of f = Some kind →
  _get_value (built_control f kind) = Some (initial_choice f).
Proof.
  intros Hkind. unfold initial_choice, default_options. rewrite Hkind.
  pose proof (defaults_pure_spec kind (default [] (fw_default f))
                (new_buttons (fw_labels f) (fw_values f))
                (new_buttons_off _ _) (fw_values f)
                ltac:(by rewrite length_new_buttons)) as Hspec.
  assert (length (defaults_pure kind (default [] (fw_default f)) 0 (fw_values f)
                    (new_buttons (fw_labels f) (fw_values f)))
          = length (fw_values f)) as Hlen
    by by rewrite length_defaults_pure, length_new_buttons.
  destruct kind; cbn [built_control _get_value]; f_equal.
  - apply get_value_checkbox_pointwise; [done|].
    intros i tb opt Hi Ho. rewrite (Hspec i tb Hi). unfold initially_on. split.
    + intros (o & Ho' & ? & _). congruence.
    + intros ?. exists opt. by split_and!.
  - apply get_value_radio_last; [done|].
    intros i tb opt Hi Ho. rewrite (Hspec i tb Hi). unfold initially_on. split.
    + intros (o & Ho' & ? & Hl). rewrite Ho in Ho'. injection Ho' as <-. auto.
    + intros [? ?]. exists opt. by split_and!.
Qed.

(** X10: the request a freshly built form publishes holds the declared
    defaults and nothing else.  A checkbox field is bound to its options that
    are in its default list, in option order; a radio field to the last such
    option alone; a field with no default among its options, and any name
    that is not a translated field, is not bound at all. *)
Theorem initial_request_is_defaults get_collection id w w' key :
  _build_form get_collection id w = Ok tt w' →
  request w' !! key
  = match Dict.get key (_form_json_to_widgets_dict (form (get_collection id))) with
    | Some f_widget =>
        if decide (initial_choice f_widget = []) then None
        else Some (initial_choice f_widget)
    | None => None
    end.
Proof.
  intros Hrun.
  destruct (build_form_Ok_request get_collection id w w' Hrun) as (Hkeys & Hreq & Hnd).
  rewrite Hreq, selected_lookup by done.
  destruct (Dict.get key (_form_json_to_widgets_dict (form (get_collection id))))
    as [f|] eqn:Hget.
  - destruct (built_control_lookup _ _ _ _ _ _ Hrun Hget)
      as (kind & wd & Hkind & Hwd & Hbare).
    rewrite Hwd, <- _get_value_bare, Hbare, _get_value_bare.
    rewrite (built_control_extracts f kind Hkind).
    destruct (decide (initial_choice f = [])); [by rewrite decide_False by auto|].
    by rewrite decide_True.
  - assert (Dict.get key (widget_defs w') = None) as ->; [|done].
    apply DictFacts.get_None. rewrite Hkeys. by apply DictFacts.get_None.
Qed.

Lemma initial_request_is_defaults_witness :
  request (world_of (_build_form
                       (λ _, constant_collection (choice_form (Some ["a"; "b"])) ∅)
                       "c" blank)) !! "f"
  = Some ["b"].
Proof.
  rewrite (initial_request_is_defaults
             (λ _, constant_collection (choice_form (Some ["a"; "b"])) ∅) "c" blank _ "f").
  - vm_compute. reflexivity.
  - vm_compute. reflexivity.
Defined.

(** *** Queries sent while the form is built *)

Lemma assign_pure_later_off kind i v buttons :
  (∀ p tb, i ≤ p → buttons !! p = Some tb → tb_value tb = false) →
  ∀ p tb, S i ≤ p → assign_pure kind i v buttons !! p = Some tb → tb_value tb = false.
Proof.
  intros Hoff p tb Hp. unfold assign_pure.
  destruct (buttons !! i) as [tb0|] eqn:Hi; [|apply Hoff; lia].
  destruct (decide (tb_value tb0 = v)); [apply Hoff; lia|].
  destruct kind; cbn [observers on_radio_click].
  - cbn [fst]. rewrite list_lookup_insert_ne by lia. apply Hoff. lia.
  - destruct v; unfold on_radio_click; cbn [fst].
    + rewrite siblings_off_lookup, list_lookup_insert_ne by lia.
      destruct (buttons !! p) as [tb'|]; [|done]. cbn. intros [= <-].
      by rewrite decide_False by lia.
    + rewrite list_lookup_insert_ne by lia. apply Hoff. lia.
Qed.

Lemma assign_fresh collection kind i v buttons tb w :
  rendered w → buttons !! i = Some tb → tb_value tb = false →
  ∃ w', assign collection kind i v buttons w = Ok (assign_pure kind i v buttons) w'
        ∧ rendered w'
        ∧ queries w' = queries w + (if v then 1 else 0).
Proof.
  intros Hr Hi Hv. unfold assign, assign_pure. rewrite Hi, Hv. destruct v.
  - rewrite decide_False by done.
    assert ((observers kind true i (<[i:=tb_set_value true tb]> buttons)).2 = true) as Hc
      by by destruct kind.
    destruct (observers kind true i (<[i:=tb_set_value true tb]> buttons)) as [bs changed].
    cbn [snd] in Hc. subst changed. exists (propagate collection w). split_and!.
    + by rewrite bind_run, on_change_rendered.
    + by apply rendered_propagate.
    + cbn [propagate queries]. lia.
  - rewrite decide_True by done. exists w. split_and!; [done | done | lia].
Qed.

Lemma set_defaults_queries collection kind default_values options :
  ∀ i buttons w,
  rendered w →
  (∀ p tb, i ≤ p → buttons !! p = Some tb → tb_value tb = false) →
  i + length options ≤ length buttons →
  ∃ w', set_defaults collection kind default_values i options buttons w
        = Ok (defaults_pure kind default_values i options buttons) w'
        ∧ queries w'
          = queries w + length (filter (λ o, o ∈ default_values) options).
Proof.
  induction options as [|opt options IH]; intros i buttons w Hr Hoff Hlen.
  - exists w. split; [done|]. cbn. lia.
  - cbn [length] in Hlen.
    destruct (lookup_lt_is_Some_2 buttons i ltac:(lia)) as [tb Hi].
    destruct (assign_fresh collection kind i (bool_decide (opt ∈ default_values))
                buttons tb w Hr Hi (Hoff i tb ltac:(lia) Hi)) as (w1 & Ha & Hr1 & Hq1).
    destruct (IH (S i) (assign_pure kind i (bool_decide (opt ∈ default_values)) buttons)
                w1 Hr1) as (w2 & Hs & Hq2).
    + by apply assign_pure_later_off.
    + rewrite length_assign_pure. lia.
    + exists w2. split.
      * cbn [set_defaults defaults_pure]. by rewrite (bind_Ok _ _ _ _ _ Ha).
      * rewrite Hq2, Hq1, filter_cons.
        destruct (decide (opt ∈ default_values)) as [Hin|Hin].
        -- rewrite (bool_decide_eq_true_2 _ Hin). cbn [length]. lia.
        -- rewrite (bool_decide_eq_false_2 _ Hin). lia.
Qed.

Lemma build_control_queries collection key f kind f' w :
  rendered w → kind_of f = Some kind →
  Dict.get key (form_widgets w) = Some f' →
  fw_set_title "" f' = fw_set_title "" f →
  key ∉ Dict.keys (widget_defs w) →
  queries (world_of (build_control collection (key, f) w))
  = queries w + length (default_options f).
Proof.
  intros Hr Hkind Hget Heq Hkey.
  set (title := match kind with
                | Checkbox => fw_title f
                | Radio => fw_title f +:+ " (select one)"
                end).
  set (w1 := match kind with
             | Checkbox => w
             | Radio => set_form_widgets (Dict.set key (fw_set_title title f)) w
             end).
  assert (rendered w1) as Hr1.
  { subst w1. destruct kind; [done|]. by apply rendered_set_form_widgets. }
  assert (queries w1 = queries w) as Hq1 by (subst w1; by destruct kind).
  destruct (set_defaults_queries collection kind (default [] (fw_default f))
              (fw_values f) 0 (new_buttons (fw_labels f) (fw_values f)) w1 Hr1)
    as (w2 & Hs & Hq2).
  { intros p tb _. apply new_buttons_off. }
  { rewrite length_new_buttons. lia. }
  unfold default_options. rewrite <- Hq1, <- Hq2.
  unfold build_control. rewrite bind_run.
  destruct (kind_of_Some _ _ Hkind) as [[-> Ht]|(-> & Ht & Hnt)].
  - rewrite decide_True by done. cbn [mret M_ret].
    etrans; [apply (f_equal (λ r, queries (world_of r))), (bind_Ok _ _ _ _ _ Hs)|]. done.
  - rewrite decide_False, decide_True by done.
    rewrite bind_run. unfold modify at 1. cbn [mret M_ret].
    etrans; [apply (f_equal (λ r, queries (world_of r))), (bind_Ok _ _ _ _ _ Hs)|]. done.
Qed.

Lemma build_loop_queries collection fws (Hnd : NoDup (Dict.keys fws)) :
  ∀ todo done_ later w,
  fws = done_ ++ todo ++ later →
  Forall (λ kf, is_Some (kind_of kf.2)) todo →
  building fws done_ w →
  queries (world_of (for_each (build_control collection) todo w))
  = queries w + default_count todo.
Proof.
  induction todo as [|[key f] todo IH]; intros done_ later w Hfws Hgood Hb.
  - cbn. lia.
  - pose proof Hgood as Hgood'.
    apply Forall_cons in Hgood as [[kind Hkind] Hgood]. simpl in Hkind.
    destruct (build_loop collection fws Hnd [(key, f)] done_ (todo ++ later) w)
      as (w1 & Hrun & Hb1 & _); [done | by repeat constructor; eauto | done |].
    cbn [for_each] in Hrun. rewrite bind_run in Hrun.
    assert (build_control collection (key, f) w = Ok tt w1) as Hrun1.
    { destruct (build_control collection (key, f) w) as [[] w'|e w']; [|done].
      change (Ok tt w' = Ok tt w1) in Hrun. congruence. }
    assert (queries w1 = queries w + length (default_options f)) as Hq1.
    { destruct Hb as (Hr & Hu & Hbuilt).
      assert (Dict.get key fws = Some f) as Hget.
      { apply DictFacts.elem_get; [done|]. rewrite Hfws.
        apply elem_of_app. right. left. }
      destruct (untitled_get _ _ _ _ Hu Hget) as (f' & Hget' & Heq).
      assert (key ∉ Dict.keys (widget_defs w)) as Hkey.
      { rewrite (Forall2_built_keys _ _ Hbuilt). rewrite Hfws in Hnd.
        unfold Dict.keys in Hnd. rewrite fmap_app in Hnd.
        apply NoDup_app in Hnd as (_ & Hdisj & _). intros Hin.
        apply (Hdisj key Hin). rewrite fmap_app, fmap_cons. left. }
      pose proof (build_control_queries collection key f kind f' w
                    Hr Hkind Hget' Heq Hkey) as Hq.
      by rewrite Hrun1 in Hq. }
    cbn [for_each]. rewrite (bind_Ok _ _ _ _ _ Hrun1).
    rewrite (IH (done_ ++ [(key, f)]) later w1); [| |done|done].
    + rewrite Hq1. unfold default_count. rewrite fmap_cons. cbn [sum_list_with snd]. unfold id. lia.
    + by rewrite <- app_assoc.
Qed.

(** X11: building a form sends the evaluator one query for every default
    option of every field -- each default switches a button on while its
    observers are already attached -- and no query at all when no field has
    a default among its options. *)
Theorem build_queries_once_per_default get_collection id w w' :
  _build_form get_collection id w = Ok tt w' →
  queries w'
  = queries w + default_count (_form_json_to_widgets_dict (form (get_collection id))).
Proof.
  intros Hrun. pose proof Hrun as Hs. apply build_form_Ok in Hs as [Hs _].
  pose proof (build_loop_queries (get_collection id) _ (translated_NoDup _)
                (_form_json_to_widgets_dict (form (get_collection id))) [] []
                (loading (_form_json_to_widgets_dict (form (get_collection id))) w)
                ltac:(by rewrite app_nil_r) Hs
                (building_loading get_collection id w)) as Hq.
  rewrite build_form_unfold in Hrun.
  destruct (for_each _ _ _) as [[] w1|e w1]; [|done].
  apply (f_equal (λ r, queries (world_of r))) in Hrun.
  cbn [world_of shown loading queries] in Hrun, Hq. congruence.
Qed.

Lemma build_queries_once_per_default_witness :
  queries (world_of (_build_form
                       (λ _, constant_collection (choice_form (Some ["a"; "b"])) ∅)
                       "c" blank))
  = 0 + default_count (_form_json_to_widgets_dict (choice_form (Some ["a"; "b"]))).
Proof.
  apply (build_queries_once_per_default
           (λ _, constant_collection (choice_form (Some ["a"; "b"])) ∅) "c" blank).
  vm_compute. reflexivity.
Defined.

(** ** Whole sessions *)

Lemma session_unfold get_collection id events :
  session get_collection id events
  = (_build_form get_collection id;; clicks (get_collection id) events)
      (set_collection_widget_value (Some id) (world_of (__init__ get_collection))).
Proof. reflexivity. Qed.

Lemma session_rendered get_collection id events w :
  session get_collection id events = Ok tt w →
  form_of (_form_json_to_widgets_dict (form (get_collection id))) w ∧ rendered w.
Proof.
  rewrite session_unfold, bind_run. intros Hrun.
  destruct (_build_form get_collection id _) as [[] w1|e w1] eqn:Hb; [|done].
  destruct (session_form_of get_collection id _ w1 events Hb) as (_ & w2 & Hc & Hf).
  rewrite Hc in Hrun. injection Hrun as <-. split; [done | apply Hf].
Qed.

(** ** Change propagation *)

Lemma map_to_list_keys (m : gmap string (list string)) key :
  key ∈ (map_to_list m).*1 ↔ is_Some (m !! key).
Proof.
  rewrite list_elem_of_fmap. split.
  - intros ([k v] & -> & Hin). apply elem_of_map_to_list in Hin. eauto.
  - intros [v Hv]. exists (key, v). split; [done|]. by apply elem_of_map_to_list.
Qed.

(** X12: the control of a rendered field that the evaluator's response does
    not name is left exactly as it is by the update, layout included: buttons
    hidden by an earlier response stay hidden until a response names the
    field again. *)
Theorem unnamed_control_untouched collection w key :
  rendered w →
  response collection w !! key = None →
  ∃ w', on_change collection w = Ok tt w'
        ∧ Dict.get key (widget_defs w') = Dict.get key (widget_defs w).
Proof.
  intros Hr Hresp. exists (propagate collection w).
  split; [by apply on_change_rendered|].
  cbn [propagate widget_defs]. apply relayout_all_get_notin.
  rewrite map_to_list_keys, Hresp. by intros [? ?].
Qed.

Lemma unnamed_control_untouched_witness :
  let collection := constant_collection variable_form {[ "year" := ["2020"] ]} in
  let w := world_of (session (λ _, constant_collection variable_form {[ "variable" := ["b"] ]})
                       "c" [("variable", 0)]) in
  ∃ w', on_change collection w = Ok tt w'
        ∧ Dict.get "variable" (widget_defs w') = Dict.get "variable" (widget_defs w).
Proof.
  intros collection w.
  apply (unnamed_control_untouched collection w "variable").
  - apply (session_rendered (λ _, constant_collection variable_form {[ "variable" := ["b"] ]})
             "c" [("variable", 0)]).
    vm_compute. reflexivity.
  - vm_compute. reflexivity.
Defined.

Lemma read_controls_lookup widget_defs key : ∀ selection : gmap string (list string),
  NoDup (Dict.keys widget_defs) →
  read_controls widget_defs selection !! key
  = match Dict.get key widget_defs with
    | Some widget =>
        match _get_value widget with
        | Some v => Some v
        | None => selection !! key
        end
    | None => selection !! key
    end.
Proof.
  unfold read_controls, Dict.keys.
  induction widget_defs as [|[k wd] d IH]; intros sel Hnd; [done|].
  rewrite fmap_cons in Hnd. apply NoDup_cons in Hnd as [Hk Hnd].
  cbn [foldl Dict.get]. rewrite IH by done.
  destruct (decide (k = key)) as [->|Hne].
  - assert (Dict.get key d = None) as -> by by apply DictFacts.get_None.
    destruct (_get_value wd) as [v|]; [|done]. by rewrite lookup_insert_eq.
  - assert (∀ v, <[k:=v]> sel !! key = sel !! key) as Hsame
      by (intros; by rewrite lookup_insert_ne).
    destruct (_get_value wd) as [v|]; [rewrite Hsame|]; done.
Qed.

Lemma get_value_after_propagate collection w key :
  _get_value <$> Dict.get key (widget_defs (propagate collection w))
  = _get_value <$> Dict.get key (widget_defs w).
Proof.
  pose proof (propagate_bare collection w) as Hbare.
  apply (f_equal (Dict.get key)) in Hbare. unfold bare_defs in Hbare.
  rewrite !DictFacts.get_fmap in Hbare.
  destruct (Dict.get key (widget_defs (propagate collection w))) as [wd'|],
           (Dict.get key (widget_defs w)) as [wd|]; try done.
  cbn in *. injection Hbare as Hbare.
  by rewrite <- (_get_value_bare wd'), Hbare, _get_value_bare.
Qed.

(** X13: after every change propagation on a rendered form the two selection
    dictionaries agree with the controls as the update left them.  The one
    shown in the preview binds every rendered field to what the field
    extracts, the empty list included; the public request binds a field to
    that same list exactly when it is not empty. *)
Theorem on_change_publishes_controls collection w :
  rendered w →
  ∃ w', on_change collection w = Ok tt w'
        ∧ selection_output w' = [SelectionJson (selection w')]
        ∧ ∀ key widget,
            Dict.get key (widget_defs w') = Some widget →
            ∃ v, _get_value widget = Some v
                 ∧ selection w' !! key = Some v
                 ∧ request w' !! key = if decide (v = []) then None else Some v.
Proof.
  intros Hr. exists (propagate collection w).
  split_and!; [by apply on_change_rendered | done |].
  intros key wd' Hget'.
  pose proof (get_value_after_propagate collection w key) as Hsame.
  rewrite Hget' in Hsame.
  destruct (Dict.get key (widget_defs w)) as [wd|] eqn:Hget; [|done].
  cbn in Hsame. injection Hsame as Hsame.
  destruct (rendered_lookup _ _ _ Hr Hget) as (t & c & ch & k & o & f & Heq & _).
  cbn in Heq. subst wd.
  assert (∃ v, _get_value (VBox t c ch k o) = Some v) as [v Hv]
    by (destruct k; cbn; eauto).
  exists v. rewrite Hsame. split_and!; [done | |].
  - cbn [propagate selection]. rewrite read_controls_lookup by apply Hr.
    by rewrite Hget, Hv.
  - rewrite propagate_request, selected_lookup by apply Hr. rewrite Hget, Hv.
    destruct (decide (v = [])); [by rewrite decide_False by auto | by rewrite decide_True].
Qed.

Lemma on_change_publishes_controls_witness :
  let collection := constant_collection variable_form {[ "variable" := ["b"] ]} in
  let w := world_of (session (λ _, collection) "c" []) in
  ∃ w', on_change collection w = Ok tt w'
        ∧ selection_output w' = [SelectionJson (selection w')]
        ∧ ∀ key widget,
            Dict.get key (widget_defs w') = Some widget →
            ∃ v, _get_value widget = Some v
                 ∧ selection w' !! key = Some v
                 ∧ request w' !! key = if decide (v = []) then None else Some v.
Proof.
  intros collection w. apply (on_change_publishes_controls collection w).
  apply (session_rendered (λ _, collection) "c" []).
  vm_compute. reflexivity.
Defined.

(** An evaluator that echoes the query makes the query visible in the
    layout: after a click on b the update leaves the button of b shown and
    hides the one of a. *)
Example echo_update_shows_the_query :
  let collection := echo_collection variable_form in
  ∃ w, session (λ _, collection) "c" [("variable", 1)] = Ok tt w
       ∧ Dict.get "variable" (widget_defs w)
         = Some (VBox "" 1
                   [ {| tb_value := false; tb_description := "Alpha";
                        tb_display := Some "none" |};
                     {| tb_value := true; tb_description := "b";
                        tb_display := Some "" |} ]
                   Checkbox ["a"; "b"]).
Proof.
  intros collection.
  exists (world_of (session (λ _, collection) "c" [("variable", 1)])).
  split; vm_compute; reflexivity.
Qed.

(** X14: a change propagation on a rendered form sends the evaluator exactly
    one query, and that query is the selection just read from the controls
    without its empty entries.  Whatever the evaluator is, the layout every
    control has afterwards is the one its answer to this very query
    prescribes: the buttons of the legal options shown and the others hidden
    when the answer names the field, the control as it was when it does not.
    On every rendered field the query agrees with the request the same
    propagation then publishes; an entry of the selection under any other
    name is carried over as it was. *)
Theorem on_change_queries_the_request collection w :
  rendered w →
  ∃ w', on_change collection w = Ok tt w'
    ∧ queries w' = S (queries w)
    ∧ (∀ key title columns children kind opts,
         Dict.get key (widget_defs w) = Some (VBox title columns children kind opts) →
         Dict.get key (widget_defs w')
         = Some (VBox title columns
                   (match apply_constraints collection (queries w)
                            (non_empty (selection w')) !! key with
                    | Some values => show_legal (hide_all children) opts values
                    | None => children
                    end) kind opts))
    ∧ (∀ key v, non_empty (selection w') !! key = Some v → v ≠ [])
    ∧ (∀ key, key ∈ Dict.keys (widget_defs w) →
         non_empty (selection w') !! key = request w' !! key)
    ∧ (∀ key, key ∉ Dict.keys (widget_defs w) →
         selection w' !! key = selection w !! key).
Proof.
  intros Hr. exists (propagate collection w).
  split_and!; [by apply on_change_rendered | done | | | |].
  - intros key t c ch k o Hget. cbn [propagate widget_defs selection].
    fold (response collection w).
    destruct (response collection w !! key) as [values|] eqn:Hresp.
    + apply relayout_all_get; [apply NoDup_fst_map_to_list | | done].
      by apply elem_of_map_to_list.
    + rewrite relayout_all_get_notin; [done|].
      rewrite map_to_list_keys, Hresp. by intros [? ?].
  - intros key v. unfold non_empty. rewrite map_lookup_filter_Some. by intros [_ ?].
  - intros key Hkey. apply DictFacts.get_is_Some in Hkey as [wd Hget].
    destruct (rendered_lookup _ _ _ Hr Hget) as (t & c & ch & k & o & f & Heq & _).
    cbn in Heq. subst wd.
    assert (∃ v, _get_value (VBox t c ch k o) = Some v) as [v Hv]
      by (destruct k; cbn; eauto).
    rewrite propagate_request, selected_lookup by apply Hr. rewrite Hget, Hv.
    assert (selection (propagate collection w) !! key = Some v) as Hsel.
    { cbn [propagate selection]. rewrite read_controls_lookup by apply Hr.
      by rewrite Hget, Hv. }
    unfold non_empty. destruct (decide (v ≠ [])) as [Hne|He].
    + by apply map_lookup_filter_Some.
    + apply map_lookup_filter_None. right. intros v' Hv' Hne.
      rewrite Hsel in Hv'. injection Hv' as <-. done.
  - intros key Hkey%DictFacts.get_None. cbn [propagate selection].
    rewrite read_controls_lookup by apply Hr. by rewrite Hkey.
Qed.

Lemma on_change_queries_the_request_witness :
  let collection := echo_collection variable_form in
  let w := world_of (session (λ _, collection) "c" [("variable", 1)]) in
  ∃ w', on_change collection w = Ok tt w'
    ∧ queries w' = S (queries w)
    ∧ (∀ key title columns children kind opts,
         Dict.get key (widget_defs w) = Some (VBox title columns children kind opts) →
         Dict.get key (widget_defs w')
         = Some (VBox title columns
                   (match apply_constraints collection (queries w)
                            (non_empty (selection w')) !! key with
                    | Some values => show_legal (hide_all children) opts values
                    | None => children
                    end) kind opts))
    ∧ (∀ key v, non_empty (selection w') !! key = Some v → v ≠ [])
    ∧ (∀ key, key ∈ Dict.keys (widget_defs w) →
         non_empty (selection w') !! key = request w' !! key)
    ∧ (∀ key, key ∉ Dict.keys (widget_defs w) →
         selection w' !! key = selection w !! key).
Proof.
  intros collection w. apply (on_change_queries_the_request collection w).
  apply (session_rendered (λ _, collection) "c" [("variable", 1)]).
  vm_compute. reflexivity.
Defined.

(** ** Clicks *)

Lemma toggle_effect collection key i w title columns children kind opts tb :
  rendered w →
  Dict.get key (widget_defs w) = Some (VBox title columns children kind opts) →
  children !! i = Some tb →
  let v := negb (tb_value tb) in
  let r := observers kind v i (<[i := tb_set_value v tb]> children) in
  ∃ w', toggle collection (key, i) w = Ok tt w'
        ∧ rendered w'
        ∧ bare_defs (widget_defs w')
          = Dict.set key (VBox title columns (bare <$> r.1) kind opts)
              (bare_defs (widget_defs w))
        ∧ if r.2
          then queries w' = S (queries w) ∧ request w' = selected (widget_defs w')
          else w' = set_widget_defs
                      (Dict.set key (VBox title columns r.1 kind opts)) w.
Proof.
  intros Hr Hget Hi v r.
  destruct (toggle_rendered collection key i w title columns children kind opts tb
              Hr Hget Hi) as [Ht Hr1].
  cbv zeta in Ht, Hr1. fold v in Ht, Hr1. fold r in Ht, Hr1.
  set (w1 := set_widget_defs (Dict.set key (VBox title columns r.1 kind opts)) w) in *.
  assert (bare_defs (widget_defs w1)
          = Dict.set key (VBox title columns (bare <$> r.1) kind opts)
              (bare_defs (widget_defs w))) as Hb1.
  { subst w1. cbn [widget_defs set_widget_defs]. unfold bare_defs.
    by rewrite DictFacts.set_fmap. }
  destruct (r.2) eqn:Hc.
  - exists (propagate collection w1). split_and!.
    + done.
    + by apply rendered_propagate.
    + by rewrite propagate_bare.
    + done.
    + rewrite propagate_request. symmetry.
      rewrite <- selected_bare, propagate_bare. apply selected_bare.
  - exists w1. by split_and!.
Qed.

Lemma control_after w' key title columns buttons kind opts d :
  bare_defs (widget_defs w')
  = Dict.set key (VBox title columns buttons kind opts) d →
  ∃ children', Dict.get key (widget_defs w') = Some (VBox title columns children' kind opts)
               ∧ bare <$> children' = buttons.
Proof.
  intros Hb. apply (f_equal (Dict.get key)) in Hb.
  unfold bare_defs in Hb. rewrite DictFacts.get_fmap, DictFacts.get_set_eq in Hb.
  destruct (Dict.get key (widget_defs w')) as [[t c ch k o| |]|]; try done.
  cbn in Hb. injection Hb as <- <- Hch <- <-. eauto.
Qed.

Lemma other_control_after w' w key key' widget :
  key ≠ key' →
  bare_defs (widget_defs w') = Dict.set key widget (bare_defs (widget_defs w)) →
  bare_widget <$> Dict.get key' (widget_defs w')
  = bare_widget <$> Dict.get key' (widget_defs w).
Proof.
  intros Hne Hb. apply (f_equal (Dict.get key')) in Hb.
  unfold bare_defs in Hb.
  by rewrite DictFacts.get_set_ne, !DictFacts.get_fmap in Hb.
Qed.

(** X15: a click changes button values in its own field only: the control of
    every other field is afterwards what it was, up to the layout of its
    buttons.  This holds for every click on a rendered form, also one that
    names no button. *)
Theorem click_leaves_other_fields collection key i key' w :
  rendered w → key ≠ key' →
  ∃ w', toggle collection (key, i) w = Ok tt w'
        ∧ bare_widget <$> Dict.get key' (widget_defs w')
          = bare_widget <$> Dict.get key' (widget_defs w).
Proof.
  intros Hr Hne.
  destruct (Dict.get key (widget_defs w)) as [widget|] eqn:Hget.
  - destruct (rendered_lookup _ _ _ Hr Hget) as (t & c & ch & k & o & f & Heq & _).
    simpl in Heq. subst widget.
    destruct (ch !! i) as [tb|] eqn:Hi.
    + destruct (toggle_effect collection key i w t c ch k o tb Hr Hget Hi)
        as (w' & Ht & _ & Hb & _).
      exists w'. split; [done|]. by eapply other_control_after.
    + exists w. split; [|done]. apply toggle_absent; [done|].
      intros ????? Hget'. congruence.
  - exists w. split; [|done]. apply toggle_absent; [done|].
    intros ????? Hget'. congruence.
Qed.

Lemma click_leaves_other_fields_witness :
  let collection := constant_collection (choice_form None ++ variable_form) ∅ in
  let w := world_of (session (λ _, collection) "c" [("variable", 1)]) in
  ∃ w', toggle collection ("f", 0) w = Ok tt w'
        ∧ bare_widget <$> Dict.get "variable" (widget_defs w')
          = bare_widget <$> Dict.get "variable" (widget_defs w).
Proof.
  intros collection w. apply (click_leaves_other_fields collection "f" 0 "variable" w).
  - apply (session_rendered (λ _, collection) "c" [("variable", 1)]).
    vm_compute. reflexivity.
  - intros H. discriminate H.
Defined.

(** X16: a click on a checkbox button flips the value of that button and of
    no other, sends the evaluator one query, and leaves the public request
    in agreement with the controls. *)
Theorem checkbox_click_flips_one collection key i w title columns children opts tb :
  rendered w →
  Dict.get key (widget_defs w) = Some (VBox title columns children Checkbox opts) →
  children !! i = Some tb →
  ∃ w' children',
    toggle collection (key, i) w = Ok tt w'
    ∧ Dict.get key (widget_defs w') = Some (VBox title columns children' Checkbox opts)
    ∧ tb_value <$> children' = <[i := negb (tb_value tb)]> (tb_value <$> children)
    ∧ queries w' = S (queries w)
    ∧ request w' = selected (widget_defs w').
Proof.
  intros Hr Hget Hi.
  destruct (toggle_effect collection key i w title columns children Checkbox opts tb
              Hr Hget Hi) as (w' & Ht & Hr' & Hb & Hq & Hreq).
  cbv zeta in Hb. cbn [observers fst] in Hb.
  destruct (control_after _ _ _ _ _ _ _ _ Hb) as (children' & Hget' & Hch).
  exists w', children'. split_and!; try done.
  apply (f_equal (fmap tb_value)) in Hch.
  rewrite <- !list_fmap_compose, list_fmap_insert in Hch.
  etrans; [|etrans; [apply Hch|]].
  - by apply list_fmap_ext.
  - reflexivity.
Qed.

Lemma checkbox_click_flips_one_witness :
  let collection := constant_collection variable_form {[ "variable" := ["b"] ]} in
  let w := world_of (session (λ _, collection) "c" []) in
  ∃ w' children',
    toggle collection ("variable", 1) w = Ok tt w'
    ∧ Dict.get "variable" (widget_defs w') = Some (VBox "" 1 children' Checkbox ["a"; "b"])
    ∧ tb_value <$> children' = <[1 := negb false]> [false; false]
    ∧ queries w' = S (queries w)
    ∧ request w' = selected (widget_defs w').
Proof.
  intros collection w.
  apply (checkbox_click_flips_one collection "variable" 1 w "" 1%Z
           [ {| tb_value := false; tb_description := "Alpha"; tb_display := None |};
             {| tb_value := false; tb_description := "b"; tb_display := None |} ]
           ["a"; "b"]
           {| tb_value := false; tb_description := "b"; tb_display := None |}).
  - apply (session_rendered (λ _, collection) "c" []). vm_compute. reflexivity.
  - vm_compute. reflexivity.
  - reflexivity.
Defined.

(** X17: two clicks on the same checkbox button undo each other: every
    button of the form has its old value again and the request is the one
    the old values give, at the price of two queries. *)
Theorem checkbox_double_click_restores collection key i w title columns children opts tb :
  rendered w →
  Dict.get key (widget_defs w) = Some (VBox title columns children Checkbox opts) →
  children !! i = Some tb →
  ∃ w'', clicks collection [(key, i); (key, i)] w = Ok tt w''
         ∧ bare_defs (widget_defs w'') = bare_defs (widget_defs w)
         ∧ request w'' = selected (widget_defs w)
         ∧ queries w'' = queries w + 2.
Proof.
  intros Hr Hget Hi.
  destruct (toggle_effect collection key i w title columns children Checkbox opts tb
              Hr Hget Hi) as (w' & Ht & Hr' & Hb & Hq & _).
  cbv zeta in Hb. cbn [observers fst] in Hb.
  destruct (control_after _ _ _ _ _ _ _ _ Hb) as (children' & Hget' & Hch).
  assert (∃ tb', children' !! i = Some tb'
                 ∧ bare tb' = bare (tb_set_value (negb (tb_value tb)) tb))
    as (tb' & Hi' & Htb').
  { apply (f_equal (λ l, l !! i)) in Hch.
    rewrite !list_lookup_fmap, list_lookup_insert_eq in Hch
      by by eapply lookup_lt_Some.
    destruct (children' !! i) as [tb'|]; [|done]. exists tb'. split; [done|].
    cbn [fmap option_fmap option_map] in Hch. by apply (inj Some) in Hch. }
  destruct (toggle_effect collection key i w' title columns children' Checkbox opts tb'
              Hr' Hget' Hi') as (w'' & Ht' & Hr'' & Hb' & Hq' & Hreq').
  cbv zeta in Hb'. cbn [observers fst] in Hb'.
  assert (bare_defs (widget_defs w'') = bare_defs (widget_defs w)) as Hback.
  { rewrite Hb', Hb, DictFacts.set_set. apply DictFacts.set_get.
    unfold bare_defs. rewrite DictFacts.get_fmap, Hget.
    cbn [fmap option_fmap option_map bare_widget]. do 2 f_equal.
    rewrite list_fmap_insert, Hch, list_fmap_insert, list_insert_insert_eq.
    symmetry. apply list_insert_id. rewrite list_lookup_fmap, Hi.
    cbn [fmap option_fmap option_map]. f_equal.
    unfold bare, tb_set_value in Htb' |- *. cbn [tb_value tb_description] in Htb' |- *.
    injection Htb' as Hval Hdesc. by rewrite Hval, Hdesc, negb_involutive. }
  exists w''. split_and!.
  - unfold clicks. cbn [for_each].
    rewrite (bind_Ok _ _ _ _ _ Ht), (bind_Ok _ _ _ _ _ Ht'). done.
  - done.
  - by rewrite Hreq', <- selected_bare, Hback, selected_bare.
  - lia.
Qed.

Lemma checkbox_double_click_restores_witness :
  let collection := constant_collection variable_form {[ "variable" := ["b"] ]} in
  let w := world_of (session (λ _, collection) "c" [("variable", 1)]) in
  ∃ w'', clicks collection [("variable", 0); ("variable", 0)] w = Ok tt w''
         ∧ bare_defs (widget_defs w'') = bare_defs (widget_defs w)
         ∧ request w'' = selected (widget_defs w)
         ∧ queries w'' = queries w + 2.
Proof.
  intros collection w.
  apply (checkbox_double_click_restores collection "variable" 0 w "" 1%Z
           [ {| tb_value := false; tb_description := "Alpha"; tb_display := Some "none" |};
             {| tb_value := true; tb_description := "b"; tb_display := Some "" |} ]
           ["a"; "b"]
           {| tb_value := false; tb_description := "Alpha"; tb_display := Some "none" |}).
  - apply (session_rendered (λ _, collection) "c" [("variable", 1)]).
    vm_compute. reflexivity.
  - vm_compute. reflexivity.
  - reflexivity.
Defined.

(** X18: switching a radio button on leaves that button on and every other
    button of the field off, sends the evaluator one query, and binds the
    field to the one option of that button in the public request. *)
Theorem radio_click_selects_one collection key i w title columns children opts tb opt :
  rendered w →
  Dict.get key (widget_defs w) = Some (VBox title columns children Radio opts) →
  children !! i = Some tb → tb_value tb = false →
  opts !! i = Some opt →
  ∃ w' children',
    toggle collection (key, i) w = Ok tt w'
    ∧ Dict.get key (widget_defs w') = Some (VBox title columns children' Radio opts)
    ∧ (∀ j tb', children' !! j = Some tb' → (tb_value tb' = true ↔ j = i))
    ∧ queries w' = S (queries w)
    ∧ request w' !! key = Some [opt].
Proof.
  intros Hr Hget Hi Hv Hopt.
  destruct (toggle_effect collection key i w title columns children Radio opts tb
              Hr Hget Hi) as (w' & Ht & Hr' & Hb & Heff).
  cbv zeta in Hb, Heff. rewrite Hv in Hb, Heff.
  cbn [negb observers on_radio_click fst snd] in Hb, Heff.
  destruct Heff as [Hq Hreq].
  destruct (control_after _ _ _ _ _ _ _ _ Hb) as (children' & Hget' & Hch).
  assert (∀ j tb', children' !! j = Some tb' → (tb_value tb' = true ↔ j = i)) as Hone.
  { intros j tb' Hj. apply (f_equal (λ l, l !! j)) in Hch.
    rewrite !list_lookup_fmap, Hj, siblings_off_lookup in Hch.
    destruct (decide (j = i)) as [->|Hne].
    - rewrite list_lookup_insert_eq in Hch by by eapply lookup_lt_Some.
      cbn [fmap option_fmap option_map] in Hch.
      apply (inj Some), (f_equal tb_value) in Hch.
      cbn [bare tb_value tb_set_value] in Hch. by rewrite Hch.
    - rewrite list_lookup_insert_ne in Hch by done.
      destruct (children !! j) as [tb0|]; [|done].
      cbn [fmap option_fmap option_map] in Hch.
      apply (inj Some), (f_equal tb_value) in Hch.
      cbn [bare tb_value tb_set_value] in Hch. rewrite Hch. split; [done | by intros ->]. }
  exists w', children'. split_and!; try done.
  rewrite Hreq, selected_lookup by apply Hr'. rewrite Hget'. cbn [_get_value].
  destruct (rendered_lookup _ _ _ Hr' Hget')
    as (t & c & ch & k & o & f & Heq & Hlen & _).
  cbn in Heq. injection Heq as <- <- <- <- <-.
  destruct (lookup_lt_is_Some_2 children' i) as [tbi Htbi].
  { rewrite Hlen. by eapply lookup_lt_Some. }
  destruct (get_value_radio_spec children' opts Hlen)
    as [[_ Hoff]|(i' & opt' & tb' & -> & Ho' & Hc' & Hv' & _)].
  - pose proof (proj2 (Hone i tbi Htbi) eq_refl) as Hon.
    by rewrite (Hoff i tbi Htbi) in Hon.
  - apply (Hone i' tb' Hc') in Hv'. subst i'. rewrite Hopt in Ho'. injection Ho' as <-.
    by rewrite decide_True.
Qed.

Lemma radio_click_selects_one_witness :
  let collection := constant_collection (choice_form (Some ["a"])) ∅ in
  let w := world_of (session (λ _, collection) "c" []) in
  ∃ w' children',
    toggle collection ("f", 1) w = Ok tt w'
    ∧ Dict.get "f" (widget_defs w')
      = Some (VBox "f (select one)" 1 children' Radio ["a"; "b"])
    ∧ (∀ j tb', children' !! j = Some tb' → (tb_value tb' = true ↔ j = 1))
    ∧ queries w' = S (queries w)
    ∧ request w' !! "f" = Some ["b"].
Proof.
  intros collection w.
  apply (radio_click_selects_one collection "f" 1 w "f (select one)" 1%Z
           [ {| tb_value := true; tb_description := "a"; tb_display := None |};
             {| tb_value := false; tb_description := "b"; tb_display := None |} ]
           ["a"; "b"]
           {| tb_value := false; tb_description := "b"; tb_display := None |} "b").
  - apply (session_rendered (λ _, collection) "c" []). vm_compute. reflexivity.
  - vm_compute. reflexivity.
  - reflexivity.
  - reflexivity.
  - reflexivity.
Defined.

(** X19: switching a radio button off changes that button and nothing else:
    no query is sent, and the request, the selection preview and every other
    button, layout included, stay as they are. *)
Theorem radio_switch_off_is_silent collection key i w title columns children opts tb :
  Dict.get key (widget_defs w) = Some (VBox title columns children Radio opts) →
  children !! i = Some tb → tb_value tb = true →
  ∃ w', toggle collection (key, i) w = Ok tt w'
        ∧ widget_defs w'
          = Dict.set key
              (VBox title columns (<[i := tb_set_value false tb]> children) Radio opts)
              (widget_defs w)
        ∧ request w' = request w
        ∧ selection w' = selection w
        ∧ selection_output w' = selection_output w
        ∧ queries w' = queries w.
Proof.
  intros Hget Hi Hv. eexists. split.
  - unfold toggle. rewrite bind_run. cbn [get_world]. rewrite Hget, Hi, Hv.
    cbn [negb observers on_radio_click]. rewrite bind_run. reflexivity.
  - by split_and!.
Qed.

Lemma radio_switch_off_is_silent_witness :
  let collection := constant_collection (choice_form (Some ["a"])) ∅ in
  let w := world_of (session (λ _, collection) "c" []) in
  ∃ w', toggle collection ("f", 0) w = Ok tt w'
        ∧ widget_defs w'
          = Dict.set "f"
              (VBox "f (select one)" 1
                 (<[0 := tb_set_value false
                           {| tb_value := true; tb_description := "a"; tb_display := None |}]>
                    [ {| tb_value := true; tb_description := "a"; tb_display := None |};
                      {| tb_value := false; tb_description := "b"; tb_display := None |} ])
                 Radio ["a"; "b"])
              (widget_defs w)
        ∧ request w' = request w
        ∧ selection w' = selection w
        ∧ selection_output w' = selection_output w
        ∧ queries w' = queries w.
Proof.
  intros collection w.
  apply (radio_switch_off_is_silent collection "f" 0 w "f (select one)" 1%Z
           [ {| tb_value := true; tb_description := "a"; tb_display := None |};
             {| tb_value := false; tb_description := "b"; tb_display := None |} ]
           ["a"; "b"]
           {| tb_value := true; tb_description := "a"; tb_display := None |}).
  - vm_compute. reflexivity.
  - reflexivity.
  - reflexivity.
Defined.

(** ** Choosing a dataset *)

Lemma build_form_Ok_selector get_collection id w w' :
  _build_form get_collection id w = Ok tt w' →
  collection_id w' = collection_widget_value w
  ∧ collection_widget_value w' = collection_widget_value w.
Proof.
  intros Hrun. rewrite build_form_unfold in Hrun.
  pose proof (build_loop_selector (get_collection id)
                (_form_json_to_widgets_dict (form (get_collection id)))
                (loading (_form_json_to_widgets_dict (form (get_collection id))) w))
    as Hsel.
  destruct (for_each _ _ _) as [[] w2|e w2]; [|done].
  apply (f_equal world_of) in Hrun. cbn [world_of] in Hrun, Hsel. subst w'.
  cbn [shown loading collection_id collection_widget_value] in *. by split.
Qed.

(** X20: picking the dataset the selector already shows does nothing at
    all.  Picking another one runs [_build_form] for it; when that returns,
    the selector and the published dataset id both name the new dataset and
    the controls are those of its translated fields, none of the previous
    form among them. *)
Theorem select_dataset_rebuilds get_collection new w :
  (collection_widget_value w = Some new →
   select_dataset get_collection new w = Ok tt w)
  ∧ (collection_widget_value w ≠ Some new →
     select_dataset get_collection new w
     = _build_form get_collection new (set_collection_widget_value (Some new) w)
     ∧ ∀ w', select_dataset get_collection new w = Ok tt w' →
         collection_widget_value w' = Some new
         ∧ collection_id w' = Some new
         ∧ Dict.keys (widget_defs w')
           = Dict.keys (_form_json_to_widgets_dict (form (get_collection new)))).
Proof.
  split.
  - intros Hsame. unfold select_dataset. rewrite bind_run. cbn [get_world].
    by rewrite decide_True.
  - intros Hnew.
    assert (select_dataset get_collection new w
            = _build_form get_collection new
                (set_collection_widget_value (Some new) w)) as Hrun.
    { unfold select_dataset. rewrite bind_run. cbn [get_world].
      rewrite decide_False by done. rewrite bind_run. unfold modify at 1.
      unfold _on_collection_change. by rewrite decide_True by congruence. }
    split; [done|]. intros w' Hok. rewrite Hrun in Hok.
    destruct (build_form_Ok_selector _ _ _ _ Hok) as [Hid Hsel].
    destruct (build_form_Ok_request _ _ _ _ Hok) as (Hkeys & _).
    by split_and!.
Qed.

Lemma select_dataset_rebuilds_witness :
  let get_collection :=
    λ id, if decide (id = "old") then constant_collection (choice_form None) ∅
          else constant_collection variable_form ∅ in
  let w := world_of (session get_collection "old" [("f", 0)]) in
  select_dataset get_collection "old" w = Ok tt w
  ∧ ∀ w', select_dataset get_collection "new" w = Ok tt w' →
      collection_widget_value w' = Some "new"
      ∧ collection_id w' = Some "new"
      ∧ Dict.keys (widget_defs w')
        = Dict.keys (_form_json_to_widgets_dict (form (get_collection "new"))).
Proof.
  intros get_collection w. split.
  - apply (proj1 (select_dataset_rebuilds get_collection "old" w)). reflexivity.
  - apply (proj2 (select_dataset_rebuilds get_collection "new" w)).
    vm_compute. intros H. discriminate H.
Defined.
